(** * Topic-evolution chart: the data loader and the series/annotation builders

    A shallow embedding of [app.js].  The JavaScript functions are written in
    a small state-and-exception monad over an explicit heap, so that object
    identity, aliasing and the in-place operations of the source
    ([Array.prototype.sort], [Array.prototype.push], assignments to
    [AppState]) are visible to the theorems.

    Conventions of the model.
    - Numbers are the integer-valued JavaScript numbers, as [Z]; the
      arithmetic of the source ([+], [-], [%], [>]) is exact on them below
      2^53.  Operations whose JavaScript meaning relies on coercing
      non-numbers yield the outcome [Unsupported], which no handler catches.
    - Strings are sequences of code units ([string]).
    - The heap is a list of cells; a reference is an index into it and
      allocation appends. *)

From Stdlib Require Import ZArith Lia Ascii String Permutation Sorted.
From stdpp Require Import base tactics list strings numbers option pretty sorting.

Set Default Proof Using "Type".
Set Warnings "-register-all".

(** ** Values, cells and trees *)

Abbreviation loc := nat (only parsing).

Inductive val : Type :=
| VUndef
| VNull
| VBool (b : bool)
| VNum (n : Z)
| VDec (m : Z) (e : nat)       (* the literal m / 10^e, never computed with *)
| VStr (s : string)
| VRef (l : loc)
| VNative (path : string).

Inductive cell : Type :=
| CObj (props : list (string * val))
| CArr (elems : list val).

#[global] Instance val_eq_dec : EqDecision val.
Proof. solve_decision. Defined.

#[global] Instance cell_eq_dec : EqDecision cell.
Proof. solve_decision. Defined.

(** The contents of a value with every reference followed: what
    [JSON.stringify] would print, had it also printed [undefined] and
    functions. *)
Inductive tree : Type :=
| TUndef
| TNull
| TBool (b : bool)
| TNum (n : Z)
| TDec (m : Z) (e : nat)
| TStr (s : string)
| TNative (path : string)
| TArr (items : list tree)
| TObj (members : list (string * tree)).

Abbreviation heap := (list cell) (only parsing).

Fixpoint readback (fuel : nat) (lk : loc -> option cell) (v : val) : option tree :=
  match v with
  | VUndef => Some TUndef
  | VNull => Some TNull
  | VBool b => Some (TBool b)
  | VNum n => Some (TNum n)
  | VDec m e => Some (TDec m e)
  | VStr s => Some (TStr s)
  | VNative p => Some (TNative p)
  | VRef l =>
      match fuel with
      | O => None
      | S fuel' =>
          match lk l with
          | Some (CArr vs) => TArr <$> mapM (readback fuel' lk) vs
          | Some (CObj ps) =>
              TObj <$> mapM (fun kv => pair (fst kv) <$> readback fuel' lk (snd kv)) ps
          | None => None
          end
      end
  end.

Definition lookup_of (h : heap) : loc -> option cell := fun l => h !! l.

(** [reads h v t]: in heap [h] the value [v] has contents [t]. *)
Definition reads (h : heap) (v : val) (t : tree) : Prop :=
  exists fuel, readback fuel (lookup_of h) v = Some t.

(** ** Program state *)

Inductive err_kind := KError | KTypeError | KSyntaxError.

Record exn := Exn { ekind : err_kind; message : string }.

#[global] Instance err_kind_eq_dec : EqDecision err_kind.
Proof. solve_decision. Defined.

#[global] Instance exn_eq_dec : EqDecision exn.
Proof. solve_decision. Defined.

(** [const AppState = { data, isLoading, error, chartInstance }] *)
Record app_state := {
  data : val;
  isLoading : bool;
  error : option exn;
  chartInstance : val
}.

Definition AppState_init : app_state :=
  {| data := VNull; isLoading := true; error := None; chartInstance := VNull |}.

(** What the element ['evolution-chart'] shows. *)
Inductive region :=
| RBlank
| RLoading
| RError (msg : string)
| RChart (traces layout : val).

(** Calls that leave the program: the console and the charting library. *)
Inductive effect :=
| ConsoleLog (text : string) (args : list val)
| ConsoleError (text : string) (e : exn)
| PlotlyNewPlot (target : string) (traces layout : val)
| PlotlyResize (target : string).

(** The closure returned by [debounce(func, wait)]: its captured [wait] and
    its variable [timeout]. *)
Record debounced := { wait : Z; timeout : option nat }.

Record state := {
  heap_of : heap;
  AppState : app_state;
  chartElement : option region;   (* [None]: the document has no such element *)
  effects : list effect;          (* oldest first *)
  resizeListeners : list debounced;
  timers : list (nat * nat);      (* pending timer id, index of its listener *)
  nextTimer : nat
}.

Definition set_heap (h : heap) (st : state) : state :=
  {| heap_of := h; AppState := AppState st; chartElement := chartElement st;
     effects := effects st; resizeListeners := resizeListeners st;
     timers := timers st; nextTimer := nextTimer st |}.

Definition set_AppState (a : app_state) (st : state) : state :=
  {| heap_of := heap_of st; AppState := a; chartElement := chartElement st;
     effects := effects st; resizeListeners := resizeListeners st;
     timers := timers st; nextTimer := nextTimer st |}.

Definition set_chartElement (r : option region) (st : state) : state :=
  {| heap_of := heap_of st; AppState := AppState st; chartElement := r;
     effects := effects st; resizeListeners := resizeListeners st;
     timers := timers st; nextTimer := nextTimer st |}.

Definition set_effects (es : list effect) (st : state) : state :=
  {| heap_of := heap_of st; AppState := AppState st; chartElement := chartElement st;
     effects := es; resizeListeners := resizeListeners st;
     timers := timers st; nextTimer := nextTimer st |}.

Definition set_timing (ls : list debounced) (ts : list (nat * nat)) (n : nat)
    (st : state) : state :=
  {| heap_of := heap_of st; AppState := AppState st; chartElement := chartElement st;
     effects := effects st; resizeListeners := ls; timers := ts; nextTimer := n |}.

(** The page before any script has run, with the chart element present. *)
Definition state_init : state :=
  {| heap_of := []; AppState := AppState_init; chartElement := Some RBlank;
     effects := []; resizeListeners := []; timers := []; nextTimer := 0 |}.

(** ** The monad *)

Inductive outcome (A : Type) : Type :=
| Ret (a : A)
| Throw (e : exn)
| Unsupported.
Arguments Ret {A} a.
Arguments Throw {A} e.
Arguments Unsupported {A}.

Definition M (A : Type) : Type := state -> outcome A * state.

#[global] Instance M_ret : MRet M := fun A a st => (Ret a, st).

#[global] Instance M_bind : MBind M := fun A B f m st =>
  match m st with
  | (Ret a, st') => f a st'
  | (Throw e, st') => (Throw e, st')
  | (Unsupported, st') => (Unsupported, st')
  end.

Definition throw {A} (e : exn) : M A := fun st => (Throw e, st).
Definition unsupported {A} : M A := fun st => (Unsupported, st).

(** [try { m } catch (error) { handler error }] *)
Definition try_catch {A} (m : M A) (handler : exn -> M A) : M A := fun st =>
  match m st with
  | (Throw e, st') => handler e st'
  | r => r
  end.

Definition get_state : M state := fun st => (Ret st, st).
Definition modify (f : state -> state) : M unit := fun st => (Ret tt, f st).

Definition TypeError {A} (msg : string) : M A := throw (Exn KTypeError msg).

(** ** Heap primitives *)

Definition alloc (c : cell) : M val := fun st =>
  (Ret (VRef (length (heap_of st))), set_heap (heap_of st ++ [c]) st).

Definition deref (l : loc) : M cell := fun st =>
  match heap_of st !! l with
  | Some c => (Ret c, st)
  | None => (Unsupported, st)     (* dangling reference: never produced *)
  end.

Definition store (l : loc) (c : cell) : M unit :=
  modify (fun st => set_heap (<[l := c]> (heap_of st)) st).

(** ** The language: truthiness, property reads, built-in prototypes *)

(** [ToBoolean]. *)
Definition truthy (v : val) : bool :=
  match v with
  | VUndef | VNull => false
  | VBool b => b
  | VNum n => negb (n =? 0)%Z
  | VDec m _ => negb (m =? 0)%Z
  | VStr s => negb (String.eqb s EmptyString)
  | VRef _ | VNative _ => true
  end.

Fixpoint assoc {A} (k : string) (ps : list (string * A)) : option A :=
  match ps with
  | [] => None
  | (k', x) :: ps' => if String.eqb k k' then Some x else assoc k ps'
  end.

Inductive kind := KObject | KArray | KString | KNumber | KBoolean.

(** String-keyed properties of the built-in prototypes (ECMAScript 2023 with
    Annex B).  An object parsed from JSON inherits from [Object.prototype],
    an array from [Array.prototype] and then [Object.prototype]. *)
Definition Object_prototype : list string :=
  [ "constructor"; "__defineGetter__"; "__defineSetter__"; "hasOwnProperty";
    "__lookupGetter__"; "__lookupSetter__"; "isPrototypeOf";
    "propertyIsEnumerable"; "toString"; "valueOf"; "__proto__";
    "toLocaleString" ].

Definition Array_prototype : list string :=
  [ "length"; "constructor"; "at"; "concat"; "copyWithin"; "fill"; "find";
    "findIndex"; "findLast"; "findLastIndex"; "lastIndexOf"; "pop"; "push";
    "reverse"; "shift"; "unshift"; "slice"; "sort"; "splice"; "includes";
    "indexOf"; "join"; "keys"; "entries"; "values"; "forEach"; "filter";
    "flat"; "flatMap"; "map"; "every"; "some"; "reduce"; "reduceRight";
    "toLocaleString"; "toString"; "toReversed"; "toSorted"; "toSpliced";
    "with" ].

Definition String_prototype : list string :=
  [ "length"; "constructor"; "anchor"; "at"; "big"; "blink"; "bold"; "charAt";
    "charCodeAt"; "codePointAt"; "concat"; "endsWith"; "fontcolor";
    "fontsize"; "fixed"; "includes"; "indexOf"; "italics"; "lastIndexOf";
    "link"; "localeCompare"; "match"; "matchAll"; "normalize"; "padEnd";
    "padStart"; "repeat"; "replace"; "replaceAll"; "search"; "slice";
    "small"; "split"; "strike"; "sub"; "substr"; "substring"; "sup";
    "startsWith"; "toString"; "trim"; "trimStart"; "trimLeft"; "trimEnd";
    "trimRight"; "toLocaleLowerCase"; "toLocaleUpperCase"; "toLowerCase";
    "toUpperCase"; "valueOf" ].

Definition Number_prototype : list string :=
  [ "constructor"; "toExponential"; "toFixed"; "toPrecision"; "toString";
    "valueOf"; "toLocaleString" ].

Definition Boolean_prototype : list string :=
  [ "constructor"; "toString"; "valueOf" ].

Definition proto_chain (k : kind) : list (string * list string) :=
  match k with
  | KObject => [("Object.prototype", Object_prototype)]
  | KArray => [("Array.prototype", Array_prototype);
               ("Object.prototype", Object_prototype)]
  | KString => [("String.prototype", String_prototype);
                ("Object.prototype", Object_prototype)]
  | KNumber => [("Number.prototype", Number_prototype);
                ("Object.prototype", Object_prototype)]
  | KBoolean => [("Boolean.prototype", Boolean_prototype);
                 ("Object.prototype", Object_prototype)]
  end.

Definition mem (k : string) (l : list string) : bool := existsb (String.eqb k) l.

Fixpoint find_in_chain (name : string) (chain : list (string * list string))
    : option string :=
  match chain with
  | [] => None
  | (owner, names) :: rest =>
      if mem name names then Some owner else find_in_chain name rest
  end.

(** What a property read finds on the prototype chain when the receiver has
    no own property of that name: the built-in, named by where it lives, or
    [undefined]. *)
Definition inherited (k : kind) (name : string) : val :=
  match find_in_chain name (proto_chain k) with
  | Some owner => VNative (owner +:+ "." +:+ name)
  | None => VUndef
  end.

(** Canonical array indices: the strings [ToString(i)] for 0 <= i < 2^32 - 1. *)
Definition digit_of (a : ascii) : option N :=
  let n := N_of_ascii a in
  if ((48 <=? n) && (n <=? 57))%N then Some (n - 48)%N else None.

Fixpoint parse_digits (s : string) (acc : N) : option N :=
  match s with
  | EmptyString => Some acc
  | String a s' =>
      match digit_of a with
      | Some d => parse_digits s' (10 * acc + d)%N
      | None => None
      end
  end.

Definition array_index (s : string) : option nat :=
  match s with
  | EmptyString => None
  | _ =>
      match parse_digits s 0 with
      | Some n =>
          if ((n <? 4294967295)%N && String.eqb (pretty n) s)%bool
          then Some (N.to_nat n) else None
      | None => None
      end
  end.

Definition is_index (s : string) : bool :=
  match array_index s with Some _ => true | None => false end.

Fixpoint string_chars (s : string) : list string :=
  match s with
  | EmptyString => []
  | String a s' => String a EmptyString :: string_chars s'
  end.

Definition cannot_read {A} (what name : string) : M A :=
  TypeError ("Cannot read properties of " +:+ what +:+ " (reading '" +:+ name
             +:+ "')").

(** [v[name]] / [v.name] for a string key. *)
Definition get (v : val) (name : string) : M val :=
  match v with
  | VUndef => cannot_read "undefined" name
  | VNull => cannot_read "null" name
  | VBool _ => mret (inherited KBoolean name)
  | VNum _ | VDec _ _ => mret (inherited KNumber name)
  | VStr s =>
      if String.eqb name "length" then mret (VNum (Z.of_nat (String.length s)))
      else
        mret (match array_index name with
              | Some i => from_option VStr (inherited KString name)
                            (string_chars s !! i)
              | None => inherited KString name
              end)
  | VNative _ => unsupported
  | VRef l =>
      c ← deref l;
      match c with
      | CObj ps => mret (default (inherited KObject name) (assoc name ps))
      | CArr vs =>
          if String.eqb name "length" then mret (VNum (Z.of_nat (length vs)))
          else
            mret (match array_index name with
                  | Some i => default (inherited KArray name) (vs !! i)
                  | None => inherited KArray name
                  end)
      end
  end.

(** [v[i]] for a number key: on an array the element; elsewhere the property
    named [ToString(i)]. *)
Definition get_idx (v : val) (i : Z) : M val :=
  match v with
  | VRef l =>
      c ← deref l;
      match c with
      | CArr vs =>
          mret (if (0 <=? i)%Z then default VUndef (vs !! Z.to_nat i) else VUndef)
      | CObj _ => get v (pretty i)
      end
  | _ => get v (pretty i)
  end.

(** [v[k]] for a computed key. *)
Definition get_v (v k : val) : M val :=
  match k with
  | VStr s => get v s
  | VNum i => get_idx v i
  | VUndef => get v "undefined"
  | VNull => get v "null"
  | VBool b => get v (if b then "true" else "false")
  | _ => unsupported
  end.

(** [Array.isArray(v)] *)
Definition Array_isArray (v : val) : M bool :=
  match v with
  | VRef l => c ← deref l;
              mret (match c with CArr _ => true | CObj _ => false end)
  | _ => mret false
  end.

(** The receiver of an array method call [v.name(...)]: the elements when
    [v] is an array.  Otherwise the call throws, unless [v] inherits a
    different method of that name. *)
Definition kind_of_prim (v : val) : option kind :=
  match v with
  | VBool _ => Some KBoolean
  | VNum _ | VDec _ _ => Some KNumber
  | VStr _ => Some KString
  | _ => None
  end.

Definition not_a_function {A} (name : string) : M A :=
  TypeError (name +:+ " is not a function").

Definition array_receiver (v : val) (name : string) : M (loc * list val) :=
  match v with
  | VUndef => cannot_read "undefined" name
  | VNull => cannot_read "null" name
  | VNative _ => unsupported
  | VRef l =>
      c ← deref l;
      match c with
      | CArr vs => mret (l, vs)
      | CObj _ => not_a_function name
      end
  | _ =>
      match kind_of_prim v with
      | Some k => if truthy (inherited k name) then unsupported
                  else not_a_function name
      | None => unsupported
      end
  end.

(** [OrdinaryOwnPropertyKeys]: array-index names first, in ascending numeric
    order, then the other names in the order in which they were created. *)
Fixpoint insert_by_index {A} (i : nat) (kv : string * A)
    (l : list (nat * (string * A))) : list (nat * (string * A)) :=
  match l with
  | [] => [(i, kv)]
  | (j, kv') :: l' =>
      if (i <=? j)%nat then (i, kv) :: l else (j, kv') :: insert_by_index i kv l'
  end.

Definition indexed_props {A} (ps : list (string * A)) : list (nat * (string * A)) :=
  foldr (fun kv acc =>
           match array_index (fst kv) with
           | Some i => insert_by_index i kv acc
           | None => acc
           end) [] ps.

Definition own_enumerable {A} (ps : list (string * A)) : list (string * A) :=
  (snd <$> indexed_props ps) ++ filter (fun kv => is_index (fst kv) = false) ps.

Definition indexed {A} (xs : list A) : list (string * A) :=
  imap (fun i x => (pretty i, x)) xs.

(** The own enumerable string-keyed properties of [ToObject(v)], in order. *)
Definition own_entries (v : val) : M (list (string * val)) :=
  match v with
  | VUndef | VNull => TypeError "Cannot convert undefined or null to object"
  | VRef l =>
      c ← deref l;
      mret (match c with
            | CObj ps => own_enumerable ps
            | CArr vs => indexed vs
            end)
  | VStr s => mret (indexed (VStr <$> string_chars s))
  | _ => mret []
  end.

(** [Object.entries(v)]: a fresh array of fresh [[key, value]] arrays. *)
Definition Object_entries (v : val) : M val :=
  kvs ← own_entries v;
  pairs ← mapM (fun kv => alloc (CArr [VStr (fst kv); snd kv])) kvs;
  alloc (CArr pairs).

(** [Object.keys(v)] *)
Definition Object_keys (v : val) : M val :=
  kvs ← own_entries v;
  alloc (CArr ((fun kv => VStr (fst kv)) <$> kvs)).

(** The elements an iteration over [v] visits ([for ... of], array
    patterns). *)
Definition iterable_elems (v : val) : M (list val) :=
  match v with
  | VRef l =>
      c ← deref l;
      match c with
      | CArr vs => mret vs
      | CObj _ => TypeError "object is not iterable"
      end
  | VStr _ | VNative _ => unsupported
  | _ => TypeError "value is not iterable"
  end.

(** The pattern [[a, b]]. *)
Definition destructure_pair (v : val) : M (val * val) :=
  vs ← iterable_elems v;
  mret (default VUndef (vs !! 0), default VUndef (vs !! 1)).

Fixpoint foldM {S A} (f : S -> A -> M S) (s : S) (l : list A) : M S :=
  match l with
  | [] => mret s
  | x :: l' => s' ← f s x; foldM f s' l'
  end.

(** [for (const x of v) body]; the loop bodies of this program never write
    to the array they traverse, so its elements are read once. *)
Definition for_of (v : val) (body : val -> M unit) : M unit :=
  vs ← iterable_elems v;
  foldM (fun _ x => body x) tt vs.

(** [v.map(f)] *)
Definition Array_map (f : val -> M val) (v : val) : M val :=
  r ← array_receiver v "map";
  ws ← mapM f (snd r);
  alloc (CArr ws).

(** [v.forEach(f)], for a callback that also assigns to variables of the
    enclosing function: their values are threaded as [s]. *)
Definition Array_forEach {S} (f : S -> val -> M S) (s : S) (v : val) : M S :=
  r ← array_receiver v "forEach";
  foldM f s (snd r).

(** [v.reduce(f, init)] *)
Definition Array_reduce (f : val -> val -> M val) (init : val) (v : val) : M val :=
  r ← array_receiver v "reduce";
  foldM f init (snd r).

(** [v.push(x)]: writes the receiver in place, returns the new length. *)
Definition Array_push (v x : val) : M val :=
  r ← array_receiver v "push";
  store (fst r) (CArr (snd r ++ [x]));;
  mret (VNum (Z.of_nat (length (snd r) + 1))).

(** [a === b].  A [VDec m e] is the number [m / 10^e]; references are equal
    when they are the same location. *)
Definition strict_eq (a b : val) : bool :=
  match a, b with
  | VNum x, VDec m e => (x * 10 ^ Z.of_nat e =? m)%Z
  | VDec m e, VNum x => (x * 10 ^ Z.of_nat e =? m)%Z
  | VDec m1 e1, VDec m2 e2 => (m1 * 10 ^ Z.of_nat e2 =? m2 * 10 ^ Z.of_nat e1)%Z
  | _, _ => bool_decide (a = b)
  end.

Fixpoint index_of (x : val) (vs : list val) (i : Z) : Z :=
  match vs with
  | [] => (-1)%Z
  | y :: vs' => if strict_eq y x then i else index_of x vs' (i + 1)%Z
  end.

(** [v.indexOf(x)] *)
Definition Array_indexOf (v x : val) : M val :=
  r ← array_receiver v "indexOf";
  mret (VNum (index_of x (snd r) 0)).

(** [ToNumber(v) > 0], as the sort tests a comparator's result and as
    [v > 0] does. *)
Definition positive_number (v : val) : M bool :=
  match v with
  | VNum n => mret (0 <? n)%Z
  | VDec m _ => mret (0 <? m)%Z
  | VUndef => mret false
  | VNull => mret false
  | VBool b => mret b
  | _ => unsupported
  end.

(** [v.sort(cmp)]: sorts the receiver in place and returns it.  The order of
    the comparator calls is the engine's; the sort is stable (ECMAScript
    2019), which insertion from the right is. *)
Fixpoint insertM (cmp : val -> val -> M val) (x : val) (l : list val)
    : M (list val) :=
  match l with
  | [] => mret [x]
  | y :: l' =>
      c ← cmp x y;
      after ← positive_number c;
      if after : bool then (r ← insertM cmp x l'; mret (y :: r))
      else mret (x :: y :: l')
  end.

Fixpoint sortM (cmp : val -> val -> M val) (l : list val) : M (list val) :=
  match l with
  | [] => mret []
  | x :: l' => s ← sortM cmp l'; insertM cmp x s
  end.

Definition Array_sort (cmp : val -> val -> M val) (v : val) : M val :=
  r ← array_receiver v "sort";
  sorted ← sortM cmp (snd r);
  store (fst r) (CArr sorted);;
  mret v.

(** Arithmetic on numbers: the exact integer result.  It is the result of
    the source, which computes on doubles, where [exact] holds of it; the
    theorems that state a sum or an order by sums assume [exact_totals]. *)
Definition js_add (a b : val) : M val :=
  match a, b with
  | VNum x, VNum y => mret (VNum (x + y))
  | _, _ => unsupported
  end.

Definition js_sub (a b : val) : M val :=
  match a, b with
  | VNum x, VNum y => mret (VNum (x - y))
  | _, _ => unsupported
  end.

Definition js_mul (a b : val) : M val :=
  match a, b with
  | VNum x, VNum y => mret (VNum (x * y))
  | _, _ => unsupported
  end.

(** [v > 0] *)
Definition js_gt0 (v : val) : M bool := positive_number v.

(** [ToString] in a template literal. *)
Definition to_string (v : val) : M string :=
  match v with
  | VStr s => mret s
  | VNum n => mret (pretty n)
  | VUndef => mret "undefined"
  | VNull => mret "null"
  | VBool b => mret (if b then "true" else "false")
  | _ => unsupported
  end.

(** [response.json()] on a body that denotes the JSON value [t]: fresh
    objects and arrays, members in the order of the text. *)
Fixpoint inject (t : tree) : M val :=
  match t with
  | TUndef => mret VUndef
  | TNull => mret VNull
  | TBool b => mret (VBool b)
  | TNum n => mret (VNum n)
  | TDec m e => mret (VDec m e)
  | TStr s => mret (VStr s)
  | TNative p => mret (VNative p)
  | TArr ts => vs ← mapM inject ts; alloc (CArr vs)
  | TObj ms =>
      ps ← mapM (fun kv => v ← inject (snd kv); mret (fst kv, v)) ms;
      alloc (CObj ps)
  end.

(** An object literal [{ k1: v1, ... }]. *)
Definition new_object (ps : list (string * val)) : M val := alloc (CObj ps).
Definition new_array (vs : list val) : M val := alloc (CArr vs).

#[global] Instance M_fmap : FMap M := fun A B f m => x ← m; mret (f x).

(** [a || b] on conditions, with JavaScript's short circuit. *)
Definition or_else (a b : M bool) : M bool :=
  x ← a; if x : bool then mret true else b.
Infix "|||" := or_else (at level 50, left associativity).

Definition Error {A} (msg : string) : M A := throw (Exn KError msg).

Definition emit (e : effect) : M unit :=
  modify (fun st => set_effects (effects st ++ [e]) st).

Definition console_log (text : string) (args : list val) : M unit :=
  emit (ConsoleLog text args).

(** ** app.js *)

Module App.

(** [CHART_CONFIG.colors] *)
Definition CHART_CONFIG_colors : list string :=
  [ "#FF6B6B"; "#4ECDC4"; "#45B7D1"; "#96CEB4"; "#FFEAA7";
    "#DDA0DD"; "#98D8C8"; "#F7DC6F"; "#FF9FF3"; "#54A0FF";
    "#5F27CD"; "#00D2D3"; "#FF9F43"; "#10AC84"; "#EE5A24";
    "#0AD3C4"; "#FFC312"; "#C4E538"; "#F79F1F"; "#A3CB38" ].

Definition logError (context : string) (e : exn) : M unit :=
  emit (ConsoleError ("[TopicEvolution] Error in " +:+ context +:+ ":") e).

Definition set_innerHTML (r : region) : M unit :=
  modify (fun st =>
    set_chartElement (match chartElement st with
                      | Some _ => Some r
                      | None => None
                      end) st).

Definition showLoadingState : M unit := set_innerHTML RLoading.

Definition showErrorState (message : string) : M unit :=
  set_innerHTML (RError message).

(** What the network answers to [fetch('data.json')]; [body] is the JSON
    value that the response text denotes, [None] when it is not JSON. *)
Inductive fetched :=
| NetworkError (e : exn)
| Response (ok : bool) (status : Z) (statusText : string) (body : option tree).

(** [await response.json()].  The message of the [SyntaxError] is the
    engine's and depends on the body; the text here stands for it. *)
Definition response_json (body : option tree) : M val :=
  match body with
  | Some t => inject t
  | None => throw (Exn KSyntaxError "Unexpected token in JSON")
  end.

Definition set_loaded (d : val) : M unit :=
  modify (fun st =>
    set_AppState {| data := d; isLoading := false; error := None;
                    chartInstance := chartInstance (AppState st) |} st).

Definition set_failed (e : exn) : M unit :=
  modify (fun st =>
    set_AppState {| data := data (AppState st); isLoading := false;
                    error := Some e;
                    chartInstance := chartInstance (AppState st) |} st).

(** The body of the consistency loop, for one [[category, values]] entry. *)
Definition check_entry (expectedLength entry : val) : M unit :=
  cv ← destructure_pair entry;
  let category := fst cv in
  let values := snd cv in
  bad ← (negb <$> Array_isArray values)
        ||| (len ← get values "length";
             mret (negb (strict_eq len expectedLength)));
  if bad : bool
  then (c ← to_string category;
        Error ("Data inconsistency in category: " +:+ c))
  else mret tt.

Definition loadTopicData (world : fetched) : M val :=
  try_catch
    (showLoadingState;;
     match world with
     | NetworkError e => throw e
     | Response ok status statusText body =>
         (if negb ok
          then Error ("HTTP " +:+ pretty status +:+ ": " +:+ statusText)
          else mret tt);;
         data ← response_json body;
         (* Validate data structure *)
         invalid ← (negb ∘ truthy <$> get data "years")
                   ||| (negb ∘ truthy <$> get data "categories")
                   ||| (negb <$> (y ← get data "years"; Array_isArray y));
         (if invalid : bool
          then Error "Invalid data format: missing required fields"
          else mret tt);;
         (* Validate data consistency *)
         expectedLength ← (y ← get data "years"; get y "length");
         entries ← (c ← get data "categories"; Object_entries c);
         for_of entries (check_entry expectedLength);;
         set_loaded data;;
         ny ← (y ← get data "years"; get y "length");
         nc ← (c ← get data "categories"; k ← Object_keys c; get k "length");
         ny' ← (y ← get data "years"; get y "length");
         nc' ← (c ← get data "categories"; k ← Object_keys c; get k "length");
         total ← js_mul ny' nc';
         stats ← new_object [("years", ny); ("categories", nc);
                             ("totalDataPoints", total)];
         console_log "[TopicEvolution] Data loaded successfully:" [stats];;
         mret data
     end)
    (fun error =>
       set_failed error;;
       logError "loadTopicData" error;;
       showErrorState (message error);;
       mret VNull).

(** The object pushed for one category. *)
Definition new_trace (x y name : val) (color : val) (symbol : val) : M val :=
  line ← new_object [("width", VNum 3); ("color", color);
                     ("shape", VStr "linear")];
  marker_line ← new_object [("width", VNum 2); ("color", VStr "#ffffff")];
  marker ← new_object [("size", VNum 10); ("color", color);
                       ("symbol", symbol); ("line", marker_line)];
  new_object
    [("x", x); ("y", y); ("mode", VStr "lines+markers"); ("name", name);
     ("type", VStr "scatter"); ("line", line); ("marker", marker);
     ("hovertemplate",
      VStr ("<b>%{fullData.name}</b><br>" +:+ "Year: %{x}<br>" +:+
            "Topics: %{y}<br>" +:+ "<extra></extra>"));
     ("connectgaps", VBool false)].

(** [CHART_CONFIG.colors[colorIndex % CHART_CONFIG.colors.length]] *)
Definition color_at (colorIndex : Z) : val :=
  let i := (colorIndex mod Z.of_nat (length CHART_CONFIG_colors))%Z in
  from_option VStr VUndef (CHART_CONFIG_colors !! Z.to_nat i).

(** [([name, values]) => ({ name, values, total: values.reduce(...) })] *)
Definition with_total (entry : val) : M val :=
  nv ← destructure_pair entry;
  let name := fst nv in
  let values := snd nv in
  total ← Array_reduce (fun sum val => js_add sum val) (VNum 0) values;
  new_object [("name", name); ("values", values); ("total", total)].

(** [(a, b) => b.total - a.total] *)
Definition by_total_desc (a b : val) : M val :=
  bt ← get b "total"; at_ ← get a "total"; js_sub bt at_.

(** The callback of [categoryTotals.forEach]; it increments the variable
    [colorIndex] of [createChartTraces]. *)
Definition push_trace (data traces : val) (colorIndex : Z) (item : val) : M Z :=
  name ← get item "name";
  values ← get item "values";
  let color := color_at colorIndex in
  markers ← get data "markers";
  found ← (if truthy markers then get_v markers name else mret markers);
  symbol ← (if truthy found
            then (m ← get data "markers"; get_v m name)
            else mret (VStr "circle"));
  x ← get data "years";
  trace ← new_trace x values name color symbol;
  Array_push traces trace;;
  mret (colorIndex + 1)%Z.

Definition createChartTraces (data : val) : M val :=
  traces ← new_array [];
  let colorIndex := 0%Z in
  (* Sort categories by total count (descending) *)
  categories ← get data "categories";
  entries ← Object_entries categories;
  mapped ← Array_map with_total entries;
  categoryTotals ← Array_sort by_total_desc mapped;
  Array_forEach (push_trace data traces) colorIndex categoryTotals;;
  mret traces.

(** The three annotation blocks of the source differ in these constants
    only: the category and year looked up, the text and the colour. *)
Definition new_annotation (x : Z) (y : val) (text arrowcolor bordercolor : string)
    : M val :=
  font ← new_object
    [("size", VNum 11); ("color", VStr "#1a202c");
     ("family", VStr "-apple-system, BlinkMacSystemFont, sans-serif")];
  new_object
    [("x", VNum x); ("y", y); ("text", VStr text); ("showarrow", VBool true);
     ("arrowhead", VNum 2); ("arrowsize", VNum 1); ("arrowwidth", VNum 2);
     ("arrowcolor", VStr arrowcolor); ("ax", VNum 0); ("ay", VNum (-40));
     ("font", font); ("bgcolor", VStr "rgba(255,255,255,0.9)");
     ("bordercolor", VStr bordercolor); ("borderwidth", VNum 1);
     ("borderpad", VNum 4)].

(** [yearIndex >= 0] *)
Definition js_ge0 (v : val) : M bool :=
  match v with
  | VNum n => mret (0 <=? n)%Z
  | _ => unsupported
  end.

Definition getCategoryValue (data : val) (categoryName : string) (year : Z)
    : M val :=
  categories ← get data "categories";
  c ← get categories categoryName;
  if negb (truthy c) then mret (VNum 0)
  else
    years ← get data "years";
    yearIndex ← Array_indexOf years (VNum year);
    found ← js_ge0 yearIndex;
    if found : bool
    then (categories ← get data "categories";
          c ← get categories categoryName;
          get_v c yearIndex)
    else mret (VNum 0).

Definition annotate (data annotations : val) (categoryName : string) (year : Z)
    (text color : string) : M unit :=
  value ← getCategoryValue data categoryName year;
  positive ← js_gt0 value;
  if positive : bool
  then (a ← new_annotation year value text color color;
        Array_push annotations a;;
        mret tt)
  else mret tt.

Definition createDynamicAnnotations (data : val) : M val :=
  annotations ← new_array [];
  (* Machine Learning & AI peak in 2024 *)
  annotate data annotations "Machine Learning & AI" 2024
           "LLMs<br>Emerge" "#FF6B6B";;
  (* Social Sciences peak in 2019 (Census) *)
  annotate data annotations "Social Sciences & Demographics" 2019
           "Census<br>Focus" "#ed8936";;
  (* COVID impact in 2020 *)
  annotate data annotations "Pandemic & Public Health" 2020
           "COVID-19<br>Impact" "#48bb78";;
  mret annotations.

(** [year.toString()]: on a number the decimal numeral, which is what the
    source prints for the [exact] integers; the theorems that state the
    printed text assume [exact_years]. *)
Definition toString_method (v : val) : M val :=
  match v with
  | VNum n => mret (VStr (pretty n))
  | VStr s => mret (VStr s)
  | VBool b => mret (VStr (if b then "true" else "false"))
  | VUndef => cannot_read "undefined" "toString"
  | VNull => cannot_read "null" "toString"
  | _ => unsupported
  end.

Definition createChartLayout (data : val) : M val :=
  title_font ← new_object
    [("family", VStr "-apple-system, BlinkMacSystemFont, sans-serif");
     ("size", VNum 20); ("color", VStr "#1a202c")];
  title ← new_object
    [("text", VStr "Academic Topic Evolution (2013-2024)");
     ("font", title_font); ("x", VDec 5 1); ("xanchor", VStr "center")];
  x_font ← new_object [("size", VNum 14); ("color", VStr "#4a5568")];
  x_title ← new_object [("text", VStr "Year"); ("font", x_font)];
  tickvals ← get data "years";
  years ← get data "years";
  ticktext ← Array_map toString_method years;
  x_tickfont ← new_object [("color", VStr "#4a5568")];
  xaxis ← new_object
    [("title", x_title); ("tickmode", VStr "array"); ("tickvals", tickvals);
     ("ticktext", ticktext); ("gridcolor", VStr "#e2e8f0");
     ("gridwidth", VNum 1); ("linecolor", VStr "#cbd5e0");
     ("linewidth", VNum 2); ("tickfont", x_tickfont)];
  y_font ← new_object [("size", VNum 14); ("color", VStr "#4a5568")];
  y_title ← new_object [("text", VStr "Number of Topics"); ("font", y_font)];
  y_tickfont ← new_object [("color", VStr "#4a5568")];
  yaxis ← new_object
    [("title", y_title); ("gridcolor", VStr "#e2e8f0"); ("gridwidth", VNum 1);
     ("linecolor", VStr "#cbd5e0"); ("linewidth", VNum 2);
     ("tickfont", y_tickfont); ("rangemode", VStr "tozero")];
  hover_font ← new_object [("color", VStr "#ffffff"); ("size", VNum 12)];
  hoverlabel ← new_object
    [("bgcolor", VStr "#1a202c"); ("bordercolor", VStr "#4a5568");
     ("font", hover_font)];
  legend_font ← new_object [("size", VNum 11); ("color", VStr "#4a5568")];
  legend ← new_object
    [("orientation", VStr "v"); ("yanchor", VStr "top"); ("y", VNum 1);
     ("xanchor", VStr "left"); ("x", VDec 102 2); ("font", legend_font);
     ("bgcolor", VStr "rgba(255,255,255,0.8)");
     ("bordercolor", VStr "#e2e8f0"); ("borderwidth", VNum 1)];
  margin ← new_object
    [("l", VNum 80); ("r", VNum 140); ("t", VNum 80); ("b", VNum 80)];
  annotations ← createDynamicAnnotations data;
  new_object
    [("title", title); ("xaxis", xaxis); ("yaxis", yaxis);
     ("plot_bgcolor", VStr "#ffffff"); ("paper_bgcolor", VStr "#ffffff");
     ("hovermode", VStr "closest"); ("hoverlabel", hoverlabel);
     ("legend", legend); ("margin", margin); ("annotations", annotations)].

(** How the charting library answers [Plotly.newPlot]. *)
Inductive reply := Resolves (v : val) | Rejects (e : exn).

(** [Plotly.newPlot('evolution-chart', traces, layout, CHART_CONFIG.layout)] *)
Definition Plotly_newPlot (world : reply) (target : string) (traces layout : val)
    : M val :=
  emit (PlotlyNewPlot target traces layout);;
  match world with
  | Resolves v => set_innerHTML (RChart traces layout);; mret v
  | Rejects e => throw e
  end.

Definition set_chartInstance (v : val) : M unit :=
  modify (fun st =>
    set_AppState {| data := data (AppState st);
                    isLoading := isLoading (AppState st);
                    error := error (AppState st);
                    chartInstance := v |} st).

(** [debounce(func, wait)]: a closure whose [timeout] is still undefined. *)
Definition debounce (wait : Z) : debounced := {| wait := wait; timeout := None |}.

(** [window.addEventListener('resize', listener)] *)
Definition addEventListener_resize (d : debounced) : M unit :=
  modify (fun st =>
    set_timing (resizeListeners st ++ [d]) (timers st) (nextTimer st) st).

Definition renderChart (plotly : reply) (data : val) : M unit :=
  try_catch
    (traces ← createChartTraces data;
     layout ← createChartLayout data;
     instance ← Plotly_newPlot plotly "evolution-chart" traces layout;
     set_chartInstance instance;;
     console_log "[TopicEvolution] Chart rendered successfully" [];;
     (* Add resize handler for responsiveness *)
     addEventListener_resize (debounce 250))
    (fun error =>
       logError "renderChart" error;;
       showErrorState "Failed to render chart visualization").

Definition initializeApp (network : fetched) (plotly : reply) : M unit :=
  console_log "[TopicEvolution] Initializing application..." [];;
  try_catch
    (data ← loadTopicData network;
     (if negb (truthy data) then Error "Failed to load required data"
      else mret tt);;
     renderChart plotly data;;
     console_log "[TopicEvolution] Application initialized successfully" [])
    (fun error =>
       logError "initializeApp" error;;
       showErrorState "Application failed to initialize").

(** *** The resize listener *)

(** The function passed to [debounce] in [renderChart]. *)
Definition resize_handler : M unit :=
  st ← get_state;
  if truthy (chartInstance (AppState st))
  then emit (PlotlyResize "evolution-chart")
  else mret tt.

Definition clearTimeout (t : option nat) : M unit :=
  modify (fun st =>
    set_timing (resizeListeners st)
      (filter (fun p => Some (fst p) <> t) (timers st)) (nextTimer st) st).

(** [setTimeout(later, wait)] called by listener [i]. *)
Definition setTimeout (i : nat) : M nat := fun st =>
  (Ret (nextTimer st),
   set_timing (resizeListeners st) (timers st ++ [(nextTimer st, i)])
     (S (nextTimer st)) st).

Definition set_timeout_var (i : nat) (t : nat) : M unit :=
  modify (fun st =>
    set_timing
      (alter (fun d => {| wait := wait d; timeout := Some t |}) i
         (resizeListeners st))
      (timers st) (nextTimer st) st).

(** [executedFunction] of listener [i]: cancel the pending timer, start a
    new one. *)
Definition executedFunction (i : nat) : M unit :=
  st ← get_state;
  match resizeListeners st !! i with
  | Some d => clearTimeout (timeout d);; t ← setTimeout i; set_timeout_var i t
  | None => mret tt
  end.

(** [later] of listener [i]. *)
Definition later (i : nat) : M unit :=
  st ← get_state;
  match resizeListeners st !! i with
  | Some d => clearTimeout (timeout d);; resize_handler
  | None => mret tt
  end.

(** The browser delivers a [resize] event to every listener. *)
Definition resize_event : M unit :=
  st ← get_state;
  foldM (fun _ i => executedFunction i) tt (seq 0 (length (resizeListeners st))).

(** The delay of timer [t] has elapsed. *)
Definition timer_fires (t : nat) : M unit :=
  st ← get_state;
  match list_find (fun p => fst p = t) (timers st) with
  | Some (_, (_, i)) => clearTimeout (Some t);; later i
  | None => mret tt
  end.

End App.

(** * Specification vocabulary *)

(** [sub lk1 lk2]: every cell of [lk1] is a cell of [lk2]. *)
Definition sub (lk1 lk2 : loc -> option cell) : Prop :=
  forall l c, lk1 l = Some c -> lk2 l = Some c.

Definition reads_in (lk : loc -> option cell) (v : val) (t : tree) : Prop :=
  exists fuel, readback fuel lk v = Some t.

(** [wp m st Q]: from [st] the computation [m] returns normally, with a
    value and a final state that satisfy [Q]. *)
Definition wp {A} (m : M A) (st : state) (Q : A -> state -> Prop) : Prop :=
  match m st with
  | (Ret a, st') => Q a st'
  | _ => False
  end.

(** Everything of the state but the heap. *)
Definition world (st : state)
    : app_state * option region * list effect * list debounced
      * list (nat * nat) * nat :=
  (AppState st, chartElement st, effects st, resizeListeners st, timers st,
   nextTimer st).

(** [grows X st st']: from [st] to [st'] the heap was only extended, and
    written at most at the locations [X]; nothing else changed. *)
Record grows (X : list loc) (st st' : state) : Prop := {
  grows_length : length (heap_of st) <= length (heap_of st');
  grows_cells : forall l c,
    heap_of st !! l = Some c -> l ∉ X -> heap_of st' !! l = Some c;
  grows_world : world st' = world st
}.

(** The cells of [h] outside [X]. *)
Definition hide (X : list loc) (h : heap) : loc -> option cell :=
  fun l => if decide (l ∈ X) then None else h !! l.

(** ** Datasets as trees *)

Definition prim_tree (v : val) : tree :=
  match v with
  | VUndef | VRef _ => TUndef
  | VNull => TNull
  | VBool b => TBool b
  | VNum n => TNum n
  | VDec m e => TDec m e
  | VStr s => TStr s
  | VNative p => TNative p
  end.

Definition t_truthy (t : tree) : bool :=
  match t with
  | TUndef | TNull => false
  | TBool b => b
  | TNum n => negb (n =? 0)%Z
  | TDec m _ => negb (m =? 0)%Z
  | TStr s => negb (String.eqb s EmptyString)
  | TNative _ | TArr _ | TObj _ => true
  end.

Definition members (t : tree) : list (string * tree) :=
  match t with TObj ms => ms | _ => [] end.

Definition items (t : tree) : list tree :=
  match t with TArr ts => ts | _ => [] end.

(** The own property [name] of an object, [undefined] when there is none. *)
Definition field (name : string) (t : tree) : tree :=
  default TUndef (assoc name (members t)).

(** What reading [name] from an object with members [ms] yields: the own
    property, else what [Object.prototype] provides. *)
Definition own_or_inherited (ms : list (string * tree)) (name : string) : tree :=
  default (prim_tree (inherited KObject name)) (assoc name ms).

Definition number_of (t : tree) : Z :=
  match t with TNum n => n | _ => 0%Z end.

(** The sum of a category's counts. *)
Definition total (values : tree) : Z :=
  foldl Z.add 0%Z (number_of <$> items values).

Definition is_number (t : tree) : bool :=
  match t with TNum _ => true | _ => false end.

Definition is_number_array (t : tree) : bool :=
  match t with TArr ts => forallb is_number ts | _ => false end.

(** The shape of a dataset: [years] an array of numbers, [categories] an
    object whose values are arrays of numbers, [markers] an object, absent,
    or falsy. *)
Definition is_dataset (d : tree) : bool :=
  match d with
  | TObj ms =>
      match assoc "years" ms, assoc "categories" ms with
      | Some years, Some (TObj cs) =>
          is_number_array years
          && forallb (fun kv => is_number_array (snd kv)) cs
          && match assoc "markers" ms with
             | None | Some (TObj _) => true
             | Some t => negb (t_truthy t)
             end
      | _, _ => false
      end
  | _ => false
  end.

(** The categories of a dataset in the order [Object.entries] lists them. *)
Definition categories_of (d : tree) : list (string * tree) :=
  own_enumerable (members (field "categories" d)).

(** Stable sort by descending key: [x] goes behind [y] exactly when
    [key y - key x > 0]. *)
Fixpoint insert_desc {A} (key : A -> Z) (x : A) (l : list A) : list A :=
  match l with
  | [] => [x]
  | y :: l' =>
      if (0 <? key y - key x)%Z then y :: insert_desc key x l'
      else x :: y :: l'
  end.

Fixpoint sort_desc {A} (key : A -> Z) (l : list A) : list A :=
  match l with
  | [] => []
  | x :: l' => insert_desc key x (sort_desc key l')
  end.

Definition symbol_of (d : tree) (name : string) : tree :=
  let markers := field "markers" d in
  if t_truthy markers
  then (let s := own_or_inherited (members markers) name in
        if t_truthy s then s else TStr "circle")
  else TStr "circle".

(** The contents of the trace built for category [e] at position [i]. *)
Definition trace_tree (d : tree) (i : nat) (e : string * tree) : tree :=
  let color := prim_tree (App.color_at (Z.of_nat i)) in
  TObj
    [("x", field "years" d); ("y", snd e); ("mode", TStr "lines+markers");
     ("name", TStr (fst e)); ("type", TStr "scatter");
     ("line", TObj [("width", TNum 3); ("color", color);
                    ("shape", TStr "linear")]);
     ("marker", TObj [("size", TNum 10); ("color", color);
                      ("symbol", symbol_of d (fst e));
                      ("line", TObj [("width", TNum 2);
                                     ("color", TStr "#ffffff")])]);
     ("hovertemplate",
      TStr "<b>%{fullData.name}</b><br>Year: %{x}<br>Topics: %{y}<br><extra></extra>");
     ("connectgaps", TBool false)].

Definition sorted_categories (d : tree) : list (string * tree) :=
  sort_desc (fun e => total (snd e)) (categories_of d).

(** The contents of the array [createChartTraces] returns. *)
Definition traces_of (d : tree) : list tree :=
  imap (trace_tree d) (sorted_categories d).

(** Two property lists that agree key by key. *)
Definition same_keys {A B} (R : A -> B -> Prop) (p : string * A) (m : string * B)
    : Prop :=
  fst p = fst m /\ R (snd p) (snd m).

(** A [[key, value]] array of [Object.entries]. *)
Definition pair_at (lk : loc -> option cell) (h : heap) (pr : val)
    (e : string * tree) : Prop :=
  exists p x, pr = VRef p /\ h !! p = Some (CArr [VStr (fst e); x])
              /\ reads_in lk x (snd e).

(** An element [{ name, values, total }] of [categoryTotals], allocated
    between [lo] and [hi]. *)
Definition item_at (lk : loc -> option cell) (h : heap) (lo hi : nat) (it : val)
    (e : string * tree) : Prop :=
  exists p x, it = VRef p /\ lo <= p < hi
    /\ h !! p = Some (CObj [("name", VStr (fst e)); ("values", x);
                            ("total", VNum (total (snd e)))])
    /\ reads_in lk x (snd e).

(** [a] is listed before [b] among array-index names. *)
Definition by_index {A} (a b : string * A) : Prop :=
  exists i j, array_index (fst a) = Some i /\ array_index (fst b) = Some j
              /\ i <= j.

(** The order the specification words describe: a stable descending sort of
    the categories in the order in which they were inserted. *)
Definition insertion_order_sort (d : tree) : list (string * tree) :=
  sort_desc (fun e => total (snd e)) (members (field "categories" d)).

(** The validated dataset of the data model: [years] non-empty and strictly
    increasing, category names unique, every category a sequence of
    non-negative counts as long as [years]. *)
Fixpoint strictly_increasing (ns : list Z) : bool :=
  match ns with
  | a :: ((b :: _) as rest) => (a <? b)%Z && strictly_increasing rest
  | _ => true
  end.

Definition valid_dataset (d : tree) : bool :=
  is_dataset d
  && negb (length (items (field "years" d)) =? 0)%nat
  && strictly_increasing (number_of <$> items (field "years" d))
  && bool_decide (NoDup (fst <$> members (field "categories" d)))
  && forallb (fun e =>
       (length (items (snd e)) =? length (items (field "years" d)))%nat
       && forallb (fun t => (0 <=? number_of t)%Z) (items (snd e)))
       (members (field "categories" d)).

(** ** Sample inputs *)

(** The value and the state after [response.json()] on a fresh page. *)
Definition parsed (t : tree) : val * state :=
  match inject t state_init with
  | (Ret v, st) => (v, st)
  | (_, st) => (VUndef, st)
  end.

(** [{years:[2016,2017], categories:{"AI":[2,5], "Finance":[3,3]}}] *)
Definition dataset_scenario : tree :=
  TObj [("years", TArr [TNum 2016; TNum 2017]);
        ("categories", TObj [("AI", TArr [TNum 2; TNum 5]);
                             ("Finance", TArr [TNum 3; TNum 3])])].

(** Totals [{A:10, B:30, C:30}], B inserted before C. *)
Definition dataset_ties : tree :=
  TObj [("years", TArr [TNum 2020; TNum 2021]);
        ("categories", TObj [("A", TArr [TNum 4; TNum 6]);
                             ("B", TArr [TNum 10; TNum 20]);
                             ("C", TArr [TNum 30; TNum 0])])].

(** Two categories of equal total whose names are array indices, ["10"]
    inserted before ["9"]. *)
Definition dataset_index_names : tree :=
  TObj [("years", TArr [TNum 2020]);
        ("categories", TObj [("10", TArr [TNum 30]); ("9", TArr [TNum 30])])].

(** A category named like a property of [Object.prototype], and an empty
    [markers] object. *)
Definition dataset_inherited_name : tree :=
  TObj [("years", TArr [TNum 2020]);
        ("categories", TObj [("constructor", TArr [TNum 5])]);
        ("markers", TObj [])].

(** The colour of a trace, on its line and on its marker. *)
Definition line_color (t : tree) : tree := field "color" (field "line" t).
Definition marker_symbol (t : tree) : tree := field "symbol" (field "marker" t).

(** ** Annotations as trees *)

(** The fixed triggers of [createDynamicAnnotations], in source order:
    category, year, text, colour. *)
Definition triggers : list (string * Z * string * string) :=
  [ ("Machine Learning & AI", 2024%Z, "LLMs<br>Emerge", "#FF6B6B");
    ("Social Sciences & Demographics", 2019%Z, "Census<br>Focus", "#ed8936");
    ("Pandemic & Public Health", 2020%Z, "COVID-19<br>Impact", "#48bb78") ].

(** Position of the first occurrence of [year], counted from [i]; [-1] when
    there is none. *)
Fixpoint year_index (year : Z) (years : list Z) (i : Z) : Z :=
  match years with
  | [] => (-1)%Z
  | y :: years' => if (y =? year)%Z then i else year_index year years' (i + 1)%Z
  end.

(** The count at the position of [year] in the category [name]; [None] when
    the dataset has no such category, no such year, or no count there. *)
Definition count_at (d : tree) (name : string) (year : Z) : option Z :=
  match assoc name (members (field "categories" d)) with
  | Some values =>
      let i := year_index year (number_of <$> items (field "years" d)) 0 in
      if (0 <=? i)%Z
      then match items values !! Z.to_nat i with
           | Some (TNum v) => Some v
           | _ => None
           end
      else None
  | None => None
  end.

Definition annotation_tree (x : Z) (y : Z) (text color : string) : tree :=
  TObj
    [("x", TNum x); ("y", TNum y); ("text", TStr text);
     ("showarrow", TBool true); ("arrowhead", TNum 2); ("arrowsize", TNum 1);
     ("arrowwidth", TNum 2); ("arrowcolor", TStr color); ("ax", TNum 0);
     ("ay", TNum (-40));
     ("font", TObj [("size", TNum 11); ("color", TStr "#1a202c");
                    ("family",
                     TStr "-apple-system, BlinkMacSystemFont, sans-serif")]);
     ("bgcolor", TStr "rgba(255,255,255,0.9)"); ("bordercolor", TStr color);
     ("borderwidth", TNum 1); ("borderpad", TNum 4)].

(** The annotation a trigger yields on [d], if any. *)
Definition annotation_for (d : tree) (t : string * Z * string * string)
    : option tree :=
  let '(name, year, text, color) := t in
  match count_at d name year with
  | Some v => if (0 <? v)%Z then Some (annotation_tree year v text color)
              else None
  | None => None
  end.

(** The contents of the array [createDynamicAnnotations] returns. *)
Definition annotations_of (d : tree) : list tree :=
  omap (annotation_for d) triggers.

(** [i] is the position of the first occurrence of [year] in [years]. *)
Definition first_at (year : Z) (years : list Z) (i : nat) : Prop :=
  years !! i = Some year /\ forall j, j < i -> years !! j <> Some year.

(** The dataset has the category [name] and the year [year], and the count
    there is [v]. *)
Definition has_count (d : tree) (name : string) (year v : Z) : Prop :=
  exists values i,
    assoc name (members (field "categories" d)) = Some values
    /\ first_at year (number_of <$> items (field "years" d)) i
    /\ items values !! i = Some (TNum v).

(** Years 2019, 2020 and 2024; a machine-learning category that peaks in
    2024, a social-sciences category with no topic in 2019, and no pandemic
    category. *)
Definition dataset_annotated : tree :=
  TObj [("years", TArr [TNum 2019; TNum 2020; TNum 2024]);
        ("categories",
         TObj [("Machine Learning & AI", TArr [TNum 1; TNum 2; TNum 5]);
               ("Social Sciences & Demographics",
                TArr [TNum 0; TNum 1; TNum 1])])].

(** ** The loader's checks, on trees *)

(** Trees that a JSON text can denote. *)
Fixpoint json_value (t : tree) : bool :=
  match t with
  | TUndef | TNative _ => false
  | TArr ts => forallb json_value ts
  | TObj ms => forallb (fun kv => json_value (snd kv)) ms
  | _ => true
  end.

Definition is_array (t : tree) : bool :=
  match t with TArr _ => true | _ => false end.

(** What [Object.entries] lists for a value with contents [t]. *)
Definition t_entries (t : tree) : list (string * tree) :=
  match t with
  | TObj ms => own_enumerable ms
  | TArr ts => indexed ts
  | TStr s => indexed (TStr <$> string_chars s)
  | _ => []
  end.

(** A category's values pass the consistency check: an array of length
    [n]. *)
Definition consistent (n : nat) (values : tree) : bool :=
  match values with
  | TArr xs => (length xs =? n)%nat
  | _ => false
  end.

(** The first category that fails the consistency check. *)
Definition first_inconsistent (n : nat) (es : list (string * tree))
    : option string :=
  fst <$> List.find (fun e => negb (consistent n (snd e))) es.

(** The error [loadTopicData] throws on parsed contents [t], if any. *)
Definition validate (t : tree) : option exn :=
  match t with
  | TNull => Some (Exn KTypeError
                     "Cannot read properties of null (reading 'years')")
  | _ =>
      if negb (t_truthy (field "years" t))
         || negb (t_truthy (field "categories" t))
         || negb (is_array (field "years" t))
      then Some (Exn KError "Invalid data format: missing required fields")
      else
        match first_inconsistent (length (items (field "years" t)))
                (t_entries (field "categories" t)) with
        | Some k => Some (Exn KError ("Data inconsistency in category: " +:+ k))
        | None => None
        end
  end.

(** [wpo m st Q]: the outcome and final state of [m] from [st] satisfy [Q]. *)
Definition wpo {A} (m : M A) (st : state) (Q : outcome A -> state -> Prop)
    : Prop :=
  Q (fst (m st)) (snd (m st)).

(** [AppState] after a failed and after a successful load. *)
Definition failed (e : exn) (a : app_state) : app_state :=
  {| data := data a; isLoading := false; error := Some e;
     chartInstance := chartInstance a |}.

Definition loaded (v : val) (a : app_state) : app_state :=
  {| data := v; isLoading := false; error := None;
     chartInstance := chartInstance a |}.

(** The state in which the [catch] block of [loadTopicData] leaves [s]. *)
Definition fail_state (e : exn) (s : state) : state :=
  set_chartElement
    (match chartElement s with
     | Some _ => Some (RError (message e))
     | None => None
     end)
    (set_effects
       (effects s ++ [ConsoleError "[TopicEvolution] Error in loadTopicData:" e])
       (set_AppState (failed e (AppState s)) s)).

(** [s] is a state of a load that started in [st]: the loading placeholder
    is shown, the heap has grown, nothing else has changed. *)
Definition during_load (st s : state) : Prop :=
  (forall l c, heap_of st !! l = Some c -> heap_of s !! l = Some c)
  /\ AppState s = AppState st
  /\ effects s = effects st
  /\ chartElement s = match chartElement st with
                      | Some _ => Some RLoading
                      | None => None
                      end.

(** What a load that started in [st] on contents [t] ends with. *)
Definition load_result (st : state) (t : tree) (o : outcome val) (st' : state)
    : Prop :=
  (forall l c, heap_of st !! l = Some c -> heap_of st' !! l = Some c)
  /\ match validate t with
     | Some e =>
         o = Ret VNull
         /\ AppState st' = failed e (AppState st)
         /\ chartElement st' = match chartElement st with
                               | Some _ => Some (RError (message e))
                               | None => None
                               end
         /\ effects st'
            = effects st
              ++ [ConsoleError "[TopicEvolution] Error in loadTopicData:" e]
     | None =>
         exists v, o = Ret v /\ reads (heap_of st') v t
                   /\ AppState st' = loaded v (AppState st)
     end.

(** The response body is JSON. *)
Definition world_json (w : App.fetched) : bool :=
  match w with
  | App.Response _ _ _ (Some t) => json_value t
  | _ => true
  end.

(** Years out of order and a negative count. *)
Definition dataset_unordered : tree :=
  TObj [("years", TArr [TNum 2021; TNum 2020]);
        ("categories", TObj [("A", TArr [TNum (-1); TNum 5])])].

(** [categories] is a sequence, not a mapping. *)
Definition dataset_categories_array : tree :=
  TObj [("years", TArr [TNum 2020]);
        ("categories", TArr [TArr [TNum 7]])].

(** Three years, a category with two counts. *)
Definition dataset_short_category : tree :=
  TObj [("years", TArr [TNum 2019; TNum 2020; TNum 2021]);
        ("categories", TObj [("AI", TArr [TNum 1; TNum 2; TNum 3]);
                             ("Finance", TArr [TNum 4; TNum 5])])].

(** ** Resize events *)

(** [times k m]: [m], [k] times in a row. *)
Fixpoint times (k : nat) (m : M unit) : M unit :=
  match k with
  | O => mret tt
  | S k' => m;; times k' m
  end.

(** What the specification words describe for a resize: the series and the
    annotations are built again from the stored dataset and passed to
    [Plotly.newPlot] again. *)
Definition rebuild_and_rerender (plotly : App.reply) : M unit :=
  st ← get_state;
  traces ← App.createChartTraces (data (AppState st));
  layout ← App.createChartLayout (data (AppState st));
  App.Plotly_newPlot plotly "evolution-chart" traces layout;;
  mret tt.

(** The page has the one debounced listener that [renderChart] registers,
    with at most its own timer pending. *)
Definition one_listener (st : state) : Prop :=
  exists d,
    resizeListeners st = [d]
    /\ (timers st = []
        \/ exists t, timeout d = Some t /\ timers st = [(t, 0)]).

(** The page after a successful start on [dataset_annotated]. *)
Definition page_started : state :=
  snd (App.initializeApp (App.Response true 200 "OK" (Some dataset_annotated))
         (App.Resolves (VNative "div#evolution-chart")) state_init).

(** Induction on trees, with the hypothesis for every element of an array and
    every member of an object. *)
Fixpoint tree_ind' (P : tree -> Prop)
    (Hundef : P TUndef) (Hnull : P TNull) (Hbool : forall b, P (TBool b))
    (Hnum : forall n, P (TNum n)) (Hdec : forall m e, P (TDec m e))
    (Hstr : forall s, P (TStr s)) (Hnative : forall p, P (TNative p))
    (Harr : forall ts, Forall P ts -> P (TArr ts))
    (Hobj : forall ms, Forall (fun kv => P (snd kv)) ms -> P (TObj ms))
    (t : tree) : P t :=
  match t with
  | TUndef => Hundef
  | TNull => Hnull
  | TBool b => Hbool b
  | TNum n => Hnum n
  | TDec m e => Hdec m e
  | TStr s => Hstr s
  | TNative p => Hnative p
  | TArr ts =>
      Harr ts
        ((fix go (l : list tree) : Forall P l :=
            match l with
            | [] => List.Forall_nil P
            | x :: l' =>
                @List.Forall_cons _ P x l'
                  (tree_ind' P Hundef Hnull Hbool Hnum Hdec Hstr Hnative
                     Harr Hobj x) (go l')
            end) ts)
  | TObj ms =>
      Hobj ms
        ((fix go (l : list (string * tree)) : Forall (fun kv => P (snd kv)) l :=
            match l with
            | [] => List.Forall_nil _
            | x :: l' =>
                @List.Forall_cons _ (fun kv => P (snd kv)) x l'
                  (tree_ind' P Hundef Hnull Hbool Hnum Hdec Hstr Hnative
                     Harr Hobj (snd x)) (go l')
            end) ms)
  end.

(** Twenty-one categories [c0], ..., [c20], one more than the palette has
    colours, of totals 30, 29, ..., 10. *)
Definition dataset_cycle : tree :=
  TObj [("years", TArr [TNum 2020]);
        ("categories",
         TObj ((fun i => ("c" +:+ pretty i, TArr [TNum (30 - Z.of_nat i)]))
                 <$> seq 0 21))].

(** ** The whole state after a load *)

(** Listeners and timers. *)
Definition timing (st : state) : list debounced * list (nat * nat) * nat :=
  (resizeListeners st, timers st, nextTimer st).

(** What the chart element of [st] shows once [r] has been written to it;
    nothing when the document has no such element. *)
Definition shows (r : region) (st : state) : option region :=
  match chartElement st with
  | Some _ => Some r
  | None => None
  end.

(** The object logged after a successful load. *)
Definition stats_tree (t : tree) : tree :=
  let n := Z.of_nat (length (items (field "years" t))) in
  let m := Z.of_nat (length (t_entries (field "categories" t))) in
  TObj [("years", TNum n); ("categories", TNum m);
        ("totalDataPoints", TNum (n * m))].

Definition loading (st s : state) : Prop :=
  during_load st s /\ timing s = timing st.

(** A load that started in [st] on parsed contents [t] ends in [st'] with
    outcome [o]: every component of the state. *)
Definition load_outcome (st : state) (t : tree) (o : outcome val) (st' : state)
    : Prop :=
  (forall l c, heap_of st !! l = Some c -> heap_of st' !! l = Some c)
  /\ timing st' = timing st
  /\ match validate t with
     | Some e =>
         o = Ret VNull
         /\ AppState st' = failed e (AppState st)
         /\ chartElement st' = shows (RError (message e)) st
         /\ effects st'
            = effects st
              ++ [ConsoleError "[TopicEvolution] Error in loadTopicData:" e]
     | None =>
         exists v stats,
           o = Ret v /\ reads (heap_of st') v t
           /\ AppState st' = loaded v (AppState st)
           /\ chartElement st' = shows RLoading st
           /\ effects st'
              = effects st
                ++ [ConsoleLog "[TopicEvolution] Data loaded successfully:"
                      [stats]]
           /\ reads (heap_of st') stats (stats_tree t)
     end.

(** ** The layout as a tree *)

(** The label of a tick: [year.toString()]. *)
Definition tick_label (year : tree) : tree := TStr (pretty (number_of year)).

(** The contents of the object [createChartLayout] returns. *)
Definition layout_tree (d : tree) : tree :=
  TObj
    [("title",
      TObj [("text", TStr "Academic Topic Evolution (2013-2024)");
            ("font",
             TObj [("family",
                    TStr "-apple-system, BlinkMacSystemFont, sans-serif");
                   ("size", TNum 20); ("color", TStr "#1a202c")]);
            ("x", TDec 5 1); ("xanchor", TStr "center")]);
     ("xaxis",
      TObj [("title",
             TObj [("text", TStr "Year");
                   ("font", TObj [("size", TNum 14);
                                  ("color", TStr "#4a5568")])]);
            ("tickmode", TStr "array");
            ("tickvals", field "years" d);
            ("ticktext", TArr (tick_label <$> items (field "years" d)));
            ("gridcolor", TStr "#e2e8f0"); ("gridwidth", TNum 1);
            ("linecolor", TStr "#cbd5e0"); ("linewidth", TNum 2);
            ("tickfont", TObj [("color", TStr "#4a5568")])]);
     ("yaxis",
      TObj [("title",
             TObj [("text", TStr "Number of Topics");
                   ("font", TObj [("size", TNum 14);
                                  ("color", TStr "#4a5568")])]);
            ("gridcolor", TStr "#e2e8f0"); ("gridwidth", TNum 1);
            ("linecolor", TStr "#cbd5e0"); ("linewidth", TNum 2);
            ("tickfont", TObj [("color", TStr "#4a5568")]);
            ("rangemode", TStr "tozero")]);
     ("plot_bgcolor", TStr "#ffffff"); ("paper_bgcolor", TStr "#ffffff");
     ("hovermode", TStr "closest");
     ("hoverlabel",
      TObj [("bgcolor", TStr "#1a202c"); ("bordercolor", TStr "#4a5568");
            ("font", TObj [("color", TStr "#ffffff"); ("size", TNum 12)])]);
     ("legend",
      TObj [("orientation", TStr "v"); ("yanchor", TStr "top"); ("y", TNum 1);
            ("xanchor", TStr "left"); ("x", TDec 102 2);
            ("font", TObj [("size", TNum 11); ("color", TStr "#4a5568")]);
            ("bgcolor", TStr "rgba(255,255,255,0.8)");
            ("bordercolor", TStr "#e2e8f0"); ("borderwidth", TNum 1)]);
     ("margin",
      TObj [("l", TNum 80); ("r", TNum 140); ("t", TNum 80); ("b", TNum 80)]);
     ("annotations", TArr (annotations_of d))].

(** A member of a member: [t.a.b]. *)
Definition field2 (a b : string) (t : tree) : tree := field b (field a t).

(** The error a load ends with, if any: the transport's, the parser's, or
    the one the checks raise on the parsed contents. *)
Definition load_error (w : App.fetched) : option exn :=
  match w with
  | App.NetworkError e => Some e
  | App.Response false status statusText _ =>
      Some (Exn KError ("HTTP " +:+ pretty status +:+ ": " +:+ statusText))
  | App.Response true _ _ None =>
      Some (Exn KSyntaxError "Unexpected token in JSON")
  | App.Response true _ _ (Some t) => validate t
  end.

(** [years] is not an array. *)
Definition dataset_years_object : tree :=
  TObj [("years", TObj [("2020", TNum 1)]);
        ("categories", TObj [("AI", TArr [TNum 1])])].

(** ** Rendering and start *)

(** [AppState] after [AppState.chartInstance = v]. *)
Definition with_chart (v : val) (a : app_state) : app_state :=
  {| data := data a; isLoading := isLoading a; error := error a;
     chartInstance := v |}.

(** The calls to [Plotly.newPlot] among the effects. *)
Definition is_newPlot (e : effect) : bool :=
  match e with PlotlyNewPlot _ _ _ => true | _ => false end.

Definition plots (es : list effect) : list effect := List.filter is_newPlot es.

(** An object with [years] and no [categories], on an otherwise fresh
    page. *)
Definition state_no_categories : state :=
  set_heap [CArr [VNum 2020]; CObj [("years", VRef 0)]] state_init.

(** The started page after one resize event: its listener has timer 0
    pending. *)
Definition page_resized : state := snd (App.resize_event page_started).

(** A dataset without categories. *)
Definition dataset_empty : tree :=
  TObj [("years", TArr [TNum 2020; TNum 2021]); ("categories", TObj [])].


(** ** Sharing *)

(** [wlp m st Q]: if [m] returns normally from [st], its value and final
    state satisfy [Q]. *)
Definition wlp {A} (m : M A) (st : state) (Q : A -> state -> Prop) : Prop :=
  match m st with
  | (Ret a, st') => Q a st'
  | _ => True
  end.

(** [m] leaves the state as it is, whatever its outcome. *)
Definition reads_only {A} (m : M A) : Prop := forall st, snd (m st) = st.

(** The series object [tr] holds, as [x], the value [years] itself and, as
    [y], the very value that [cs] has under the series' name. *)
Definition shares (years : val) (cs : list (string * val)) (h : heap) (tr : val)
    : Prop :=
  exists p props name y,
    tr = VRef p /\ h !! p = Some (CObj props)
    /\ assoc "x" props = Some years
    /\ assoc "name" props = Some (VStr name)
    /\ assoc "y" props = Some y
    /\ (name, y) ∈ cs.

(** An element [{ name, values, total }] of [categoryTotals], allocated
    between [lo] and [hi], whose [values] is the value of [cs] under
    [name]. *)
Definition item_of (cs : list (string * val)) (h : heap) (lo hi : nat)
    (it : val) : Prop :=
  exists q name x tot,
    it = VRef q /\ lo <= q < hi
    /\ h !! q = Some (CObj [("name", VStr name); ("values", x); ("total", tot)])
    /\ (name, x) ∈ cs.

(** The started page after [renderChart] has run a second time on the
    loaded dataset. *)
Definition page_rendered_twice : state :=
  snd (App.renderChart (App.Resolves (VNative "div#evolution-chart"))
         (data (AppState page_started)) page_started).

(** ** The range of exact arithmetic *)

(** The integers on which the number arithmetic of the source is exact:
    those of magnitude at most 2^53.  A double holds each of them, and an
    addition or subtraction of doubles whose result is one of them returns
    it.  They are also below 10^21, where [Number.prototype.toString] prints
    the decimal numeral. *)
Definition exact (n : Z) : bool := ((- 2 ^ 53 <=? n) && (n <=? 2 ^ 53))%Z.

(** The values that [sum] takes during
    [values.reduce((sum, val) => sum + val, 0)]. *)
Fixpoint running_sums (sum : Z) (vals : list Z) : list Z :=
  match vals with
  | [] => []
  | val :: vals' => (sum + val)%Z :: running_sums (sum + val) vals'
  end.

(** Every number that [createChartTraces] reads or computes on [d] is
    exact: the counts, the running sums of every category, and the
    difference [b.total - a.total] of any two totals. *)
Definition exact_totals (d : tree) : bool :=
  let cats := members (field "categories" d) in
  forallb (fun e =>
             forallb exact (number_of <$> items (snd e))
             && forallb exact (running_sums 0 (number_of <$> items (snd e))))
    cats
  && forallb (fun a =>
                forallb (fun b => exact (total (snd b) - total (snd a))) cats)
       cats.

(** Every year of [d] is exact. *)
Definition exact_years (d : tree) : bool :=
  forallb exact (number_of <$> items (field "years" d)).

(** [e] is the error with which a load on the response [w] fails.  Of the
    errors that the engine raises, the [SyntaxError] of a body that is not
    JSON and the [TypeError] of the body [null], only the kind is fixed. *)
Definition load_fails (w : App.fetched) (e : exn) : Prop :=
  match w with
  | App.NetworkError e' => e = e'
  | App.Response false status statusText _ =>
      e = Exn KError ("HTTP " +:+ pretty status +:+ ": " +:+ statusText)
  | App.Response true _ _ None => ekind e = KSyntaxError
  | App.Response true _ _ (Some TNull) => ekind e = KTypeError
  | App.Response true _ _ (Some t) => validate t = Some e
  end.


(** No year at all. *)
Definition dataset_no_years : tree :=
  TObj [("years", TArr []); ("categories", TObj [("A", TArr [])])].

(** The year 2020.5 and the count 0.5. *)
Definition dataset_fractions : tree :=
  TObj [("years", TArr [TDec 20205 1]);
        ("categories", TObj [("A", TArr [TDec 5 1])])].

(** The load of a response with the JSON value [t] on a fresh page
    succeeds: it returns the parsed value, which [AppState.data] then holds,
    with no error. *)
Definition loads (t : tree) : Prop :=
  exists v st',
    App.loadTopicData (App.Response true 200 "OK" (Some t)) state_init
    = (Ret v, st')
    /\ v <> VNull
    /\ data (AppState st') = v
    /\ error (AppState st') = None
    /\ reads (heap_of st') v t.

(** * Reading the heap *)

Section Readback.

Lemma sub_refl lk : sub lk lk.
Proof. by intros l c. Qed.

Lemma sub_trans lk1 lk2 lk3 : sub lk1 lk2 -> sub lk2 lk3 -> sub lk1 lk3.
Proof. intros H1 H2 l c H. by apply H2, H1. Qed.

Lemma readback_mono n m lk1 lk2 v t :
  n <= m -> sub lk1 lk2 ->
  readback n lk1 v = Some t -> readback m lk2 v = Some t.
Proof.
  intros Hnm Hsub. revert m v t Hnm.
  induction n as [|n IH]; intros m v t Hnm; destruct v; simpl;
    try done; try (by destruct m).
  destruct m as [|m]; [lia|]. simpl.
  destruct (lk1 l) as [c|] eqn:Hl; [|done].
  rewrite (Hsub _ _ Hl). destruct c as [ps|vs].
  - intros (ms & Hms & ->)%fmap_Some. apply fmap_Some. exists ms. split; [|done].
    apply mapM_Some. apply mapM_Some in Hms.
    eapply Forall2_impl; [exact Hms|]. intros [k x] [k' t'] H. simpl in *.
    apply fmap_Some in H as (t'' & H & ->). apply fmap_Some. exists t''.
    split; [|done]. apply IH; [lia|done].
  - intros (ts & Hts & ->)%fmap_Some. apply fmap_Some. exists ts. split; [|done].
    apply mapM_Some. apply mapM_Some in Hts.
    eapply Forall2_impl; [exact Hts|]. intros x t' H. apply IH; [lia|done].
Qed.

Lemma reads_in_sub lk1 lk2 v t : sub lk1 lk2 -> reads_in lk1 v t -> reads_in lk2 v t.
Proof. intros Hsub [n H]. exists n. by eapply readback_mono. Qed.

(** Finitely many readings share a fuel. *)
Lemma reads_in_Forall2 lk (vs : list val) (ts : list tree) :
  Forall2 (reads_in lk) vs ts ->
  exists n, Forall2 (fun v t => readback n lk v = Some t) vs ts.
Proof.
  induction 1 as [|v t vs ts [n Hn] _ [m IH]].
  - by exists 0.
  - exists (n `max` m). constructor.
    + eapply readback_mono; [|apply sub_refl|exact Hn]. lia.
    + eapply Forall2_impl; [exact IH|]. intros v' t' H.
      eapply readback_mono; [|apply sub_refl|exact H]. lia.
Qed.

Lemma reads_in_arr lk l vs ts :
  lk l = Some (CArr vs) -> Forall2 (reads_in lk) vs ts ->
  reads_in lk (VRef l) (TArr ts).
Proof.
  intros Hl [n H]%reads_in_Forall2. exists (S n). simpl. rewrite Hl.
  apply fmap_Some. exists ts. split; [|done]. by apply mapM_Some.
Qed.

Lemma reads_in_obj lk l (ps : list (string * val)) (ms : list (string * tree)) :
  lk l = Some (CObj ps) ->
  Forall2 (fun p m => fst p = fst m /\ reads_in lk (snd p) (snd m)) ps ms ->
  reads_in lk (VRef l) (TObj ms).
Proof.
  intros Hl H.
  assert (Forall2 (reads_in lk) (snd <$> ps) (snd <$> ms)) as [n Hn]%reads_in_Forall2.
  { apply Forall2_fmap. eapply Forall2_impl; [exact H|]. by intros ?? [_ ?]. }
  exists (S n). simpl. rewrite Hl. apply fmap_Some. exists ms. split; [|done].
  apply mapM_Some. apply Forall2_fmap in Hn.
  clear Hl. induction H as [|[k x] [k' t] ps ms [Hk _] _ IH]; [constructor|].
  simpl in *. subst k'. apply Forall2_cons in Hn as [Hx Hn]. constructor.
  - simpl in *. by rewrite Hx.
  - by apply IH.
Qed.

Lemma reads_in_arr_inv lk l ts :
  reads_in lk (VRef l) (TArr ts) ->
  exists vs, lk l = Some (CArr vs) /\ Forall2 (reads_in lk) vs ts.
Proof.
  intros [[|n] H]; [done|]. simpl in H.
  destruct (lk l) as [[ps|vs]|]; try done.
  - by apply fmap_Some in H as (? & _ & ?).
  - apply fmap_Some in H as (ts' & H & [= ->]). exists vs. split; [done|].
    apply mapM_Some in H. eapply Forall2_impl; [exact H|]. intros v t Hv. by exists n.
Qed.

Lemma reads_in_obj_inv lk l ms :
  reads_in lk (VRef l) (TObj ms) ->
  exists ps, lk l = Some (CObj ps) /\
    Forall2 (fun p m => fst p = fst m /\ reads_in lk (snd p) (snd m)) ps ms.
Proof.
  intros [[|n] H]; [done|]. simpl in H.
  destruct (lk l) as [[ps|vs]|]; try done.
  - apply fmap_Some in H as (ms' & H & [= ->]). exists ps. split; [done|].
    apply mapM_Some in H. eapply Forall2_impl; [exact H|].
    intros [k v] [k' t] Hv. simpl in *.
    apply fmap_Some in Hv as (t' & Hv & [= -> ->]). split; [done|]. by exists n.
  - by apply fmap_Some in H as (? & _ & ?).
Qed.

Lemma reads_in_prim lk v t :
  reads_in lk v t ->
  match t with
  | TUndef => v = VUndef
  | TNull => v = VNull
  | TBool b => v = VBool b
  | TNum n => v = VNum n
  | TDec m e => v = VDec m e
  | TStr s => v = VStr s
  | TNative p => v = VNative p
  | TArr _ | TObj _ => exists l, v = VRef l
  end.
Proof.
  intros [n H]. destruct v; try (by destruct n; injection H as <-).
  destruct t; try (by eexists).
  all: destruct n; [done|]; simpl in H;
    destruct (lk l) as [[?|?]|]; try done;
    by apply fmap_Some in H as (? & _ & ?).
Qed.

End Readback.

(** * Reasoning about runs *)

Section Logic.

Lemma wp_ret {A} (a : A) st Q : Q a st -> wp (mret a) st Q.
Proof. done. Qed.

Lemma wp_bind {A B} (m : M A) (k : A -> M B) st Q :
  wp m st (fun a st' => wp (k a) st' Q) -> wp (m ≫= k) st Q.
Proof.
  unfold wp, mbind, M_bind. by destruct (m st) as [[a|e|] st'].
Qed.

Lemma wp_mono {A} (m : M A) st (Q Q' : A -> state -> Prop) :
  wp m st Q -> (forall a st', Q a st' -> Q' a st') -> wp m st Q'.
Proof.
  unfold wp. destruct (m st) as [[a|e|] st']; [|done..]. intros H HQ. by apply HQ.
Qed.

Lemma wp_fmap {A B} (f : A -> B) (m : M A) st Q :
  wp m st (fun a st' => Q (f a) st') -> wp (f <$> m) st Q.
Proof. intros H. apply wp_bind. eapply wp_mono; [exact H|]. by intros. Qed.

Lemma wp_run {A} (m : M A) st a st' (Q : A -> state -> Prop) :
  m st = (Ret a, st') -> Q a st' -> wp m st Q.
Proof. unfold wp. by intros ->. Qed.

Lemma wp_inv {A} (m : M A) st Q :
  wp m st Q -> exists a st', m st = (Ret a, st') /\ Q a st'.
Proof. unfold wp. destruct (m st) as [[a|e|] st']; [|done..]. by exists a, st'. Qed.

Lemma grows_refl X st : grows X st st.
Proof. by split. Qed.

Lemma grows_trans X st1 st2 st3 :
  grows X st1 st2 -> grows X st2 st3 -> grows X st1 st3.
Proof.
  intros [H1 H2 H3] [H1' H2' H3']. split; [lia| |congruence].
  intros l c Hl HX. apply H2'; [|done]. by apply H2.
Qed.

Lemma grows_weaken X Y st st' : X ⊆ Y -> grows X st st' -> grows Y st st'.
Proof.
  intros HXY [H1 H2 H3]. split; [done| |done].
  intros l c Hl HY. apply H2; [done|]. intros HX. by apply HY, HXY.
Qed.

Lemma grows_nil X st st' : grows [] st st' -> grows X st st'.
Proof. apply grows_weaken. apply list_subseteq_nil. Qed.

Lemma hide_sub X h : sub (hide X h) (lookup_of h).
Proof. intros l c. unfold hide, lookup_of. by case_decide. Qed.

Lemma grows_hide X st st' :
  grows X st st' -> sub (hide X (heap_of st)) (hide X (heap_of st')).
Proof.
  intros [_ H _] l c. unfold hide. case_decide; [done|]. intros Hl. by apply H.
Qed.

Lemma grows_sub st st' :
  grows [] st st' -> sub (lookup_of (heap_of st)) (lookup_of (heap_of st')).
Proof. intros [_ H _] l c Hl. apply H; [done|]. apply not_elem_of_nil. Qed.

Lemma grows_sub_fresh X st st' :
  grows X st st' -> (forall l, l ∈ X -> length (heap_of st) <= l) ->
  sub (lookup_of (heap_of st)) (lookup_of (heap_of st')).
Proof.
  intros [_ H _] HX l c Hl. apply H; [done|]. intros Hin.
  apply HX in Hin. apply lookup_lt_Some in Hl. lia.
Qed.

Lemma sub_hide_fresh X h :
  (forall l, l ∈ X -> length h <= l) -> sub (lookup_of h) (hide X h).
Proof.
  intros HX l c Hl. unfold hide. case_decide as Hin; [|done].
  apply HX in Hin. apply lookup_lt_Some in Hl. lia.
Qed.

(** *** Primitive steps *)

Lemma wp_alloc c st (Q : val -> state -> Prop) :
  (forall st',
     grows [] st st' ->
     heap_of st' !! length (heap_of st) = Some c ->
     length (heap_of st') = S (length (heap_of st)) ->
     Q (VRef (length (heap_of st))) st') ->
  wp (alloc c) st Q.
Proof.
  intros H. unfold wp, alloc, set_heap. apply H.
  - split; cbn [heap_of]; [rewrite length_app; lia| |done].
    intros l c' Hl _. by apply lookup_app_l_Some.
  - cbn [heap_of]. rewrite lookup_app_r by lia. by rewrite Nat.sub_diag.
  - cbn [heap_of]. rewrite length_app. simpl. lia.
Qed.

Lemma wp_store l c st (Q : unit -> state -> Prop) :
  l < length (heap_of st) ->
  (forall st',
     grows [l] st st' ->
     heap_of st' !! l = Some c ->
     length (heap_of st') = length (heap_of st) ->
     Q tt st') ->
  wp (store l c) st Q.
Proof.
  intros Hl H. unfold wp, store, modify, set_heap. apply H; cbn [heap_of].
  - split; cbn [heap_of]; [by rewrite length_insert| |done].
    intros l' c' Hl' Hne. rewrite list_lookup_insert_ne; [done|].
    intros ->. apply Hne. by left.
  - by apply list_lookup_insert_eq.
  - by rewrite length_insert.
Qed.

Lemma wp_deref l c st (Q : cell -> state -> Prop) :
  heap_of st !! l = Some c -> Q c st -> wp (deref l) st Q.
Proof. intros Hl H. unfold wp, deref. by rewrite Hl. Qed.

Lemma wp_if {A} (b : bool) (m1 m2 : M A) st Q :
  (b = true -> wp m1 st Q) -> (b = false -> wp m2 st Q) ->
  wp (if b then m1 else m2) st Q.
Proof. destruct b; auto. Qed.

(** *** Loops *)

Lemma wp_mapM {A B G} (f : A -> M B) (R : state -> state -> Prop)
    (Pre : A -> G -> state -> Prop) (P : G -> B -> state -> Prop)
    (l : list A) (g : list G) st :
  (forall s, R s s) ->
  (forall s1 s2 s3, R s1 s2 -> R s2 s3 -> R s1 s3) ->
  (forall x e s1 s2, Pre x e s1 -> R s1 s2 -> Pre x e s2) ->
  (forall e y s1 s2, P e y s1 -> R s1 s2 -> P e y s2) ->
  (forall x e s1, Pre x e s1 -> R st s1 ->
     wp (f x) s1 (fun y s2 => R s1 s2 /\ P e y s2)) ->
  Forall2 (fun x e => Pre x e st) l g ->
  wp (mapM f l) st (fun ys st' => R st st' /\ Forall2 (fun e y => P e y st') g ys).
Proof.
  intros Hrefl Htrans HPre HP. revert g st.
  induction l as [|x l IH]; intros g st Hf Hlg.
  - apply Forall2_nil_inv_l in Hlg as ->. apply wp_ret. split; [done|constructor].
  - apply Forall2_cons_inv_l in Hlg as (e & g' & Hxe & Hlg & ->).
    cbn [mapM]. apply wp_bind. eapply wp_mono.
    { by apply (Hf x e). }
    intros y s1 [HR HP1]. apply wp_bind. eapply wp_mono.
    { apply (IH g').
      - intros x' e' s2 Hx' HR'. apply Hf; [done|exact (Htrans _ _ _ HR HR')].
      - eapply Forall2_impl; [exact Hlg|]. intros x' e' Hx'. exact (HPre _ _ _ _ Hx' HR). }
    intros ys s2 [HR' HPs]. apply wp_ret.
    split; [exact (Htrans _ _ _ HR HR')|].
    constructor; [exact (HP _ _ _ _ HP1 HR')|done].
Qed.

Lemma wp_foldM {S A} (f : S -> A -> M S) (I : list A -> S -> state -> Prop)
    (l : list A) s st :
  I [] s st ->
  (forall seen x rest s1 st1, I seen s1 st1 -> l = seen ++ x :: rest ->
     wp (f s1 x) st1 (fun s2 st2 => I (seen ++ [x]) s2 st2)) ->
  wp (foldM f s l) st (fun s' st' => I l s' st').
Proof.
  intros HI Hf.
  assert (forall seen rest s st, seen ++ rest = l -> I seen s st ->
            wp (foldM f s rest) st (fun s' st' => I l s' st')) as Hgen.
  { intros seen rest. revert seen.
    induction rest as [|x rest IH]; intros seen s0 st0 Heq H0.
    - apply wp_ret. rewrite app_nil_r in Heq. by subst.
    - cbn [foldM]. apply wp_bind. eapply wp_mono.
      { by eapply Hf. }
      intros s2 st2 H2. apply (IH (seen ++ [x])); [|done].
      by rewrite <- app_assoc. }
  by apply (Hgen [] l).
Qed.

End Logic.

(** * Steps of the language *)

Section Steps.

Lemma inherited_prim k name l : inherited k name <> VRef l.
Proof. unfold inherited. by destruct (find_in_chain _ _). Qed.

Lemma reads_in_prim_tree lk v :
  (forall l, v <> VRef l) -> reads_in lk v (prim_tree v).
Proof. intros H. exists 0. destruct v; try done. by destruct (H l). Qed.

Lemma truthy_reads lk v t : reads_in lk v t -> truthy v = t_truthy t.
Proof.
  intros H. pose proof (reads_in_prim _ _ _ H) as Hv.
  destruct t; try (by subst v); by destruct Hv as [l ->].
Qed.

Lemma assoc_same_keys {A B} (R : A -> B -> Prop) ps ms name :
  Forall2 (same_keys R) ps ms ->
  match assoc name ps, assoc name ms with
  | Some v, Some t => R v t
  | None, None => True
  | _, _ => False
  end.
Proof.
  induction 1 as [|[k v] [k' t] ps ms [Hk HR] _ IH]; [done|].
  simpl in *. subst k'. by destruct (String.eqb name k).
Qed.

Lemma insert_by_index_same_keys {A B} (R : A -> B -> Prop) i p m l k :
  same_keys R p m ->
  Forall2 (fun a b => fst a = fst b /\ same_keys R (snd a) (snd b)) l k ->
  Forall2 (fun a b => fst a = fst b /\ same_keys R (snd a) (snd b))
    (insert_by_index i p l) (insert_by_index i m k).
Proof.
  intros Hpm. induction 1 as [|[j q] [j' n] l k [Hj Hq] Hlk IH]; simpl.
  - constructor; [by split|constructor].
  - simpl in Hj. subst j'. destruct (i <=? j)%nat.
    + constructor; [by split|]. constructor; [by split|done].
    + constructor; [by split|done].
Qed.

Lemma indexed_props_same_keys {A B} (R : A -> B -> Prop) ps ms :
  Forall2 (same_keys R) ps ms ->
  Forall2 (fun a b => fst a = fst b /\ same_keys R (snd a) (snd b))
    (indexed_props ps) (indexed_props ms).
Proof.
  induction 1 as [|p m ps ms Hpm _ IH]; [constructor|].
  unfold indexed_props in *. simpl. destruct Hpm as [Hk HR]. rewrite <- Hk.
  destruct (array_index (fst p)); [|done].
  by apply insert_by_index_same_keys.
Qed.

Lemma own_enumerable_same_keys {A B} (R : A -> B -> Prop) ps ms :
  Forall2 (same_keys R) ps ms ->
  Forall2 (same_keys R) (own_enumerable ps) (own_enumerable ms).
Proof.
  intros H. unfold own_enumerable. apply Forall2_app.
  - apply Forall2_fmap. eapply Forall2_impl.
    + by apply indexed_props_same_keys.
    + by intros ?? [_ ?].
  - induction H as [|p m ps ms Hpm _ IH]; [constructor|].
    rewrite !filter_cons. destruct Hpm as [Hk HR]. rewrite <- Hk.
    destruct (decide (is_index (fst p) = false)); [|done].
    constructor; [done|exact IH].
Qed.

Lemma reads_in_obj_same_keys lk l ms :
  reads_in lk (VRef l) (TObj ms) ->
  exists ps, lk l = Some (CObj ps) /\ Forall2 (same_keys (reads_in lk)) ps ms.
Proof. apply reads_in_obj_inv. Qed.

Lemma wp_get_object lk st v ms name (Q : val -> state -> Prop) :
  sub lk (lookup_of (heap_of st)) ->
  reads_in lk v (TObj ms) ->
  (forall r, reads_in lk r (own_or_inherited ms name) -> Q r st) ->
  wp (get v name) st Q.
Proof.
  intros Hsub Hv HQ.
  destruct (reads_in_prim _ _ _ Hv) as [l ->].
  apply reads_in_obj_same_keys in Hv as (ps & Hl & Hps).
  unfold get. apply wp_bind. eapply wp_deref; [by apply Hsub|].
  apply wp_ret, HQ. unfold own_or_inherited.
  pose proof (assoc_same_keys _ _ _ name Hps) as H.
  destruct (assoc name ps), (assoc name ms); try done.
  apply reads_in_prim_tree. intros l'. apply inherited_prim.
Qed.

Lemma wp_get_own st l ps name v (Q : val -> state -> Prop) :
  heap_of st !! l = Some (CObj ps) -> assoc name ps = Some v ->
  Q v st -> wp (get (VRef l) name) st Q.
Proof.
  intros Hl Hv HQ. unfold get. apply wp_bind. eapply wp_deref; [done|].
  apply wp_ret. by rewrite Hv.
Qed.

Lemma wp_array_receiver st l vs name (Q : loc * list val -> state -> Prop) :
  heap_of st !! l = Some (CArr vs) -> Q (l, vs) st ->
  wp (array_receiver (VRef l) name) st Q.
Proof.
  intros Hl HQ. unfold array_receiver. apply wp_bind.
  eapply wp_deref; [done|]. by apply wp_ret.
Qed.

Lemma wp_destructure_pair st l a b (Q : val * val -> state -> Prop) :
  heap_of st !! l = Some (CArr [a; b]) -> Q (a, b) st ->
  wp (destructure_pair (VRef l)) st Q.
Proof.
  intros Hl HQ. unfold destructure_pair, iterable_elems.
  apply wp_bind, wp_bind. eapply wp_deref; [done|]. by do 2 apply wp_ret.
Qed.

Lemma number_array_vals lk vs ts :
  Forall2 (reads_in lk) vs ts -> forallb is_number ts = true ->
  vs = VNum <$> (number_of <$> ts).
Proof.
  induction 1 as [|v t vs ts Hv _ IH]; [done|]. simpl.
  intros [Ht Hts]%andb_prop. f_equal; [|by apply IH].
  destruct t; try done. by apply reads_in_prim in Hv.
Qed.

Lemma foldM_add vs acc st :
  foldM (fun sum val => js_add sum val) (VNum acc) (VNum <$> vs) st
  = (Ret (VNum (foldl Z.add acc vs)), st).
Proof.
  revert acc. induction vs as [|z zs IH]; intros acc; [done|].
  cbn [fmap list_fmap foldM foldl js_add]. unfold mbind, M_bind. simpl.
  apply IH.
Qed.

Lemma wp_reduce_sum lk st v values (Q : val -> state -> Prop) :
  sub lk (lookup_of (heap_of st)) ->
  reads_in lk v values -> is_number_array values = true ->
  Q (VNum (total values)) st ->
  wp (Array_reduce (fun sum val => js_add sum val) (VNum 0) v) st Q.
Proof.
  intros Hsub Hv Hnum HQ. destruct values as [| | | | | | |ts| ]; try done.
  destruct (reads_in_prim _ _ _ Hv) as [l ->].
  apply reads_in_arr_inv in Hv as (vs & Hl & Hvs).
  rewrite (number_array_vals _ _ _ Hvs Hnum) in Hl.
  unfold Array_reduce. apply wp_bind.
  eapply wp_array_receiver; [by apply Hsub|]. cbn [snd].
  eapply wp_run; [|exact HQ]. apply foldM_add.
Qed.

End Steps.

(** * Enumeration order *)

Section Enumeration.

Context {A : Type}.
Implicit Types ps : list (string * A).

Lemma insert_by_index_perm i (kv : string * A) l :
  insert_by_index i kv l ≡ₚ (i, kv) :: l.
Proof.
  induction l as [|[j kv'] l IH]; [done|]. simpl.
  destruct (i <=? j)%nat; [done|]. rewrite IH. apply Permutation_swap.
Qed.

Lemma indexed_props_perm ps :
  snd <$> indexed_props ps ≡ₚ filter (fun kv => is_index (fst kv) = true) ps.
Proof.
  induction ps as [|kv ps IH]; [done|]. unfold indexed_props in *. simpl.
  rewrite filter_cons.
  destruct (array_index (fst kv)) as [i|] eqn:Hi.
  - rewrite decide_True by (unfold is_index; by rewrite Hi).
    rewrite insert_by_index_perm. simpl. by rewrite IH.
  - by rewrite decide_False by (unfold is_index; by rewrite Hi).
Qed.

(** [Object.entries] lists every property exactly once. *)
Lemma own_enumerable_perm ps : own_enumerable ps ≡ₚ ps.
Proof.
  unfold own_enumerable. rewrite indexed_props_perm.
  induction ps as [|kv ps IH]; [done|]. rewrite !filter_cons.
  destruct (is_index (fst kv)) eqn:Hi.
  - rewrite decide_True by done. rewrite decide_False by done.
    simpl. by rewrite IH.
  - rewrite decide_False by done. rewrite decide_True by done.
    rewrite <- Permutation_middle. by rewrite IH.
Qed.

(** Without array-index names, it lists them in the order of creation. *)
Lemma own_enumerable_plain ps :
  Forall (fun kv => is_index (fst kv) = false) ps -> own_enumerable ps = ps.
Proof.
  intros H. unfold own_enumerable.
  assert (indexed_props ps = []) as ->.
  { induction H as [|kv ps Hkv _ IH]; [done|]. unfold indexed_props in *.
    simpl. rewrite IH. unfold is_index in Hkv.
    by destruct (array_index (fst kv)). }
  simpl. induction H as [|kv ps Hkv _ IH]; [done|].
  rewrite filter_cons, decide_True by done. by rewrite IH.
Qed.

Lemma insert_by_index_sorted i (kv : string * A) l :
  StronglySorted (fun p q => fst p <= fst q) l ->
  StronglySorted (fun p q => fst p <= fst q) (insert_by_index i kv l).
Proof.
  induction l as [|[j kv'] l IH]; simpl.
  - intros _. by repeat constructor.
  - intros [Hj Hl]%StronglySorted_cons. destruct (i <=? j)%nat eqn:Hc.
    + apply Nat.leb_le in Hc. apply StronglySorted_cons. split.
      * constructor; [done|]. eapply Forall_impl; [exact Hj|].
        intros p Hp. simpl in *. lia.
      * by apply StronglySorted_cons.
    + apply Nat.leb_gt in Hc. apply StronglySorted_cons. split; [|by apply IH].
      rewrite insert_by_index_perm. constructor; [simpl; lia|done].
Qed.

Lemma indexed_props_sorted ps :
  StronglySorted (fun p q => fst p <= fst q) (indexed_props ps)
  /\ Forall (fun p => array_index (fst (snd p)) = Some (fst p)) (indexed_props ps).
Proof.
  induction ps as [|kv ps [IH1 IH2]]; [by split; constructor|].
  unfold indexed_props in *. simpl.
  destruct (array_index (fst kv)) as [i|] eqn:Hi; [|done]. split.
  - by apply insert_by_index_sorted.
  - rewrite insert_by_index_perm. by constructor.
Qed.

(** Array-index names come first, in ascending numeric order; the other
    names follow in the order of creation. *)
Lemma own_enumerable_shape ps :
  exists idx,
    own_enumerable ps = idx ++ filter (fun kv => is_index (fst kv) = false) ps
    /\ idx ≡ₚ filter (fun kv => is_index (fst kv) = true) ps
    /\ StronglySorted by_index idx.
Proof.
  exists (snd <$> indexed_props ps). split; [done|].
  split; [apply indexed_props_perm|].
  destruct (indexed_props_sorted ps) as [Hs Hi].
  induction Hs as [|p l Hl IH Hp]; [constructor|].
  apply Forall_cons in Hi as [Hpi Hi]. simpl. constructor; [by apply IH|].
  apply Forall_fmap. rewrite Forall_forall in Hp, Hi. apply Forall_forall.
  intros q Hq. exists (fst p), (fst q). split; [done|].
  split; [by apply Hi|by apply Hp].
Qed.

End Enumeration.

(** * The phases of [createChartTraces] *)

Section Phases.

Lemma grows_fresh X st st' :
  grows X st st' -> (forall l, l ∈ X -> length (heap_of st) <= l) ->
  grows [] st st'.
Proof.
  intros [H1 H2 H3] HX. split; [done| |done]. intros l c Hl _.
  apply H2; [done|]. intros Hin%HX. apply lookup_lt_Some in Hl. lia.
Qed.

Lemma wp_Object_entries lk st v cs (Q : val -> state -> Prop) :
  sub lk (lookup_of (heap_of st)) ->
  reads_in lk v (TObj cs) ->
  (forall st' lE pairs,
     grows [] st st' ->
     heap_of st' !! lE = Some (CArr pairs) ->
     Forall2 (pair_at lk (heap_of st')) pairs (own_enumerable cs) ->
     Q (VRef lE) st') ->
  wp (Object_entries v) st Q.
Proof.
  intros Hsub Hv HQ.
  destruct (reads_in_prim _ _ _ Hv) as [l ->].
  apply reads_in_obj_same_keys in Hv as (ps & Hl & Hps).
  apply own_enumerable_same_keys in Hps.
  unfold Object_entries, own_entries.
  apply wp_bind, wp_bind. eapply wp_deref; [by apply Hsub|].
  apply wp_ret, wp_bind.
  eapply wp_mono.
  { apply (wp_mapM _ (grows [])
             (fun kv e _ => same_keys (reads_in lk) kv e)
             (fun e pr s => pair_at lk (heap_of s) pr e)
             _ (own_enumerable cs)).
    - apply grows_refl.
    - apply grows_trans.
    - done.
    - intros e pr s1 s2 (p & x & -> & Hp & Hx) Hg. exists p, x.
      split; [done|]. split; [|done].
      eapply grows_cells; [exact Hg|exact Hp|apply not_elem_of_nil].
    - intros [k x] [k' t] s1 [Hk Hx] _. simpl in *. subst k'.
      apply wp_alloc. intros s2 Hg Hp _. split; [done|].
      by exists (length (heap_of s1)), x.
    - exact Hps. }
  intros pairs s1 [Hg Hpairs]. apply wp_alloc. intros s2 Hg2 HlE _.
  apply (HQ _ _ pairs); [by eapply grows_trans|done|].
  apply Forall2_flip. eapply Forall2_impl; [exact Hpairs|].
  intros e pr (p & x & -> & Hp & Hx). exists p, x.
  split; [done|]. split; [|done].
  eapply grows_cells; [exact Hg2|exact Hp|apply not_elem_of_nil].
Qed.

Lemma item_at_grows lk X st st' lo hi hi' it e :
  grows X st st' -> hi <= hi' -> (forall l, l ∈ X -> lo <= l < hi -> False) ->
  item_at lk (heap_of st) lo hi it e -> item_at lk (heap_of st') lo hi' it e.
Proof.
  intros Hg Hhi HX (p & x & -> & Hp & Hc & Hx). exists p, x.
  split; [done|]. split; [lia|]. split; [|done].
  eapply grows_cells; [exact Hg|exact Hc|]. intros Hin. by eapply HX.
Qed.

Lemma wp_with_total lk st pr e (Q : val -> state -> Prop) :
  sub lk (lookup_of (heap_of st)) ->
  pair_at lk (heap_of st) pr e ->
  is_number_array (snd e) = true ->
  (forall st' it,
     grows [] st st' ->
     item_at lk (heap_of st') (length (heap_of st)) (length (heap_of st')) it e ->
     Q it st') ->
  wp (App.with_total pr) st Q.
Proof.
  intros Hsub (p & x & -> & Hp & Hx) Hnum HQ. unfold App.with_total.
  apply wp_bind. eapply wp_destructure_pair; [exact Hp|]. cbn [fst snd].
  apply wp_bind. eapply wp_reduce_sum; [exact Hsub|exact Hx|exact Hnum|].
  apply wp_alloc. intros st' Hg Hc Hlen. apply HQ; [done|].
  exists (length (heap_of st)), x. split; [done|]. split; [lia|]. by split.
Qed.

Lemma wp_category_totals lk st lE pairs es (Q : val -> state -> Prop) :
  sub lk (lookup_of (heap_of st)) ->
  heap_of st !! lE = Some (CArr pairs) ->
  Forall2 (pair_at lk (heap_of st)) pairs es ->
  Forall (fun e => is_number_array (snd e) = true) es ->
  (forall st' lA its,
     grows [] st st' ->
     length (heap_of st) <= lA ->
     length (heap_of st') = S lA ->
     heap_of st' !! lA = Some (CArr its) ->
     Forall2 (item_at lk (heap_of st') (length (heap_of st)) lA) its es ->
     Q (VRef lA) st') ->
  wp (Array_map App.with_total (VRef lE)) st Q.
Proof.
  intros Hsub HlE Hpairs Hnum HQ. unfold Array_map.
  apply wp_bind. eapply wp_array_receiver; [exact HlE|]. cbn [snd].
  apply wp_bind. eapply wp_mono.
  { apply (wp_mapM _ (grows [])
             (fun pr e s => pair_at lk (heap_of s) pr e
                            /\ is_number_array (snd e) = true)
             (fun e it s => item_at lk (heap_of s) (length (heap_of st))
                              (length (heap_of s)) it e)
             _ es).
    - apply grows_refl.
    - apply grows_trans.
    - intros pr e s1 s2 [(p & x & -> & Hp & Hx) Hn] Hg. split; [|done].
      exists p, x. split; [done|]. split; [|done].
      eapply grows_cells; [exact Hg|exact Hp|apply not_elem_of_nil].
    - intros e it s1 s2 Hit Hg. eapply item_at_grows; [exact Hg| |..|exact Hit].
      + apply Hg.
      + by intros l ?%not_elem_of_nil.
    - intros pr e s1 [Hpr Hn] Hg.
      eapply wp_with_total; [|exact Hpr|exact Hn|].
      + eapply sub_trans; [exact Hsub|by apply grows_sub].
      + intros s2 it Hg2 Hit. split; [done|].
        destruct Hit as (p & x & -> & Hp & Hc & Hx). exists p, x.
        split; [done|]. split; [|done]. destruct Hg as [Hlen _ _]. lia.
    - apply Forall2_same_length_lookup. split.
      { by eapply Forall2_length. }
      intros i pr e Hi He. split.
      + by eapply Forall2_lookup_lr.
      + eapply Forall_lookup_1 in Hnum; [exact Hnum|exact He]. }
  intros its s1 [Hg Hits]. apply wp_alloc. intros s2 Hg2 Hc Hlen.
  apply (HQ _ _ its); [by eapply grows_trans|apply Hg|done|done|].
  apply Forall2_flip. eapply Forall2_impl; [exact Hits|].
  intros e it Hit. eapply item_at_grows; [exact Hg2|done| |exact Hit].
  by intros l ?%not_elem_of_nil.
Qed.

Lemma get_own_run st l ps name v :
  heap_of st !! l = Some (CObj ps) -> assoc name ps = Some v ->
  get (VRef l) name st = (Ret v, st).
Proof.
  intros Hl Hv. unfold get, deref, mbind, M_bind. rewrite Hl. cbn.
  by rewrite Hv.
Qed.

Lemma by_total_desc_run lk st lo hi a b ea eb :
  item_at lk (heap_of st) lo hi a ea -> item_at lk (heap_of st) lo hi b eb ->
  App.by_total_desc a b st
  = (Ret (VNum (total (snd eb) - total (snd ea))), st).
Proof.
  intros (pa & xa & -> & _ & Ha & _) (pb & xb & -> & _ & Hb & _).
  unfold App.by_total_desc, mbind, M_bind.
  rewrite (get_own_run _ _ _ "total" _ Hb eq_refl).
  by rewrite (get_own_run _ _ _ "total" _ Ha eq_refl).
Qed.

Lemma insertM_run lk st lo hi x e l es :
  item_at lk (heap_of st) lo hi x e ->
  Forall2 (item_at lk (heap_of st) lo hi) l es ->
  exists r, insertM App.by_total_desc x l st = (Ret r, st)
    /\ Forall2 (item_at lk (heap_of st) lo hi) r
         (insert_desc (fun e => total (snd e)) e es).
Proof.
  intros Hx. induction 1 as [|y e' l es Hy Hl (r & Hr & IH)].
  - exists [x]. split; [done|]. by repeat constructor.
  - cbn [insertM insert_desc]. unfold mbind at 1, M_bind at 1.
    rewrite (by_total_desc_run _ _ _ _ _ _ _ _ Hx Hy).
    unfold mbind at 1, M_bind at 1. cbn [positive_number mret M_ret].
    destruct (0 <? total (snd e') - total (snd e))%Z.
    + exists (y :: r). unfold mbind, M_bind. rewrite Hr. split; [done|].
      by constructor.
    + exists (x :: y :: l). split; [done|]. by repeat constructor.
Qed.

Lemma sortM_run lk st lo hi l es :
  Forall2 (item_at lk (heap_of st) lo hi) l es ->
  exists r, sortM App.by_total_desc l st = (Ret r, st)
    /\ Forall2 (item_at lk (heap_of st) lo hi) r
         (sort_desc (fun e => total (snd e)) es).
Proof.
  induction 1 as [|x e l es Hx Hl (s & Hs & IH)].
  - exists []. split; [done|constructor].
  - destruct (insertM_run _ _ _ _ _ _ _ _ Hx IH) as (r & Hr & Hres).
    exists r. split; [|done]. cbn [sortM]. unfold mbind, M_bind. by rewrite Hs.
Qed.

Lemma wp_sort_by_total lk st lA its es lo (Q : val -> state -> Prop) :
  heap_of st !! lA = Some (CArr its) ->
  Forall2 (item_at lk (heap_of st) lo lA) its es ->
  (forall st' sorted,
     grows [lA] st st' ->
     length (heap_of st') = length (heap_of st) ->
     heap_of st' !! lA = Some (CArr sorted) ->
     Forall2 (item_at lk (heap_of st') lo lA) sorted
       (sort_desc (fun e => total (snd e)) es) ->
     Q (VRef lA) st') ->
  wp (Array_sort App.by_total_desc (VRef lA)) st Q.
Proof.
  intros HlA Hits HQ. unfold Array_sort.
  apply wp_bind. eapply wp_array_receiver; [exact HlA|]. cbn [fst snd].
  destruct (sortM_run _ _ _ _ _ _ Hits) as (sorted & Hrun & Hsorted).
  apply wp_bind. eapply wp_run; [exact Hrun|].
  apply wp_bind. apply wp_store; [by eapply lookup_lt_Some|].
  intros st' Hg Hc Hlen. apply wp_ret. apply (HQ _ sorted); try done.
  eapply Forall2_impl; [exact Hsorted|]. intros it e Hit.
  eapply item_at_grows; [exact Hg|done| |exact Hit].
  intros l ->%list_elem_of_singleton. lia.
Qed.

Lemma is_dataset_inv d :
  is_dataset d = true ->
  exists ms cs,
    d = TObj ms /\ assoc "categories" ms = Some (TObj cs)
    /\ is_number_array (field "years" d) = true
    /\ Forall (fun e => is_number_array (snd e) = true) cs
    /\ (t_truthy (field "markers" d) = true ->
        exists mk, field "markers" d = TObj mk).
Proof.
  destruct d as [| | | | | | | |ms]; try done. unfold is_dataset, field. cbn [members].
  destruct (assoc "years" ms) as [years|]; [|done].
  destruct (assoc "categories" ms) as [[| | | | | | | |cs]|] eqn:Hcat; try done.
  intros [[Hy Hc]%andb_prop Hm]%andb_prop. exists ms, cs.
  split; [done|]. split; [done|]. split; [done|]. split.
  - apply Forall_forall. intros e He. rewrite forallb_forall in Hc.
    apply Hc. by apply list_elem_of_In.
  - destruct (assoc "markers" ms) as [[| | | | | | | |mk]|]; simpl in *;
      try done; try (by intros ->); try (by eexists).
    all: intros Ht; by rewrite Ht in Hm.
Qed.

Lemma own_or_inherited_field ms name :
  inherited KObject name = VUndef ->
  own_or_inherited ms name = field name (TObj ms).
Proof. intros H. unfold own_or_inherited, field. by rewrite H. Qed.

Lemma color_at_prim i l : App.color_at i <> VRef l.
Proof. unfold App.color_at. by destruct (_ !! _). Qed.

Lemma wp_new_trace lk X st x y name color symbol tx ty tname tcolor tsymbol
    (Q : val -> state -> Prop) :
  (forall l, l ∈ X -> l < length (heap_of st)) ->
  sub lk (hide X (heap_of st)) ->
  reads_in lk x tx -> reads_in lk y ty -> reads_in lk name tname ->
  reads_in lk color tcolor -> reads_in lk symbol tsymbol ->
  (forall st' p,
     grows [] st st' ->
     reads_in (hide X (heap_of st')) (VRef p)
       (TObj
          [("x", tx); ("y", ty); ("mode", TStr "lines+markers");
           ("name", tname); ("type", TStr "scatter");
           ("line", TObj [("width", TNum 3); ("color", tcolor);
                          ("shape", TStr "linear")]);
           ("marker", TObj [("size", TNum 10); ("color", tcolor);
                            ("symbol", tsymbol);
                            ("line", TObj [("width", TNum 2);
                                           ("color", TStr "#ffffff")])]);
           ("hovertemplate",
            TStr "<b>%{fullData.name}</b><br>Year: %{x}<br>Topics: %{y}<br><extra></extra>");
           ("connectgaps", TBool false)]) ->
     Q (VRef p) st') ->
  wp (App.new_trace x y name color symbol) st Q.
Proof.
  intros HX Hsub Hx Hy Hname Hcolor Hsymbol HQ. unfold App.new_trace, new_object.
  apply wp_bind, wp_alloc. intros s1 Hg1 Hc1 Hlen1.
  apply wp_bind, wp_alloc. intros s2 Hg2 Hc2 Hlen2.
  apply wp_bind, wp_alloc. intros s3 Hg3 Hc3 Hlen3.
  apply wp_alloc. intros s4 Hg4 Hc4 Hlen4.
  set (lk4 := hide X (heap_of s4)).
  assert (grows [] st s4) as Hg.
  { eapply grows_trans; [exact Hg1|]. eapply grows_trans; [exact Hg2|].
    eapply grows_trans; [exact Hg3|exact Hg4]. }
  assert (sub lk lk4) as Hsub4.
  { eapply sub_trans; [exact Hsub|]. apply grows_hide. by apply grows_nil. }
  assert (forall p c, length (heap_of st) <= p -> heap_of s4 !! p = Some c ->
            lk4 p = Some c) as Hfresh.
  { intros p c Hp Hc. unfold lk4, hide. case_decide as Hin; [|done].
    apply HX in Hin. lia. }
  assert (forall s s' l c, grows [] s s' -> heap_of s !! l = Some c ->
            heap_of s' !! l = Some c) as Hkeep.
  { intros s s' l c Hgs Hl. eapply grows_cells; [exact Hgs|exact Hl|].
    apply not_elem_of_nil. }
  apply (HQ _ (length (heap_of s3))); [exact Hg|].
  assert (forall v t, reads_in lk v t -> reads_in lk4 v t) as Hup.
  { intros v t. by apply reads_in_sub. }
  assert (reads_in lk4 (VRef (length (heap_of st)))
            (TObj [("width", TNum 3); ("color", tcolor);
                   ("shape", TStr "linear")])) as Hline.
  { eapply reads_in_obj.
    - apply Hfresh; [lia|]. eauto.
    - repeat constructor; try done; try (by exists 0). by apply Hup. }
  assert (reads_in lk4 (VRef (length (heap_of s1)))
            (TObj [("width", TNum 2); ("color", TStr "#ffffff")])) as Hml.
  { eapply reads_in_obj.
    - apply Hfresh; [lia|]. eauto.
    - repeat constructor; try done; by exists 0. }
  assert (reads_in lk4 (VRef (length (heap_of s2)))
            (TObj [("size", TNum 10); ("color", tcolor); ("symbol", tsymbol);
                   ("line", TObj [("width", TNum 2);
                                  ("color", TStr "#ffffff")])])) as Hmarker.
  { eapply reads_in_obj.
    - apply Hfresh; [lia|]. eauto.
    - repeat constructor; try done; try (by exists 0); by apply Hup. }
  eapply reads_in_obj.
  - apply Hfresh; [lia|]. exact Hc4.
  - repeat constructor; try done; try (by exists 0); by apply Hup.
Qed.

End Phases.

(** * [createChartTraces] computes [traces_of] *)

Section Traces.

Variables (st0 : state) (data : val) (d : tree).
Hypothesis Hdata : reads_in (lookup_of (heap_of st0)) data d.
Hypothesis Hd : is_dataset d = true.

Lemma wp_get_field st name (Q : val -> state -> Prop) :
  sub (lookup_of (heap_of st0)) (lookup_of (heap_of st)) ->
  inherited KObject name = VUndef ->
  (forall r, reads_in (lookup_of (heap_of st0)) r (field name d) -> Q r st) ->
  wp (get data name) st Q.
Proof using Hdata Hd.
  intros Hsub Hname HQ.
  destruct (is_dataset_inv _ Hd) as (ms & cs & -> & _).
  eapply wp_get_object; [exact Hsub|exact Hdata|].
  intros r Hr. apply HQ. by rewrite <- own_or_inherited_field.
Qed.

Lemma wp_symbol {A} st name (k : val -> M A) (Q : A -> state -> Prop) :
  sub (lookup_of (heap_of st0)) (lookup_of (heap_of st)) ->
  (forall symbol,
     reads_in (lookup_of (heap_of st0)) symbol (symbol_of d name) ->
     wp (k symbol) st Q) ->
  wp (markers ← get data "markers";
      found ← (if truthy markers then get_v markers (VStr name)
               else mret markers);
      symbol ← (if truthy found
                then (m ← get data "markers"; get_v m (VStr name))
                else mret (VStr "circle"));
      k symbol) st Q.
Proof using Hdata Hd.
  intros Hsub Hk.
  destruct (is_dataset_inv _ Hd) as (ms & cs & Heq & _ & _ & _ & Hmk).
  apply wp_bind. apply wp_get_field; [done..|]. intros markers Hm.
  rewrite (truthy_reads _ _ _ Hm).
  destruct (t_truthy (field "markers" d)) eqn:Ht.
  - destruct (Hmk eq_refl) as [mk Hmk']. rewrite Hmk' in Hm.
    apply wp_bind. cbn [get_v].
    eapply wp_get_object; [exact Hsub|exact Hm|]. intros found Hfound.
    rewrite (truthy_reads _ _ _ Hfound).
    destruct (t_truthy (own_or_inherited mk name)) eqn:Hs.
    + apply wp_bind, wp_bind. apply wp_get_field; [done..|]. intros m Hm'.
      rewrite Hmk' in Hm'. cbn [get_v].
      eapply wp_get_object; [exact Hsub|exact Hm'|]. intros symbol Hsymbol.
      apply Hk. unfold symbol_of. rewrite Ht, Hmk'. cbn [members].
      by rewrite Hs.
    + apply wp_bind, wp_ret. apply Hk. unfold symbol_of.
      rewrite Ht, Hmk'. cbn [members]. rewrite Hs. by exists 0.
  - apply wp_bind, wp_ret. rewrite (truthy_reads _ _ _ Hm), Ht.
    apply wp_bind, wp_ret. apply Hk. unfold symbol_of. rewrite Ht. by exists 0.
Qed.

Lemma wp_push_trace X st lt trs item e i lo hi (Q : Z -> state -> Prop) :
  lt ∈ X ->
  (forall l, l ∈ X -> l < length (heap_of st)) ->
  sub (lookup_of (heap_of st0)) (hide X (heap_of st)) ->
  heap_of st !! lt = Some (CArr trs) ->
  item_at (lookup_of (heap_of st0)) (heap_of st) lo hi item e ->
  (forall st' tr,
     grows [lt] st st' ->
     heap_of st' !! lt = Some (CArr (trs ++ [tr])) ->
     reads_in (hide X (heap_of st')) tr (trace_tree d i e) ->
     Q (Z.of_nat i + 1)%Z st') ->
  wp (App.push_trace data (VRef lt) (Z.of_nat i) item) st Q.
Proof using Hdata Hd.
  intros Hlt HX Hsub Htrs (p & x & -> & _ & Hp & Hx) HQ.
  assert (sub (lookup_of (heap_of st0)) (lookup_of (heap_of st))) as Hsub'.
  { eapply sub_trans; [exact Hsub|apply hide_sub]. }
  unfold App.push_trace.
  apply wp_bind. eapply wp_get_own; [exact Hp|done|].
  apply wp_bind. eapply wp_get_own; [exact Hp|done|].
  apply wp_symbol; [exact Hsub'|]. intros symbol Hsymbol.
  apply wp_bind. apply wp_get_field; [done..|]. intros years Hyears.
  apply wp_bind.
  eapply (wp_new_trace _ X); [exact HX|exact Hsub|exact Hyears|exact Hx| | |
                              exact Hsymbol|].
  { by exists 0. }
  { apply reads_in_prim_tree. intros l. apply color_at_prim. }
  intros st1 q Hg1 Hq.
  apply wp_bind. unfold Array_push. apply wp_bind.
  eapply wp_array_receiver.
  { eapply grows_cells; [exact Hg1|exact Htrs|apply not_elem_of_nil]. }
  cbn [fst snd]. apply wp_bind, wp_store.
  { destruct Hg1 as [Hlen _ _]. apply lookup_lt_Some in Htrs. lia. }
  intros st2 Hg2 Hc2 Hlen2. do 2 apply wp_ret.
  apply (HQ _ (VRef q)); [|exact Hc2|].
  - eapply grows_trans; [|exact Hg2]. by apply grows_nil.
  - eapply reads_in_sub; [|exact Hq]. apply grows_hide.
    eapply grows_weaken; [|exact Hg2].
    by intros l ->%list_elem_of_singleton.
Qed.

Lemma createChartTraces_spec :
  wp (App.createChartTraces data) st0 (fun r st' =>
    grows [] st0 st'
    /\ reads_in (lookup_of (heap_of st')) r (TArr (traces_of d))).
Proof using Hdata Hd.
  destruct (is_dataset_inv _ Hd) as (ms & cs & Heq & Hcs & _ & Hnum & _).
  unfold App.createChartTraces, new_array.
  apply wp_bind, wp_alloc. intros s1 Hg1 Hc1 Hlen1.
  set (lt := length (heap_of st0)) in *.
  apply wp_bind. apply wp_get_field; [by apply grows_sub|done|].
  intros categories Hcats.
  assert (field "categories" d = TObj cs) as Hfield.
  { subst d. unfold field. cbn [members]. by rewrite Hcs. }
  rewrite Hfield in Hcats.
  apply wp_bind.
  eapply wp_Object_entries; [by apply grows_sub|exact Hcats|].
  intros s2 lE pairs Hg2 HlE Hpairs.
  assert (grows [] st0 s2) as Hg02 by (by eapply grows_trans).
  apply wp_bind.
  eapply wp_category_totals;
    [by apply grows_sub|exact HlE|exact Hpairs| |].
  { by rewrite own_enumerable_perm. }
  intros s3 lA its Hg3 HlA Hlen3 Hits Hitems.
  assert (grows [] st0 s3) as Hg03 by (by eapply grows_trans).
  apply wp_bind.
  eapply wp_sort_by_total; [exact Hits|exact Hitems|].
  intros s4 sorted Hg4 Hlen4 Hsorted Hsitems.
  assert (sort_desc (fun e => total (snd e)) (own_enumerable cs)
          = sorted_categories d) as Hsc.
  { unfold sorted_categories, categories_of. by rewrite Hfield. }
  rewrite Hsc in Hsitems.
  set (X := [lt; lA]).
  assert (lt < length (heap_of s2)) as Hlt2.
  { destruct Hg2 as [? _ _]. lia. }
  assert (grows X st0 s4) as Hg04.
  { eapply grows_trans; [by apply grows_nil|].
    eapply grows_weaken; [|exact Hg4].
    intros l ->%list_elem_of_singleton. unfold X. right. by left. }
  assert (forall l, l ∈ X -> l = lt \/ l = lA) as HXcases.
  { intros l [->|[->|?%not_elem_of_nil]%elem_of_cons]%elem_of_cons; auto.
    done. }
  assert (forall l, l ∈ X -> lt <= l) as HXfresh.
  { intros l [-> | ->]%HXcases; lia. }
  assert (heap_of s4 !! lt = Some (CArr [])) as Hlt4.
  { eapply grows_cells; [exact Hg4| |intros ->%list_elem_of_singleton; lia].
    eapply grows_cells; [exact Hg3| |apply not_elem_of_nil].
    eapply grows_cells; [exact Hg2|exact Hc1|apply not_elem_of_nil]. }
  apply wp_bind. unfold Array_forEach. apply wp_bind.
  eapply wp_array_receiver; [exact Hsorted|]. cbn [snd].
  eapply wp_mono.
  { apply (wp_foldM _ (fun seen c st =>
        c = Z.of_nat (length seen)
        /\ grows X s4 st
        /\ exists trs, heap_of st !! lt = Some (CArr trs)
             /\ Forall2 (reads_in (hide X (heap_of st))) trs
                  (imap (trace_tree d)
                     (take (length seen) (sorted_categories d))))).
    - split; [done|]. split; [apply grows_refl|]. exists []. split; [done|].
      constructor.
    - intros seen x rest c st (-> & Hg & trs & Htrs & Hreads) Hl.
      assert (sorted !! length seen = Some x) as Hx.
      { rewrite Hl. by rewrite list_lookup_middle. }
      destruct (Forall2_lookup_l _ _ _ _ _ Hsitems Hx) as (e & He & Hitem).
      eapply wp_push_trace; [| | |exact Htrs| |].
      + unfold X. by left.
      + intros l Hin. destruct Hg as [Hlen _ _].
        apply lookup_lt_Some in Hits.
        destruct (HXcases _ Hin) as [-> | ->]; lia.
      + eapply sub_trans; [apply (sub_hide_fresh X); exact HXfresh|].
        apply grows_hide. by eapply grows_trans.
      + apply (item_at_grows _ X s4 st _ lA lA _ _ Hg); [done| |exact Hitem].
        intros l Hin Hl'. destruct (HXcases _ Hin) as [-> | ->]; lia.
      + intros st' tr Hg' Hc' Htr.
        assert (grows X st st') as HgX.
        { eapply grows_weaken; [|exact Hg'].
          intros l ->%list_elem_of_singleton. unfold X. by left. }
        split; [rewrite length_app; simpl; lia|].
        split; [by eapply grows_trans|].
        exists (trs ++ [tr]). split; [done|].
        rewrite length_app. simpl. rewrite Nat.add_1_r.
        rewrite (take_S_r _ _ _ He), imap_app. apply Forall2_app.
        * eapply Forall2_impl; [exact Hreads|]. intros v t.
          apply reads_in_sub. by apply grows_hide.
        * constructor; [|constructor]. simpl.
          rewrite length_take_le, Nat.add_0_r; [done|].
          apply lookup_lt_Some in He. lia. }
  intros c st (_ & Hg & trs & Htrs & Hreads). apply wp_ret. split.
  - apply (grows_fresh X); [by eapply grows_trans|exact HXfresh].
  - rewrite firstn_all2 in Hreads.
    2:{ by rewrite (Forall2_length _ _ _ Hsitems). }
    eapply reads_in_arr; [exact Htrs|].
    eapply Forall2_impl; [exact Hreads|]. intros v t.
    apply reads_in_sub, hide_sub.
Qed.

End Traces.

(** * The stable descending sort *)

Section Sorting.

Context {A : Type} (key : A -> Z).

Lemma insert_desc_perm x l : insert_desc key x l ≡ₚ x :: l.
Proof.
  induction l as [|y l IH]; [done|]. simpl.
  destruct (0 <? key y - key x)%Z; [|done]. rewrite IH. apply Permutation_swap.
Qed.

Lemma sort_desc_perm l : sort_desc key l ≡ₚ l.
Proof.
  induction l as [|x l IH]; [done|]. simpl. by rewrite insert_desc_perm, IH.
Qed.

Lemma insert_desc_sorted x l :
  StronglySorted (fun a b => (key b <= key a)%Z) l ->
  StronglySorted (fun a b => (key b <= key a)%Z) (insert_desc key x l).
Proof.
  induction l as [|y l IH]; simpl.
  - intros _. by repeat constructor.
  - intros [Hy Hl]%StronglySorted_cons.
    destruct (0 <? key y - key x)%Z eqn:Hc.
    + apply Z.ltb_lt in Hc. apply StronglySorted_cons. split; [|by apply IH].
      rewrite insert_desc_perm. constructor; [lia|done].
    + apply Z.ltb_ge in Hc. apply StronglySorted_cons. split.
      * constructor; [lia|]. eapply Forall_impl; [exact Hy|].
        intros z Hz. simpl in Hz. lia.
      * by apply StronglySorted_cons.
Qed.

Lemma sort_desc_sorted l :
  StronglySorted (fun a b => (key b <= key a)%Z) (sort_desc key l).
Proof.
  induction l as [|x l IH]; simpl; [constructor|]. by apply insert_desc_sorted.
Qed.

(** Stability: elements of equal key keep their order. *)
Lemma insert_desc_filter k x l :
  filter (fun a => key a = k) (insert_desc key x l)
  = filter (fun a => key a = k) (x :: l).
Proof.
  induction l as [|y l IH]; [done|]. simpl.
  destruct (0 <? key y - key x)%Z eqn:Hc; [|done].
  apply Z.ltb_lt in Hc. rewrite filter_cons, IH, !filter_cons.
  destruct (decide (key y = k)), (decide (key x = k)); try done. lia.
Qed.

Lemma sort_desc_stable k l :
  filter (fun a => key a = k) (sort_desc key l) = filter (fun a => key a = k) l.
Proof.
  induction l as [|x l IH]; [done|]. simpl.
  by rewrite insert_desc_filter, !filter_cons, IH.
Qed.

End Sorting.

(** * The series *)

Section Series.

Lemma createChartTraces_run st data d n :
  readback n (lookup_of (heap_of st)) data = Some d ->
  is_dataset d = true ->
  exists r st',
    App.createChartTraces data st = (Ret r, st')
    /\ grows [] st st'
    /\ reads (heap_of st') r (TArr (traces_of d)).
Proof.
  intros Hdata Hd.
  assert (reads_in (lookup_of (heap_of st)) data d) as Hreads by (by exists n).
  destruct (wp_inv _ _ _ (createChartTraces_spec st data d Hreads Hd))
    as (r & st' & Hrun & Hg & Hr).
  by exists r, st'.
Qed.

Lemma field_imap_trace_tree name d (g : string * tree -> tree) l :
  (forall i e, field name (trace_tree d i e) = g e) ->
  field name <$> imap (trace_tree d) l = g <$> l.
Proof.
  intros Hg. rewrite fmap_imap, <- imap_const. apply imap_ext.
  intros i e _. apply Hg.
Qed.

(** C1 (amended).  On every dataset whose counts, running sums and
    differences of totals are exact, [createChartTraces] returns one trace
    per category: the categories sorted by descending total, categories of
    equal total staying in the order in which [Object.entries] lists them.
    That order is the insertion order, except that names that are array
    indices come first, in ascending numeric order. *)
Theorem createChartTraces_order st data d n :
  readback n (lookup_of (heap_of st)) data = Some d ->
  is_dataset d = true ->
  exact_totals d = true ->
  exists r st' ts,
    App.createChartTraces data st = (Ret r, st')
    /\ reads (heap_of st') r (TArr ts)
    /\ field "name" <$> ts = (fun e => TStr (fst e)) <$> sorted_categories d
    /\ field "y" <$> ts = snd <$> sorted_categories d
    /\ sorted_categories d ≡ₚ members (field "categories" d)
    /\ StronglySorted (fun a b => (total (snd b) <= total (snd a))%Z)
         (sorted_categories d)
    /\ (forall k,
          filter (fun e => total (snd e) = k) (sorted_categories d)
          = filter (fun e => total (snd e) = k) (categories_of d))
    /\ (exists idx,
          categories_of d
          = idx ++ filter (fun e => is_index (fst e) = false)
                     (members (field "categories" d))
          /\ idx ≡ₚ filter (fun e => is_index (fst e) = true)
                      (members (field "categories" d))
          /\ StronglySorted by_index idx).
Proof.
  intros Hdata Hd _.
  destruct (createChartTraces_run _ _ _ _ Hdata Hd) as (r & st' & Hrun & _ & Hr).
  exists r, st', (traces_of d). split; [done|]. split; [done|].
  split; [by apply field_imap_trace_tree|].
  split; [by apply field_imap_trace_tree|].
  unfold sorted_categories, categories_of.
  split; [by rewrite sort_desc_perm, own_enumerable_perm|].
  split; [apply sort_desc_sorted|].
  split; [intros k; apply sort_desc_stable|].
  apply own_enumerable_shape.
Qed.

Lemma createChartTraces_order_witness :
  readback 3 (lookup_of (heap_of (snd (parsed dataset_ties))))
    (fst (parsed dataset_ties)) = Some dataset_ties
  /\ is_dataset dataset_ties = true
  /\ exact_totals dataset_ties = true
  /\ exists r st' ts,
       App.createChartTraces (fst (parsed dataset_ties))
         (snd (parsed dataset_ties)) = (Ret r, st')
       /\ reads (heap_of st') r (TArr ts)
       /\ field "name" <$> ts = [TStr "B"; TStr "C"; TStr "A"].
Proof.
  split; [reflexivity|]. split; [reflexivity|]. split; [reflexivity|].
  destruct (createChartTraces_order (snd (parsed dataset_ties))
              (fst (parsed dataset_ties)) dataset_ties 3 eq_refl eq_refl
              eq_refl)
    as (r & st' & ts & Hrun & Hr & Hnames & _).
  exists r, st', ts. split; [exact Hrun|]. split; [exact Hr|]. exact Hnames.
Defined.

(** C1 as stated fails: with ["10"] inserted before ["9"] and equal totals,
    the traces come out as 9, 10, while a stable sort of the insertion order
    gives 10, 9. *)
Lemma createChartTraces_insertion_order_fails :
  valid_dataset dataset_index_names = true
  /\ exact_totals dataset_index_names = true
  /\ exists r st' ts,
       App.createChartTraces (fst (parsed dataset_index_names))
         (snd (parsed dataset_index_names)) = (Ret r, st')
       /\ readback 4 (lookup_of (heap_of st')) r = Some (TArr ts)
       /\ field "name" <$> ts = [TStr "9"; TStr "10"]
       /\ (fun e => TStr (fst e)) <$> insertion_order_sort dataset_index_names
          = [TStr "10"; TStr "9"]
       /\ field "name" <$> ts
          <> (fun e => TStr (fst e)) <$> insertion_order_sort dataset_index_names.
Proof.
  split; [by vm_compute|]. split; [by vm_compute|].
  eexists _, _, _. split; [by vm_compute|]. split; [by vm_compute|].
  split; [by vm_compute|]. split; [by vm_compute|]. by vm_compute.
Qed.





(** With twenty-one categories the first and the twenty-first trace have the
    same colour, the first of the palette. *)
Example createChartTraces_cycle :
  exists r st' ts a b,
    App.createChartTraces (fst (parsed dataset_cycle)) (snd (parsed dataset_cycle))
    = (Ret r, st')
    /\ readback 4 (lookup_of (heap_of st')) r = Some (TArr ts)
    /\ length ts = S (length App.CHART_CONFIG_colors)
    /\ ts !! 0 = Some a /\ ts !! length App.CHART_CONFIG_colors = Some b
    /\ field "name" a = TStr "c0" /\ field "name" b = TStr "c20"
    /\ line_color a = TStr "#FF6B6B" /\ line_color b = TStr "#FF6B6B".
Proof.
  eexists _, _, _, _, _. split; [by vm_compute|]. split; [by vm_compute|].
  split; [by vm_compute|]. split; [by vm_compute|]. split; [by vm_compute|].
  split; [by vm_compute|]. split; [by vm_compute|]. split; by vm_compute.
Qed.

(** The scenario [{years:[2016,2017], categories:{AI:[2,5], Finance:[3,3]}}]:
    the totals are 7 and 6, so the traces are AI, Finance, with the first two
    colours of the palette and the default symbol. *)
Example createChartTraces_scenario :
  exists r st' ts,
    App.createChartTraces (fst (parsed dataset_scenario))
      (snd (parsed dataset_scenario)) = (Ret r, st')
    /\ readback 4 (lookup_of (heap_of st')) r = Some (TArr ts)
    /\ field "name" <$> ts = [TStr "AI"; TStr "Finance"]
    /\ field "x" <$> ts
       = [TArr [TNum 2016; TNum 2017]; TArr [TNum 2016; TNum 2017]]
    /\ field "y" <$> ts = [TArr [TNum 2; TNum 5]; TArr [TNum 3; TNum 3]]
    /\ line_color <$> ts = [TStr "#FF6B6B"; TStr "#4ECDC4"]
    /\ marker_symbol <$> ts = [TStr "circle"; TStr "circle"].
Proof.
  eexists _, _, _. split; [by vm_compute|]. split; [by vm_compute|].
  split; [by vm_compute|]. split; [by vm_compute|]. split; [by vm_compute|].
  split; by vm_compute.
Qed.

(** C10 at a category named ["constructor"] with no marker: the read
    [data.markers[name]] finds [Object.prototype.constructor], which is
    truthy, and the trace gets it as symbol, not ['circle']. *)
Theorem createChartTraces_symbol_inherited :
  is_dataset dataset_inherited_name = true
  /\ assoc "constructor" (members (field "markers" dataset_inherited_name)) = None
  /\ exists r st' ts,
       App.createChartTraces (fst (parsed dataset_inherited_name))
         (snd (parsed dataset_inherited_name)) = (Ret r, st')
       /\ readback 4 (lookup_of (heap_of st')) r = Some (TArr ts)
       /\ field "name" <$> ts = [TStr "constructor"]
       /\ marker_symbol <$> ts = [TNative "Object.prototype.constructor"].
Proof.
  split; [by vm_compute|]. split; [by vm_compute|].
  eexists _, _, _. split; [by vm_compute|]. split; [by vm_compute|].
  split; by vm_compute.
Qed.


End Series.

(** * [createDynamicAnnotations] computes [annotations_of] *)

Section Annotations.

Variables (st0 : state) (data : val) (d : tree).
Hypothesis Hdata : reads_in (lookup_of (heap_of st0)) data d.
Hypothesis Hd : is_dataset d = true.

Lemma assoc_elem_of {A} name (ps : list (string * A)) v :
  assoc name ps = Some v -> exists k, (k, v) ∈ ps.
Proof.
  induction ps as [|[k x] ps IH]; [done|]. simpl.
  destruct (String.eqb name k).
  - intros [= ->]. exists k. by left.
  - intros [k' Hk']%IH. exists k'. by right.
Qed.

Lemma strict_eq_numbers a b : strict_eq (VNum a) (VNum b) = (a =? b)%Z.
Proof.
  unfold strict_eq. destruct (Z.eqb_spec a b) as [->|Hne].
  - by apply bool_decide_eq_true.
  - apply bool_decide_eq_false. by intros [= ?].
Qed.

Lemma index_of_numbers year zs i :
  index_of (VNum year) (VNum <$> zs) i = year_index year zs i.
Proof.
  revert i. induction zs as [|z zs IH]; intros i; [done|].
  cbn [fmap list_fmap index_of year_index].
  by rewrite strict_eq_numbers, IH.
Qed.

Lemma wp_number_array st v values (Q : loc * list val -> state -> Prop) name :
  sub (lookup_of (heap_of st0)) (lookup_of (heap_of st)) ->
  reads_in (lookup_of (heap_of st0)) v values ->
  is_number_array values = true ->
  (forall l, v = VRef l ->
     heap_of st !! l = Some (CArr (VNum <$> (number_of <$> items values))) ->
     Q (l, VNum <$> (number_of <$> items values)) st) ->
  wp (array_receiver v name) st Q.
Proof.
  intros Hsub Hv Hnum HQ. destruct values as [| | | | | | |ts| ]; try done.
  destruct (reads_in_prim _ _ _ Hv) as [l ->].
  apply reads_in_arr_inv in Hv as (vs & Hl & Hvs).
  rewrite (number_array_vals _ _ _ Hvs Hnum) in Hl. apply Hsub in Hl.
  eapply wp_array_receiver; [exact Hl|]. by apply HQ.
Qed.

Lemma wp_getCategoryValue st name year (Q : val -> state -> Prop) :
  sub (lookup_of (heap_of st0)) (lookup_of (heap_of st)) ->
  inherited KObject name = VUndef ->
  (forall v,
     match count_at d name year with
     | Some z => v = VNum z
     | None => v = VNum 0 \/ v = VUndef
     end -> Q v st) ->
  wp (App.getCategoryValue data name year) st Q.
Proof using Hdata Hd.
  intros Hsub Hname HQ.
  destruct (is_dataset_inv _ Hd) as (ms & cs & Heq & Hcs & Hyears & Hnum & _).
  assert (field "categories" d = TObj cs) as Hfield.
  { subst d. unfold field. cbn [members]. by rewrite Hcs. }
  unfold count_at in HQ. rewrite Hfield in HQ. cbn [members] in HQ.
  unfold App.getCategoryValue.
  apply wp_bind. apply (wp_get_field _ _ _ Hdata Hd); [done..|]. intros categories Hcats.
  rewrite Hfield in Hcats.
  apply wp_bind. eapply wp_get_object; [exact Hsub|exact Hcats|].
  intros c Hc. rewrite (own_or_inherited_field _ _ Hname) in Hc.
  unfold field in Hc. cbn [members] in Hc.
  rewrite (truthy_reads _ _ _ Hc).
  destruct (assoc name cs) as [values|] eqn:Hassoc; cbn [from_option id] in *.
  2:{ apply wp_ret, HQ. by left. }
  assert (is_number_array values = true) as Hvalues.
  { destruct (assoc_elem_of _ _ _ Hassoc) as [k Hk].
    rewrite Forall_forall in Hnum. apply (Hnum _ Hk). }
  assert (t_truthy values = true) as ->.
  { by destruct values. }
  cbn [negb]. apply wp_bind. apply (wp_get_field _ _ _ Hdata Hd); [done..|]. intros years Hy.
  apply wp_bind. unfold Array_indexOf. apply wp_bind.
  eapply wp_number_array; [exact Hsub|exact Hy|exact Hyears|].
  intros ly -> Hly. cbn [snd]. apply wp_ret. rewrite index_of_numbers.
  set (i := year_index year (number_of <$> items (field "years" d)) 0) in *.
  apply wp_bind, wp_ret.
  destruct (0 <=? i)%Z eqn:Hi.
  2:{ apply wp_ret, HQ. by left. }
  apply wp_bind. apply (wp_get_field _ _ _ Hdata Hd); [done..|]. intros categories' Hcats'.
  rewrite Hfield in Hcats'.
  apply wp_bind. eapply wp_get_object; [exact Hsub|exact Hcats'|].
  intros c' Hc'. rewrite (own_or_inherited_field _ _ Hname) in Hc'.
  unfold field in Hc'. cbn [members] in Hc'. rewrite Hassoc in Hc'.
  cbn [from_option id] in Hc'.
  destruct values as [| | | | | | |ts| ]; try done.
  destruct (reads_in_prim _ _ _ Hc') as [lv ->].
  apply reads_in_arr_inv in Hc' as (vs & Hlv & Hvs).
  rewrite (number_array_vals _ _ _ Hvs Hvalues) in Hlv. apply Hsub in Hlv.
  cbn [App.getCategoryValue get_v get_idx]. apply wp_bind.
  eapply wp_deref; [exact Hlv|]. apply wp_ret, HQ. rewrite Hi.
  cbn [items]. rewrite !list_lookup_fmap.
  destruct (ts !! Z.to_nat i) as [t|] eqn:Ht; cbn; [|by right].
  cbn in Hvalues. rewrite forallb_forall in Hvalues.
  assert (is_number t = true) as Hnumt.
  { apply Hvalues. apply list_elem_of_In. by eapply list_elem_of_lookup_2. }
  by destruct t.
Qed.

Lemma wp_new_annotation X st x y text color (Q : val -> state -> Prop) :
  (forall l, l ∈ X -> l < length (heap_of st)) ->
  (forall st' p,
     grows [] st st' ->
     reads_in (hide X (heap_of st')) (VRef p) (annotation_tree x y text color) ->
     Q (VRef p) st') ->
  wp (App.new_annotation x (VNum y) text color color) st Q.
Proof.
  intros HX HQ. unfold App.new_annotation, new_object.
  apply wp_bind, wp_alloc. intros s1 Hg1 Hc1 Hlen1.
  apply wp_alloc. intros s2 Hg2 Hc2 Hlen2.
  assert (forall p c, length (heap_of st) <= p -> heap_of s2 !! p = Some c ->
            hide X (heap_of s2) p = Some c) as Hfresh.
  { intros p c Hp Hc. unfold hide. case_decide as Hin; [|done].
    apply HX in Hin. lia. }
  apply (HQ _ (length (heap_of s1))); [by eapply grows_trans|].
  eapply reads_in_obj.
  - apply Hfresh; [lia|exact Hc2].
  - repeat constructor; try done; try (by exists 0).
    eapply reads_in_obj.
    + apply Hfresh; [lia|].
      eapply grows_cells; [exact Hg2|exact Hc1|apply not_elem_of_nil].
    + repeat constructor; try done; by exists 0.
Qed.

Lemma wp_annotate X la st anns ts name year text color
    (Q : unit -> state -> Prop) :
  la ∈ X ->
  (forall l, l ∈ X -> l < length (heap_of st)) ->
  sub (lookup_of (heap_of st0)) (lookup_of (heap_of st)) ->
  inherited KObject name = VUndef ->
  heap_of st !! la = Some (CArr anns) ->
  Forall2 (reads_in (hide X (heap_of st))) anns ts ->
  (forall st' anns',
     grows [la] st st' ->
     heap_of st' !! la = Some (CArr anns') ->
     Forall2 (reads_in (hide X (heap_of st'))) anns'
       (ts ++ option_list (annotation_for d (name, year, text, color))) ->
     Q tt st') ->
  wp (App.annotate data (VRef la) name year text color) st Q.
Proof using Hdata Hd.
  intros Hla HX Hsub Hname Hanns Hts HQ. unfold App.annotate.
  apply wp_bind. apply wp_getCategoryValue; [done..|]. intros v Hv.
  unfold annotation_for in HQ.
  assert (forall st' anns', st' = st -> anns' = anns ->
            count_at d name year = None \/
            (exists z, count_at d name year = Some z /\ (0 <? z)%Z = false) ->
            Q tt st') as Hskip.
  { intros st' anns' -> -> Hnone. apply (HQ st anns); [apply grows_refl|done|].
    destruct Hnone as [->|(z & -> & ->)]; by rewrite app_nil_r. }
  destruct (count_at d name year) as [z|] eqn:Hcount.
  2:{ destruct Hv as [-> | ->]; apply wp_bind, wp_ret, wp_ret;
        eapply Hskip; eauto. }
  subst v. apply wp_bind, wp_ret.
  destruct (0 <? z)%Z eqn:Hz.
  2:{ apply wp_ret. eapply Hskip; eauto. }
  apply wp_bind. apply (wp_new_annotation X); [exact HX|].
  intros s1 p Hg1 Hp. apply wp_bind. unfold Array_push. apply wp_bind.
  eapply wp_array_receiver.
  { eapply grows_cells; [exact Hg1|exact Hanns|apply not_elem_of_nil]. }
  cbn [fst snd]. apply wp_bind, wp_store.
  { destruct Hg1 as [Hlen _ _]. apply lookup_lt_Some in Hanns. lia. }
  intros s2 Hg2 Hc2 Hlen2. do 3 apply wp_ret.
  assert (grows X s1 s2) as Hg2X.
  { eapply grows_weaken; [|exact Hg2]. by intros l ->%list_elem_of_singleton. }
  apply (HQ _ (anns ++ [VRef p])); [|exact Hc2|].
  - eapply grows_trans; [|exact Hg2]. by apply grows_nil.
  - apply Forall2_app.
    + eapply Forall2_impl; [exact Hts|]. intros a t.
      apply reads_in_sub. eapply sub_trans; [|by apply grows_hide].
      apply grows_hide. by apply grows_nil.
    + constructor; [|constructor]. eapply reads_in_sub; [|exact Hp].
      by apply grows_hide.
Qed.

Lemma createDynamicAnnotations_spec :
  wp (App.createDynamicAnnotations data) st0 (fun r st' =>
    grows [] st0 st'
    /\ reads_in (lookup_of (heap_of st')) r (TArr (annotations_of d))).
Proof using Hdata Hd.
  unfold App.createDynamicAnnotations, new_array.
  apply wp_bind, wp_alloc. intros s1 Hg1 Hc1 Hlen1.
  set (la := length (heap_of st0)) in *.
  assert (forall s, length (heap_of s1) <= length (heap_of s) ->
            forall l, l ∈ [la] -> l < length (heap_of s)) as HX.
  { intros s Hs l ->%list_elem_of_singleton. lia. }
  apply wp_bind.
  eapply (wp_annotate [la] la _ [] []); [by left|by apply HX| |done|exact Hc1| |].
  { by apply grows_sub. }
  { constructor. }
  intros s2 a2 Hg2 Hc2 Ha2. apply wp_bind.
  assert (grows [la] st0 s2) as Hg02.
  { eapply grows_trans; [by apply grows_nil|exact Hg2]. }
  assert (forall s, grows [la] st0 s ->
            sub (lookup_of (heap_of st0)) (lookup_of (heap_of s))) as Hsub.
  { intros s Hs. eapply grows_sub_fresh; [exact Hs|].
    intros l ->%list_elem_of_singleton. done. }
  eapply (wp_annotate [la] la _ a2); [by left| | |done|exact Hc2|exact Ha2|].
  { apply HX. apply Hg2. }
  { by apply Hsub. }
  intros s3 a3 Hg3 Hc3 Ha3. apply wp_bind.
  assert (grows [la] st0 s3) as Hg03 by (by eapply grows_trans).
  eapply (wp_annotate [la] la _ a3); [by left| | |done|exact Hc3|exact Ha3|].
  { apply HX. destruct Hg2 as [? _ _], Hg3 as [? _ _]. lia. }
  { by apply Hsub. }
  intros s4 a4 Hg4 Hc4 Ha4. apply wp_ret.
  assert (grows [la] st0 s4) as Hg04 by (by eapply grows_trans).
  split.
  - apply (grows_fresh [la]); [done|]. by intros l ->%list_elem_of_singleton.
  - eapply reads_in_arr; [exact Hc4|].
    eapply Forall2_impl.
    + replace (annotations_of d) with
        ((([] ++ option_list (annotation_for d
                   ("Machine Learning & AI", 2024%Z, "LLMs<br>Emerge", "#FF6B6B")))
          ++ option_list (annotation_for d
                   ("Social Sciences & Demographics", 2019%Z, "Census<br>Focus",
                    "#ed8936")))
         ++ option_list (annotation_for d
                   ("Pandemic & Public Health", 2020%Z, "COVID-19<br>Impact",
                    "#48bb78"))); [exact Ha4|].
      unfold annotations_of, triggers. cbn [omap list_omap].
      by repeat (destruct (annotation_for d _)).
    + intros a t. apply reads_in_sub, hide_sub.
Qed.

End Annotations.

(** * The annotations *)

Section Emitted.

Lemma year_index_first year zs k :
  (year_index year zs k = (-1)%Z /\ year ∉ zs)
  \/ (exists m, year_index year zs k = (k + Z.of_nat m)%Z /\ first_at year zs m).
Proof.
  revert k. induction zs as [|z zs IH]; intros k.
  - left. split; [done|]. apply not_elem_of_nil.
  - simpl. destruct (Z.eqb_spec z year) as [->|Hne].
    + right. exists 0. split; [lia|]. split; [done|]. lia.
    + destruct (IH (k + 1)%Z) as [[Hi Hnot]|(m & Hi & Hm & Hfirst)].
      * left. split; [done|]. by intros [?|?]%elem_of_cons.
      * right. exists (S m). split; [lia|]. split; [done|].
        intros [|j] Hj; simpl; [by intros [= ?]|]. apply Hfirst. lia.
Qed.

Lemma first_at_unique year zs i j :
  first_at year zs i -> first_at year zs j -> i = j.
Proof.
  intros [Hi Hfi] [Hj Hfj].
  destruct (Nat.lt_trichotomy i j) as [Hlt|[->|Hlt]]; [|done|].
  - by destruct (Hfj _ Hlt).
  - by destruct (Hfi _ Hlt).
Qed.

Lemma count_at_has_count d name year v :
  count_at d name year = Some v <-> has_count d name year v.
Proof.
  unfold count_at, has_count.
  set (zs := number_of <$> items (field "years" d)).
  destruct (assoc name (members (field "categories" d))) as [values|].
  2:{ split; [done|]. by intros (? & ? & ? & _). }
  destruct (year_index_first year zs 0) as [[Hi Hnot]|(m & Hi & Hm)].
  - rewrite Hi. cbn. split; [done|].
    intros (? & i & _ & [Hin _] & _). destruct Hnot.
    by eapply list_elem_of_lookup_2.
  - rewrite Hi. rewrite Z.add_0_l, Nat2Z.id.
    destruct (0 <=? Z.of_nat m)%Z eqn:Hle; [|lia]. split.
    + destruct (items values !! m) as [[]|] eqn:Hv; try done.
      intros [= ->]. by exists values, m.
    + intros (values' & i & [= <-] & Hfirst & Hv).
      rewrite (first_at_unique _ _ _ _ Hm Hfirst). by rewrite Hv.
Qed.

Lemma createDynamicAnnotations_run st data d n :
  readback n (lookup_of (heap_of st)) data = Some d ->
  is_dataset d = true ->
  exists r st',
    App.createDynamicAnnotations data st = (Ret r, st')
    /\ grows [] st st'
    /\ reads (heap_of st') r (TArr (annotations_of d)).
Proof.
  intros Hdata Hd.
  assert (reads_in (lookup_of (heap_of st)) data d) as Hreads by (by exists n).
  destruct (wp_inv _ _ _ (createDynamicAnnotations_spec st data d Hreads Hd))
    as (r & st' & Hrun & Hg & Hr).
  by exists r, st'.
Qed.

(** C2.  [createDynamicAnnotations] returns, in the order of the fixed
    trigger list, the annotation of exactly those triggers whose category
    name is a key of the dataset, whose year is among its years, and whose
    count at that position is greater than zero; it never throws, and every
    annotation carries that positive count. *)
Theorem createDynamicAnnotations_emits st data d n :
  readback n (lookup_of (heap_of st)) data = Some d ->
  is_dataset d = true ->
  exists r st' anns,
    App.createDynamicAnnotations data st = (Ret r, st')
    /\ reads (heap_of st') r (TArr anns)
    /\ anns = omap (annotation_for d) triggers
    /\ forall name year text color a,
         annotation_for d (name, year, text, color) = Some a
         <-> exists v, has_count d name year v /\ (0 < v)%Z
                       /\ a = annotation_tree year v text color.
Proof.
  intros Hdata Hd.
  destruct (createDynamicAnnotations_run _ _ _ _ Hdata Hd)
    as (r & st' & Hrun & _ & Hr).
  exists r, st', (annotations_of d). split; [done|]. split; [done|].
  split; [done|]. intros name year text color a. unfold annotation_for. split.
  - destruct (count_at d name year) as [v|] eqn:Hc; [|done].
    destruct (0 <? v)%Z eqn:Hv; [|done]. intros [= <-]. exists v.
    split; [by apply count_at_has_count|]. split; [lia|done].
  - intros (v & Hc%count_at_has_count & Hv & ->). rewrite Hc.
    by rewrite (proj2 (Z.ltb_lt 0 v) Hv).
Qed.

Lemma createDynamicAnnotations_emits_witness :
  readback 3 (lookup_of (heap_of (snd (parsed dataset_annotated))))
    (fst (parsed dataset_annotated)) = Some dataset_annotated
  /\ is_dataset dataset_annotated = true
  /\ exists r st' anns,
       App.createDynamicAnnotations (fst (parsed dataset_annotated))
         (snd (parsed dataset_annotated)) = (Ret r, st')
       /\ reads (heap_of st') r (TArr anns)
       /\ anns = [annotation_tree 2024 5 "LLMs<br>Emerge" "#FF6B6B"].
Proof.
  split; [reflexivity|]. split; [reflexivity|].
  destruct (createDynamicAnnotations_emits (snd (parsed dataset_annotated))
              (fst (parsed dataset_annotated)) dataset_annotated 3
              eq_refl eq_refl)
    as (r & st' & anns & Hrun & Hr & Hanns & _).
  exists r, st', anns. split; [exact Hrun|]. split; [exact Hr|]. exact Hanns.
Defined.

End Emitted.

(** * Purity of the builders *)

Section Purity.

Lemma grows_reads st st' v t :
  grows [] st st' -> reads (heap_of st) v t -> reads (heap_of st') v t.
Proof. intros Hg. apply reads_in_sub. by apply grows_sub. Qed.

Lemma grows_readback st st' n v t :
  grows [] st st' ->
  readback n (lookup_of (heap_of st)) v = Some t ->
  readback n (lookup_of (heap_of st')) v = Some t.
Proof. intros Hg. apply readback_mono; [done|]. by apply grows_sub. Qed.

(** C9.  Neither builder writes to the dataset: every cell that existed
    before the call, those of [years], [categories] and [markers] among
    them, is the same after it, and the dataset reads as before. *)
Theorem builders_leave_dataset st data d n :
  readback n (lookup_of (heap_of st)) data = Some d ->
  is_dataset d = true ->
  (exists r st',
     App.createChartTraces data st = (Ret r, st')
     /\ (forall l c, heap_of st !! l = Some c -> heap_of st' !! l = Some c)
     /\ readback n (lookup_of (heap_of st')) data = Some d)
  /\ (exists r st',
        App.createDynamicAnnotations data st = (Ret r, st')
        /\ (forall l c, heap_of st !! l = Some c -> heap_of st' !! l = Some c)
        /\ readback n (lookup_of (heap_of st')) data = Some d).
Proof.
  intros Hdata Hd. split.
  - destruct (createChartTraces_run _ _ _ _ Hdata Hd) as (r & st' & Hrun & Hg & _).
    exists r, st'. split; [done|]. split; [|by eapply grows_readback].
    intros l c Hl. eapply grows_cells; [exact Hg|exact Hl|apply not_elem_of_nil].
  - destruct (createDynamicAnnotations_run _ _ _ _ Hdata Hd)
      as (r & st' & Hrun & Hg & _).
    exists r, st'. split; [done|]. split; [|by eapply grows_readback].
    intros l c Hl. eapply grows_cells; [exact Hg|exact Hl|apply not_elem_of_nil].
Qed.

Lemma builders_leave_dataset_witness :
  readback 3 (lookup_of (heap_of (snd (parsed dataset_annotated))))
    (fst (parsed dataset_annotated)) = Some dataset_annotated
  /\ is_dataset dataset_annotated = true
  /\ (exists r st',
        App.createChartTraces (fst (parsed dataset_annotated))
          (snd (parsed dataset_annotated)) = (Ret r, st')
        /\ readback 3 (lookup_of (heap_of st')) (fst (parsed dataset_annotated))
           = Some dataset_annotated)
  /\ (exists r st',
        App.createDynamicAnnotations (fst (parsed dataset_annotated))
          (snd (parsed dataset_annotated)) = (Ret r, st')
        /\ readback 3 (lookup_of (heap_of st')) (fst (parsed dataset_annotated))
           = Some dataset_annotated).
Proof.
  split; [reflexivity|]. split; [reflexivity|].
  destruct (builders_leave_dataset (snd (parsed dataset_annotated))
              (fst (parsed dataset_annotated)) dataset_annotated 3
              eq_refl eq_refl)
    as [(r & st' & Hrun & _ & Hd) (r' & st'' & Hrun' & _ & Hd')].
  split.
  - exists r, st'. split; [exact Hrun|exact Hd].
  - exists r', st''. split; [exact Hrun'|exact Hd'].
Defined.

(** C6.  The builders are deterministic and pure.  A call returns normally;
    it leaves [AppState], the page, the log of console and library calls,
    the listeners and the timers as they were.  A second call on the
    unchanged dataset returns the same contents as the first: the two
    arrays of series read as one and the same value, and so do the two
    arrays of annotations, which are [annotations_of d]. *)
Theorem builders_deterministic st data d n :
  readback n (lookup_of (heap_of st)) data = Some d ->
  is_dataset d = true ->
  (exists r1 st1 r2 st2 out,
     App.createChartTraces data st = (Ret r1, st1)
     /\ App.createChartTraces data st1 = (Ret r2, st2)
     /\ reads (heap_of st2) r1 out
     /\ reads (heap_of st2) r2 out
     /\ world st1 = world st /\ world st2 = world st)
  /\ (exists r1 st1 r2 st2,
        App.createDynamicAnnotations data st = (Ret r1, st1)
        /\ App.createDynamicAnnotations data st1 = (Ret r2, st2)
        /\ reads (heap_of st2) r1 (TArr (annotations_of d))
        /\ reads (heap_of st2) r2 (TArr (annotations_of d))
        /\ world st1 = world st /\ world st2 = world st).
Proof.
  intros Hdata Hd. split.
  - destruct (createChartTraces_run _ _ _ _ Hdata Hd)
      as (r1 & st1 & Hrun1 & Hg1 & Hr1).
    destruct (createChartTraces_run st1 data d n) as (r2 & st2 & Hrun2 & Hg2 & Hr2);
      [by eapply grows_readback|done|].
    exists r1, st1, r2, st2, (TArr (traces_of d)). split; [done|].
    split; [done|]. split; [by eapply grows_reads|]. split; [done|].
    destruct Hg1 as [_ _ Hw1], Hg2 as [_ _ Hw2]. split; congruence.
  - destruct (createDynamicAnnotations_run _ _ _ _ Hdata Hd)
      as (r1 & st1 & Hrun1 & Hg1 & Hr1).
    destruct (createDynamicAnnotations_run st1 data d n)
      as (r2 & st2 & Hrun2 & Hg2 & Hr2);
      [by eapply grows_readback|done|].
    exists r1, st1, r2, st2. split; [done|]. split; [done|].
    split; [by eapply grows_reads|]. split; [done|].
    destruct Hg1 as [_ _ Hw1], Hg2 as [_ _ Hw2]. split; congruence.
Qed.

Lemma builders_deterministic_witness :
  readback 3 (lookup_of (heap_of (snd (parsed dataset_annotated))))
    (fst (parsed dataset_annotated)) = Some dataset_annotated
  /\ is_dataset dataset_annotated = true
  /\ (exists r1 st1 r2 st2 out,
        App.createChartTraces (fst (parsed dataset_annotated))
          (snd (parsed dataset_annotated)) = (Ret r1, st1)
        /\ App.createChartTraces (fst (parsed dataset_annotated)) st1
           = (Ret r2, st2)
        /\ reads (heap_of st2) r1 out /\ reads (heap_of st2) r2 out)
  /\ (exists r1 st1 r2 st2 out,
        App.createDynamicAnnotations (fst (parsed dataset_annotated))
          (snd (parsed dataset_annotated)) = (Ret r1, st1)
        /\ App.createDynamicAnnotations (fst (parsed dataset_annotated)) st1
           = (Ret r2, st2)
        /\ reads (heap_of st2) r1 out /\ reads (heap_of st2) r2 out).
Proof.
  split; [reflexivity|]. split; [reflexivity|].
  destruct (builders_deterministic (snd (parsed dataset_annotated))
              (fst (parsed dataset_annotated)) dataset_annotated 3
              eq_refl eq_refl)
    as [(r1 & st1 & r2 & st2 & out & H1 & H2 & H3 & H4 & _)
        (r1' & st1' & r2' & st2' & H1' & H2' & H3' & H4' & _)].
  split.
  - exists r1, st1, r2, st2, out.
    split; [exact H1|]. split; [exact H2|]. split; [exact H3|exact H4].
  - exists r1', st1', r2', st2', (TArr (annotations_of dataset_annotated)).
    split; [exact H1'|]. split; [exact H2'|]. split; [exact H3'|exact H4'].
Defined.

End Purity.

(** * The loader *)

Section Loader.

(** [response.json()] allocates the JSON value and nothing else. *)
Lemma wp_inject t st :
  wp (inject t) st (fun v st' => grows [] st st' /\ reads (heap_of st') v t).
Proof.
  revert st. induction t as [| | | | | | |ts IH|ms IH] using tree_ind';
    intros st; try (apply wp_ret; split; [apply grows_refl|by exists 0]).
  - cbn [inject]. apply wp_bind. eapply wp_mono.
    { apply (wp_mapM _ (grows [])
               (fun x e _ => x = e /\ forall s,
                  wp (inject x) s (fun v s' => grows [] s s'
                                    /\ reads (heap_of s') v x))
               (fun e y s => reads (heap_of s) y e) ts ts).
      - apply grows_refl.
      - apply grows_trans.
      - done.
      - intros e y s1 s2 Hy Hg. by eapply grows_reads.
      - intros x e s1 [-> Hx] _. apply Hx.
      - apply Forall2_same_length_lookup. split; [done|].
        intros i x y Hx Hy. assert (x = y) as -> by congruence.
        split; [done|]. eapply Forall_lookup_1 in IH; [exact IH|exact Hx]. }
    intros vs s1 [Hg Hvs]. apply wp_alloc. intros s2 Hg2 Hc _.
    split; [by eapply grows_trans|]. eapply reads_in_arr; [exact Hc|].
    apply Forall2_flip. eapply Forall2_impl; [exact Hvs|].
    intros e y Hy. by eapply grows_reads.
  - cbn [inject]. apply wp_bind. eapply wp_mono.
    { apply (wp_mapM _ (grows [])
               (fun x e _ => x = e /\ forall s,
                  wp (inject (snd x)) s (fun v s' => grows [] s s'
                                          /\ reads (heap_of s') v (snd x)))
               (fun e y s => same_keys (reads (heap_of s)) y e) ms ms).
      - apply grows_refl.
      - apply grows_trans.
      - done.
      - intros e y s1 s2 [Hk Hy] Hg. split; [done|]. by eapply grows_reads.
      - intros x e s1 [-> Hx] _. apply wp_bind. eapply wp_mono; [apply Hx|].
        intros v s2 [Hg Hv]. by apply wp_ret.
      - apply Forall2_same_length_lookup. split; [done|].
        intros i x y Hx Hy. assert (x = y) as -> by congruence.
        split; [done|]. eapply Forall_lookup_1 in IH; [exact IH|exact Hx]. }
    intros ps s1 [Hg Hps]. apply wp_alloc. intros s2 Hg2 Hc _.
    split; [by eapply grows_trans|]. eapply reads_in_obj; [exact Hc|].
    apply Forall2_flip. eapply Forall2_impl; [exact Hps|].
    intros e y [Hk Hy]. split; [done|]. by eapply grows_reads.
Qed.

(** *** Outcomes *)

Lemma wpo_bind {A B} (m : M A) (k : A -> M B) st (Q : outcome B -> state -> Prop) :
  wpo m st (fun o st' =>
    match o with
    | Ret a => wpo (k a) st' Q
    | Throw e => Q (Throw e) st'
    | Unsupported => Q Unsupported st'
    end) ->
  wpo (m ≫= k) st Q.
Proof.
  unfold wpo, mbind, M_bind. by destruct (m st) as [[a|e|] st'].
Qed.

Lemma wpo_wp {A} (m : M A) st (P : A -> state -> Prop)
    (Q : outcome A -> state -> Prop) :
  wp m st P -> (forall a st', P a st' -> Q (Ret a) st') -> wpo m st Q.
Proof.
  unfold wp, wpo. destruct (m st) as [[a|e|] st']; [|done..].
  intros HP HQ. by apply HQ.
Qed.

Lemma wpo_bind_wp {A B} (m : M A) (k : A -> M B) st P
    (Q : outcome B -> state -> Prop) :
  wp m st P -> (forall a st', P a st' -> wpo (k a) st' Q) -> wpo (m ≫= k) st Q.
Proof.
  intros Hm Hk. apply wpo_bind. eapply wpo_wp; [exact Hm|]. exact Hk.
Qed.

Lemma wpo_ret {A} (a : A) st (Q : outcome A -> state -> Prop) :
  Q (Ret a) st -> wpo (mret a) st Q.
Proof. done. Qed.

Lemma wpo_throw {A} e st (Q : outcome A -> state -> Prop) :
  Q (Throw e) st -> wpo (throw e) st Q.
Proof. done. Qed.

Lemma wpo_try_catch {A} (m : M A) (h : exn -> M A) st
    (Q : outcome A -> state -> Prop) :
  wpo m st (fun o st' =>
    match o with
    | Throw e => wpo (h e) st' Q
    | _ => Q o st'
    end) ->
  wpo (try_catch m h) st Q.
Proof.
  unfold wpo, try_catch. by destruct (m st) as [[a|e|] st'].
Qed.

(** *** Reads on parsed values *)

Lemma get_json_run lk st v t name :
  name = "years" \/ name = "categories" ->
  sub lk (lookup_of (heap_of st)) ->
  reads_in lk v t -> json_value t = true ->
  match t with
  | TNull =>
      get v name st
      = (Throw (Exn KTypeError ("Cannot read properties of null (reading '"
                                +:+ name +:+ "')")), st)
  | _ => exists r, get v name st = (Ret r, st) /\ reads_in lk r (field name t)
  end.
Proof.
  intros Hname Hsub Hv Hjson. pose proof (reads_in_prim _ _ _ Hv) as Hprim.
  destruct t; try done; try subst v.
  - done.
  - exists VUndef. split; [|by exists 0]. by destruct Hname as [-> | ->].
  - exists VUndef. split; [|by exists 0]. by destruct Hname as [-> | ->].
  - exists VUndef. split; [|by exists 0]. by destruct Hname as [-> | ->].
  - exists VUndef. split; [|by exists 0]. by destruct Hname as [-> | ->].
  - destruct Hprim as [l ->].
    apply reads_in_arr_inv in Hv as (vs & Hl & _). apply Hsub in Hl.
    exists VUndef. split; [|by exists 0].
    unfold get, deref, mbind, M_bind. unfold lookup_of in Hl. rewrite Hl.
    by destruct Hname as [-> | ->].
  - destruct Hprim as [l ->].
    apply reads_in_obj_same_keys in Hv as (ps & Hl & Hps). apply Hsub in Hl.
    pose proof (assoc_same_keys _ _ _ name Hps) as Hassoc.
    unfold get, deref, mbind, M_bind, field. unfold lookup_of in Hl.
    rewrite Hl. cbn [members].
    destruct (assoc name ps) as [r|], (assoc name members0) as [tr|]; try done.
    + by exists r.
    + exists VUndef. split; [|by exists 0]. by destruct Hname as [-> | ->].
Qed.

Lemma isArray_run lk st v t :
  sub lk (lookup_of (heap_of st)) -> reads_in lk v t ->
  Array_isArray v st = (Ret (is_array t), st).
Proof.
  intros Hsub Hv. pose proof (reads_in_prim _ _ _ Hv) as Hprim.
  destruct t; try (by subst v); destruct Hprim as [l ->].
  - apply reads_in_arr_inv in Hv as (vs & Hl & _). apply Hsub in Hl.
    unfold Array_isArray, deref, mbind, M_bind. unfold lookup_of in Hl.
    by rewrite Hl.
  - apply reads_in_obj_inv in Hv as (ps & Hl & _). apply Hsub in Hl.
    unfold Array_isArray, deref, mbind, M_bind. unfold lookup_of in Hl.
    by rewrite Hl.
Qed.

Lemma get_length_run lk st v ts :
  sub lk (lookup_of (heap_of st)) -> reads_in lk v (TArr ts) ->
  get v "length" st = (Ret (VNum (Z.of_nat (length ts))), st).
Proof.
  intros Hsub Hv. destruct (reads_in_prim _ _ _ Hv) as [l ->].
  apply reads_in_arr_inv in Hv as (vs & Hl & Hvs). apply Hsub in Hl.
  unfold get, deref, mbind, M_bind. unfold lookup_of in Hl. rewrite Hl.
  cbn. by rewrite (Forall2_length _ _ _ Hvs).
Qed.

Lemma indexed_same_keys {A B} (R : A -> B -> Prop) xs ys :
  Forall2 R xs ys -> Forall2 (same_keys R) (indexed xs) (indexed ys).
Proof.
  intros H. unfold indexed. apply Forall2_same_length_lookup. split.
  { rewrite !length_imap. by eapply Forall2_length. }
  intros i p q (x & Hx & ->)%list_lookup_imap_Some
    (y & Hy & ->)%list_lookup_imap_Some.
  split; [done|]. by eapply Forall2_lookup_lr.
Qed.

(** [Object.entries] on any truthy parsed value. *)
Lemma own_entries_run lk st v t :
  sub lk (lookup_of (heap_of st)) ->
  reads_in lk v t -> json_value t = true -> t_truthy t = true ->
  exists kvs,
    own_entries v st = (Ret kvs, st)
    /\ Forall2 (same_keys (reads_in lk)) kvs (t_entries t).
Proof.
  intros Hsub Hv Hjson Ht. pose proof (reads_in_prim _ _ _ Hv) as Hprim.
  destruct t; try done; try subst v.
  - exists []. split; [done|constructor].
  - exists []. split; [done|constructor].
  - exists []. split; [done|constructor].
  - eexists. split; [done|]. apply indexed_same_keys.
    apply Forall2_fmap. apply Forall2_same_length_lookup. split; [done|].
    intros i x y Hx Hy. assert (x = y) as -> by congruence. by exists 0.
  - destruct Hprim as [l ->].
    apply reads_in_arr_inv in Hv as (vs & Hl & Hvs). apply Hsub in Hl.
    exists (indexed vs). split; [|by apply indexed_same_keys].
    unfold own_entries, deref, mbind, M_bind. unfold lookup_of in Hl.
    by rewrite Hl.
  - destruct Hprim as [l ->].
    apply reads_in_obj_same_keys in Hv as (ps & Hl & Hps). apply Hsub in Hl.
    exists (own_enumerable ps). split; [|by apply own_enumerable_same_keys].
    unfold own_entries, deref, mbind, M_bind. unfold lookup_of in Hl.
    by rewrite Hl.
Qed.

Lemma wp_entry_pairs lk st kvs es (Q : val -> state -> Prop) :
  Forall2 (same_keys (reads_in lk)) kvs es ->
  (forall st' lE pairs,
     grows [] st st' ->
     heap_of st' !! lE = Some (CArr pairs) ->
     Forall2 (pair_at lk (heap_of st')) pairs es ->
     Q (VRef lE) st') ->
  wp (pairs ← mapM (fun kv => alloc (CArr [VStr (fst kv); snd kv])) kvs;
      alloc (CArr pairs)) st Q.
Proof.
  intros Hps HQ. apply wp_bind. eapply wp_mono.
  { apply (wp_mapM _ (grows [])
             (fun kv e _ => same_keys (reads_in lk) kv e)
             (fun e pr s => pair_at lk (heap_of s) pr e)
             _ es).
    - apply grows_refl.
    - apply grows_trans.
    - done.
    - intros e pr s1 s2 (p & x & -> & Hp & Hx) Hg. exists p, x.
      split; [done|]. split; [|done].
      eapply grows_cells; [exact Hg|exact Hp|apply not_elem_of_nil].
    - intros [k x] [k' t] s1 [Hk Hx] _. simpl in *. subst k'.
      apply wp_alloc. intros s2 Hg Hp _. split; [done|].
      by exists (length (heap_of s1)), x.
    - exact Hps. }
  intros pairs s1 [Hg Hpairs]. apply wp_alloc. intros s2 Hg2 HlE _.
  apply (HQ _ _ pairs); [by eapply grows_trans|done|].
  apply Forall2_flip. eapply Forall2_impl; [exact Hpairs|].
  intros e pr (p & x & -> & Hp & Hx). exists p, x.
  split; [done|]. split; [|done].
  eapply grows_cells; [exact Hg2|exact Hp|apply not_elem_of_nil].
Qed.

Lemma wp_Object_entries_json lk st v t (Q : val -> state -> Prop) :
  sub lk (lookup_of (heap_of st)) ->
  reads_in lk v t -> json_value t = true -> t_truthy t = true ->
  (forall st' lE pairs,
     grows [] st st' ->
     heap_of st' !! lE = Some (CArr pairs) ->
     Forall2 (pair_at lk (heap_of st')) pairs (t_entries t) ->
     Q (VRef lE) st') ->
  wp (Object_entries v) st Q.
Proof.
  intros Hsub Hv Hjson Ht HQ.
  destruct (own_entries_run _ _ _ _ Hsub Hv Hjson Ht) as (kvs & Hrun & Hkvs).
  unfold Object_entries. apply wp_bind. eapply wp_run; [exact Hrun|].
  by eapply wp_entry_pairs.
Qed.

Lemma bind_run {A B} (m : M A) (k : A -> M B) st a st' :
  m st = (Ret a, st') -> (m ≫= k) st = k a st'.
Proof. intros H. unfold mbind, M_bind. by rewrite H. Qed.

Lemma bind_throw {A B} (m : M A) (k : A -> M B) st e st' :
  m st = (Throw e, st') -> (m ≫= k) st = (Throw e, st').
Proof. intros H. unfold mbind, M_bind. by rewrite H. Qed.

Lemma destructure_pair_run st l a b :
  heap_of st !! l = Some (CArr [a; b]) ->
  destructure_pair (VRef l) st = (Ret (a, b), st).
Proof.
  intros Hl. unfold destructure_pair, iterable_elems, deref, mbind, M_bind.
  by rewrite Hl.
Qed.

Lemma consistency_run lk st n x t :
  sub lk (lookup_of (heap_of st)) -> reads_in lk x t ->
  ((negb <$> Array_isArray x)
   ||| (len ← get x "length";
        mret (negb (strict_eq len (VNum (Z.of_nat n)))))) st
  = (Ret (negb (consistent n t)), st).
Proof.
  intros Hsub Hx. unfold or_else, fmap, M_fmap.
  rewrite (bind_run _ _ _ _ _ (bind_run _ _ _ _ _ (isArray_run _ _ _ _ Hsub Hx))).
  destruct t as [| | | | | | |xs| ]; cbn [is_array negb consistent]; try done.
  rewrite (bind_run _ _ _ _ _ (get_length_run _ _ _ _ Hsub Hx)).
  rewrite strict_eq_numbers.
  replace (Z.of_nat (length xs) =? Z.of_nat n)%Z with (length xs =? n)%nat;
    [done|].
  destruct (Nat.eqb_spec (length xs) n) as [->|Hne].
  - by rewrite Z.eqb_refl.
  - symmetry. apply Z.eqb_neq. lia.
Qed.

Lemma check_entry_run lk st n pr e :
  sub lk (lookup_of (heap_of st)) -> pair_at lk (heap_of st) pr e ->
  App.check_entry (VNum (Z.of_nat n)) pr st
  = if consistent n (snd e) then (Ret tt, st)
    else (Throw (Exn KError ("Data inconsistency in category: " +:+ fst e)), st).
Proof.
  intros Hsub (p & x & -> & Hp & Hx). unfold App.check_entry.
  rewrite (bind_run _ _ _ _ _ (destructure_pair_run _ _ _ _ Hp)). cbn [fst snd].
  rewrite (bind_run _ _ _ _ _ (consistency_run _ _ n _ _ Hsub Hx)).
  by destruct (consistent n (snd e)).
Qed.

(** The consistency loop stops at the first inconsistent category. *)
Lemma check_loop_run lk st n pairs es :
  sub lk (lookup_of (heap_of st)) ->
  Forall2 (pair_at lk (heap_of st)) pairs es ->
  foldM (fun _ entry => App.check_entry (VNum (Z.of_nat n)) entry) tt pairs st
  = match first_inconsistent n es with
    | Some k => (Throw (Exn KError ("Data inconsistency in category: " +:+ k)),
                 st)
    | None => (Ret tt, st)
    end.
Proof.
  intros Hsub. unfold first_inconsistent.
  induction 1 as [|pr e pairs es Hpr _ IH]; [done|].
  cbn [foldM List.find]. unfold mbind, M_bind.
  rewrite (check_entry_run _ _ n _ _ Hsub Hpr).
  destruct (consistent n (snd e)); [|done]. cbn [negb]. exact IH.
Qed.

Lemma get_json_ret lk st v t name :
  name = "years" \/ name = "categories" ->
  sub lk (lookup_of (heap_of st)) ->
  reads_in lk v t -> json_value t = true -> t <> TNull ->
  exists r, get v name st = (Ret r, st) /\ reads_in lk r (field name t).
Proof.
  intros Hname Hsub Hv Hjson Hnull.
  pose proof (get_json_run _ _ _ _ _ Hname Hsub Hv Hjson) as H.
  by destruct t.
Qed.

Lemma json_value_field name t :
  json_value t = true -> t_truthy (field name t) = true ->
  json_value (field name t) = true.
Proof.
  destruct t as [| | | | | | | |ms]; try done. unfold field. cbn [members].
  intros Hjson. cbn in Hjson. rewrite forallb_forall in Hjson.
  destruct (assoc name ms) as [x|] eqn:Hx; [|done]. intros _.
  destruct (assoc_elem_of _ _ _ Hx) as [k Hk].
  apply (Hjson (k, x)). by apply list_elem_of_In.
Qed.

Lemma schema_check_run lk st v t :
  sub lk (lookup_of (heap_of st)) ->
  reads_in lk v t -> json_value t = true -> t <> TNull ->
  ((negb ∘ truthy <$> get v "years")
   ||| (negb ∘ truthy <$> get v "categories")
   ||| (negb <$> (y ← get v "years"; Array_isArray y))) st
  = (Ret (negb (t_truthy (field "years" t))
          || negb (t_truthy (field "categories" t))
          || negb (is_array (field "years" t))), st).
Proof.
  intros Hsub Hv Hjson Hnull.
  destruct (get_json_ret _ _ _ _ "years" (or_introl eq_refl) Hsub Hv Hjson Hnull)
    as (y & Hy & Hyr).
  destruct (get_json_ret _ _ _ _ "categories" (or_intror eq_refl) Hsub Hv Hjson
              Hnull) as (c & Hc & Hcr).
  pose proof (isArray_run _ _ _ _ Hsub Hyr) as Hisarr.
  unfold or_else, fmap, M_fmap, mbind, M_bind. rewrite Hy.
  cbn [mret M_ret compose]. rewrite (truthy_reads _ _ _ Hyr).
  destruct (t_truthy (field "years" t)); cbn [negb orb]; [|done].
  rewrite Hc. cbn [mret M_ret compose]. rewrite (truthy_reads _ _ _ Hcr).
  destruct (t_truthy (field "categories" t)); cbn [negb orb]; [|done].
  by rewrite Hy, Hisarr.
Qed.

(** The [catch] block. *)
Lemma load_failure st s e t :
  during_load st s -> validate t = Some e ->
  load_result st t (Ret VNull) (fail_state e s).
Proof.
  intros (Hcells & Happ & Heff & Hel) Hval. split; [done|]. rewrite Hval.
  split; [done|]. unfold fail_state. cbn. rewrite Happ, Heff, Hel.
  split; [done|]. split; [|done]. by destruct (chartElement st).
Qed.

Lemma wpo_modify f st (Q : outcome unit -> state -> Prop) :
  Q (Ret tt) (f st) -> wpo (modify f) st Q.
Proof. done. Qed.

Lemma during_load_grows st s s' :
  during_load st s -> grows [] s s' -> during_load st s'.
Proof.
  intros (Hcells & Happ & Heff & Hel) [_ Hg Hw]. unfold world in Hw.
  injection Hw as Ha He Hf _ _ _. split; [|split; [|split]]; try congruence.
  intros l c Hl. apply Hg; [by apply Hcells|apply not_elem_of_nil].
Qed.

Lemma catch_run e s :
  (App.set_failed e;; App.logError "loadTopicData" e;;
   App.showErrorState (message e);; mret VNull) s
  = (Ret VNull, fail_state e s).
Proof. reflexivity. Qed.

Lemma wpo_bind_run {A B} (m : M A) (k : A -> M B) st a st'
    (Q : outcome B -> state -> Prop) :
  m st = (Ret a, st') -> wpo (k a) st' Q -> wpo (m ≫= k) st Q.
Proof. intros Hm Hk. unfold wpo. by rewrite (bind_run _ _ _ _ _ Hm). Qed.

Lemma wpo_bind_throw {A B} (m : M A) (k : A -> M B) st e st'
    (Q : outcome B -> state -> Prop) :
  m st = (Throw e, st') -> Q (Throw e) st' -> wpo (m ≫= k) st Q.
Proof. intros Hm HQ. unfold wpo. by rewrite (bind_throw _ _ _ _ _ Hm). Qed.

Lemma validate_not_null t :
  t <> TNull ->
  validate t
  = if negb (t_truthy (field "years" t))
       || negb (t_truthy (field "categories" t))
       || negb (is_array (field "years" t))
    then Some (Exn KError "Invalid data format: missing required fields")
    else
      match first_inconsistent (length (items (field "years" t)))
              (t_entries (field "categories" t)) with
      | Some k => Some (Exn KError ("Data inconsistency in category: " +:+ k))
      | None => None
      end.
Proof. by destruct t. Qed.

Lemma years_length_run lk st v t :
  sub lk (lookup_of (heap_of st)) ->
  reads_in lk v t -> json_value t = true -> t <> TNull ->
  is_array (field "years" t) = true ->
  (y ← get v "years"; get y "length") st
  = (Ret (VNum (Z.of_nat (length (items (field "years" t))))), st).
Proof.
  intros Hsub Hv Hjson Hnull Harr.
  destruct (get_json_ret _ _ _ _ "years" (or_introl eq_refl) Hsub Hv Hjson Hnull)
    as (y & Hy & Hyr).
  rewrite (bind_run _ _ _ _ _ Hy).
  destruct (field "years" t) as [| | | | | | |ys| ]; try done.
  by rewrite (get_length_run _ _ _ _ Hsub Hyr).
Qed.

Lemma array_length_run st l vs :
  heap_of st !! l = Some (CArr vs) ->
  get (VRef l) "length" st = (Ret (VNum (Z.of_nat (length vs))), st).
Proof. intros Hl. unfold get, deref, mbind, M_bind. by rewrite Hl. Qed.

(** [Object.keys(data.categories).length] *)
Lemma wp_category_count lk st v t (Q : val -> state -> Prop) :
  sub lk (lookup_of (heap_of st)) ->
  reads_in lk v t -> json_value t = true -> t <> TNull ->
  t_truthy (field "categories" t) = true ->
  (forall st' n, grows [] st st' -> Q (VNum n) st') ->
  wp (c ← get v "categories"; k ← Object_keys c; get k "length") st Q.
Proof.
  intros Hsub Hv Hjson Hnull Htruthy HQ.
  destruct (get_json_ret _ _ _ _ "categories" (or_intror eq_refl) Hsub Hv Hjson
              Hnull) as (c & Hc & Hcr).
  apply wp_bind. eapply wp_run; [exact Hc|].
  destruct (own_entries_run _ _ _ _ Hsub Hcr (json_value_field _ _ Hjson Htruthy)
              Htruthy) as (kvs & Hrun & _).
  apply wp_bind. unfold Object_keys. apply wp_bind.
  eapply wp_run; [exact Hrun|]. apply wp_alloc. intros st' Hg Hl _.
  eapply wp_run; [by apply array_length_run|]. by apply HQ.
Qed.

Lemma for_of_run st l vs (body : val -> M unit) :
  heap_of st !! l = Some (CArr vs) ->
  for_of (VRef l) body st = foldM (fun _ x => body x) tt vs st.
Proof.
  intros Hl. unfold for_of, iterable_elems, deref, mbind, M_bind.
  by rewrite Hl.
Qed.

Lemma loadTopicData_spec st status text t :
  json_value t = true ->
  wpo (App.loadTopicData (App.Response true status text (Some t))) st
    (load_result st t).
Proof.
  intros Hjson. unfold App.loadTopicData. apply wpo_try_catch.
  match goal with |- wpo _ _ ?Q => set (Qb := Q) end.
  assert (forall s e, during_load st s -> validate t = Some e ->
            Qb (Throw e) s) as Hthrow.
  { intros s e Hs He. unfold Qb, wpo. rewrite catch_run.
    by apply load_failure. }
  apply wpo_bind. apply wpo_modify.
  match goal with |- wpo _ ?s _ => set (s1 := s) end.
  assert (during_load st s1) as Hs1.
  { split; [done|]. by repeat split. }
  cbn [negb]. apply wpo_bind, wpo_ret. cbn [App.response_json].
  eapply wpo_bind_wp; [apply wp_inject|]. intros data s2 [Hg2 Hdata].
  assert (during_load st s2) as Hs2 by (by eapply during_load_grows).
  assert (t = TNull \/ t <> TNull) as [->|Hnull]
    by (destruct t; auto; by right).
  { apply reads_in_prim in Hdata as ->.
    eapply wpo_bind_throw; [reflexivity|]. by apply Hthrow. }
  eapply wpo_bind_run; [by eapply schema_check_run; [apply sub_refl|..]|].
  rewrite (validate_not_null _ Hnull) in Hthrow.
  destruct (negb (t_truthy (field "years" t))
            || negb (t_truthy (field "categories" t))
            || negb (is_array (field "years" t))) eqn:Hinvalid.
  { eapply wpo_bind_throw; [reflexivity|]. by apply Hthrow. }
  apply orb_false_elim in Hinvalid as [[Hy Hc]%orb_false_elim Harr].
  apply negb_false_iff in Hy, Hc, Harr.
  apply wpo_bind, wpo_ret.
  eapply wpo_bind_run; [by eapply years_length_run; [apply sub_refl|..]|].
  set (lk2 := lookup_of (heap_of s2)).
  eapply (wpo_bind_wp _ _ _ (fun v s3 =>
            exists lE pairs, v = VRef lE /\ grows [] s2 s3
              /\ heap_of s3 !! lE = Some (CArr pairs)
              /\ Forall2 (pair_at lk2 (heap_of s3)) pairs
                   (t_entries (field "categories" t)))).
  { destruct (get_json_ret lk2 s2 data t "categories" (or_intror eq_refl)
                (sub_refl _) Hdata Hjson Hnull) as (c & Hcrun & Hcr).
    apply wp_bind. eapply wp_run; [exact Hcrun|].
    eapply wp_Object_entries_json;
      [apply sub_refl|exact Hcr|by apply json_value_field|exact Hc|].
    intros s3 lE pairs Hg3 HlE Hpairs. by exists lE, pairs. }
  intros entries s3 (lE & pairs & -> & Hg3 & HlE & Hpairs).
  assert (during_load st s3) as Hs3 by (by eapply during_load_grows).
  assert (sub lk2 (lookup_of (heap_of s3))) as Hsub3 by (by apply grows_sub).
  assert (for_of (VRef lE)
            (App.check_entry
               (VNum (Z.of_nat (length (items (field "years" t)))))) s3
          = match first_inconsistent (length (items (field "years" t)))
                    (t_entries (field "categories" t)) with
            | Some k =>
                (Throw (Exn KError ("Data inconsistency in category: " +:+ k)),
                 s3)
            | None => (Ret tt, s3)
            end) as Hloop.
  { rewrite (for_of_run _ _ _ _ HlE). by apply (check_loop_run lk2). }
  destruct (first_inconsistent (length (items (field "years" t)))
              (t_entries (field "categories" t))) as [k|] eqn:Hfirst.
  { eapply wpo_bind_throw; [exact Hloop|]. by apply Hthrow. }
  eapply wpo_bind_run; [exact Hloop|].
  apply wpo_bind, wpo_modify.
  match goal with |- wpo _ ?s _ => set (s4 := s) end.
  eapply (wpo_wp _ _ (fun v sF =>
            v = data
            /\ (forall l c, heap_of s4 !! l = Some c -> heap_of sF !! l = Some c)
            /\ AppState sF = AppState s4)).
  { assert (forall s, grows [] s4 s -> sub lk2 (lookup_of (heap_of s))) as Hsub.
    { intros s Hg. eapply sub_trans; [exact Hsub3|]. by apply (grows_sub s4). }
    apply wp_bind.
    eapply wp_run; [by eapply (years_length_run lk2); [exact Hsub3|..]|].
    apply wp_bind.
    eapply (wp_category_count lk2); [exact Hsub3|exact Hdata|done..|].
    intros s5 n Hg5. apply wp_bind.
    eapply wp_run; [by eapply (years_length_run lk2); [apply Hsub|..]|].
    apply wp_bind.
    eapply (wp_category_count lk2); [by apply Hsub|exact Hdata|done..|].
    intros s6 n' Hg6. apply wp_bind, wp_ret.
    apply wp_bind, wp_alloc. intros s7 Hg7 _ _.
    apply wp_bind. apply wp_run with (a := tt)
      (st' := set_effects
                (effects s7
                 ++ [ConsoleLog "[TopicEvolution] Data loaded successfully:"
                       [VRef (length (heap_of s6))]]) s7); [done|].
    apply wp_ret. split; [done|].
    assert (grows [] s4 s7) as Hg47.
    { eapply grows_trans; [exact Hg5|]. by eapply grows_trans. }
    split.
    - intros l c Hl. cbn [heap_of set_effects].
      eapply grows_cells; [exact Hg47|exact Hl|apply not_elem_of_nil].
    - destruct Hg47 as [_ _ Hw]. unfold world in Hw. by injection Hw. }
  intros v sF (-> & Hcells & Happ). unfold Qb, load_result.
  destruct Hs3 as (Hcells3 & Happ3 & _). split.
  { intros l c Hl. apply Hcells. by apply Hcells3. }
  rewrite (validate_not_null _ Hnull), Hy, Hc, Harr. cbn [negb orb].
  rewrite Hfirst. exists data. split; [done|]. split.
  - eapply reads_in_sub; [|exact Hdata]. intros l c Hl. unfold lookup_of in *.
    apply Hcells. change (heap_of s3 !! l = Some c).
    eapply grows_cells; [exact Hg3|exact Hl|apply not_elem_of_nil].
  - rewrite Happ. unfold s4, loaded. cbn. by rewrite Happ3.
Qed.

Lemma loadTopicData_run st status text t :
  json_value t = true ->
  exists o st',
    App.loadTopicData (App.Response true status text (Some t)) st = (o, st')
    /\ load_result st t o st'.
Proof.
  intros Hjson. pose proof (loadTopicData_spec st status text t Hjson) as H.
  unfold wpo in H.
  destruct (App.loadTopicData (App.Response true status text (Some t)) st)
    as [o st'] eqn:Hrun.
  by exists o, st'.
Qed.

(** Without a parsed body there is no dataset. *)
Lemma loadTopicData_no_body world st :
  (forall status text t, world <> App.Response true status text (Some t)) ->
  exists st', App.loadTopicData world st = (Ret VNull, st')
              /\ data (AppState st') = data (AppState st).
Proof.
  intros Hworld. destruct world as [e|[|] status text [t|]];
    try (by eexists); by destruct (Hworld status text t).
Qed.


Lemma first_inconsistent_None n es :
  first_inconsistent n es = None ->
  Forall (fun e => consistent n (snd e) = true) es.
Proof.
  unfold first_inconsistent. induction es as [|e es IH]; [constructor|].
  cbn [List.find]. destruct (consistent n (snd e)) eqn:He; cbn [negb]; [|done].
  intros H. constructor; [done|by apply IH].
Qed.





Lemma validate_None t :
  validate t = None ->
  exists ys,
    field "years" t = TArr ys
    /\ t_truthy (field "categories" t) = true
    /\ Forall (fun e => exists xs, snd e = TArr xs /\ length xs = length ys)
         (t_entries (field "categories" t)).
Proof.
  intros Hval. assert (t <> TNull) as Hnull by (by intros ->).
  rewrite (validate_not_null _ Hnull) in Hval.
  destruct (t_truthy (field "years" t)); [|done].
  destruct (t_truthy (field "categories" t)); [|done].
  destruct (field "years" t) as [| | | | | | |ys| ] eqn:Hy; try done.
  cbn [is_array negb orb items] in Hval. exists ys. split; [done|].
  split; [done|].
  destruct (first_inconsistent (length ys) (t_entries (field "categories" t)))
    eqn:Hfirst; [done|].
  eapply Forall_impl; [by apply first_inconsistent_None|].
  intros [k x] Hx. cbn [snd] in *. destruct x as [| | | | | | |xs| ]; try done.
  exists xs. split; [done|]. by apply Nat.eqb_eq.
Qed.

(** C8 (amended).  When the load succeeds, the value returned is the parsed
    input, stored in [AppState.data]; its [years] is an array, and every
    entry of its [categories] is an array of the same length as [years].
    Nothing is checked about the elements of these arrays, nor that [years]
    is non-empty or increasing. *)
Theorem loadTopicData_success world st v st' :
  world_json world = true ->
  App.loadTopicData world st = (Ret v, st') ->
  v <> VNull ->
  exists status text t ys,
    world = App.Response true status text (Some t)
    /\ reads (heap_of st') v t
    /\ AppState st' = loaded v (AppState st)
    /\ field "years" t = TArr ys
    /\ t_truthy (field "categories" t) = true
    /\ Forall (fun e => exists xs, snd e = TArr xs /\ length xs = length ys)
         (t_entries (field "categories" t)).
Proof.
  intros Hjson Hrun Hv.
  destruct world as [e|[|] status text [t|]];
    try (by injection Hrun as <- _).
  destruct (loadTopicData_run st status text t Hjson)
    as (o & st'' & Hrun' & _ & Hres).
  rewrite Hrun in Hrun'. injection Hrun' as <- <-.
  destruct (validate t) as [e|] eqn:Hval.
  { destruct Hres as ([= ->] & _). done. }
  destruct Hres as (v' & [= <-] & Hreads & Happ).
  destruct (validate_None _ Hval) as (ys & Hy & Hc & Hall).
  by exists status, text, t, ys.
Qed.

Lemma loadTopicData_success_witness :
  world_json (App.Response true 200 "OK" (Some dataset_scenario)) = true
  /\ exists v st',
       App.loadTopicData (App.Response true 200 "OK" (Some dataset_scenario))
         state_init = (Ret v, st')
       /\ v <> VNull
       /\ exists ys,
            reads (heap_of st') v dataset_scenario
            /\ AppState st' = loaded v AppState_init
            /\ field "years" dataset_scenario = TArr ys
            /\ Forall (fun e => exists xs, snd e = TArr xs
                                          /\ length xs = length ys)
                 (t_entries (field "categories" dataset_scenario)).
Proof.
  split; [reflexivity|].
  pose (r := App.loadTopicData
               (App.Response true 200 "OK" (Some dataset_scenario)) state_init).
  assert (r = (Ret (VRef 4), snd r)) as Hrun by (vm_compute; reflexivity).
  exists (VRef 4), (snd r). split; [exact Hrun|]. split; [discriminate|].
  destruct (loadTopicData_success
              (App.Response true 200 "OK" (Some dataset_scenario)) state_init
              (VRef 4) (snd r) eq_refl Hrun ltac:(discriminate))
    as (status & text & t & ys & Hw & Hr & Happ & Hy & _ & Hall).
  injection Hw as _ _ <-. exists ys. split; [exact Hr|]. split; [exact Happ|].
  split; [exact Hy|exact Hall].
Defined.

(** C8 as stated fails: the load succeeds on years that decrease and a
    negative count, on an empty [years], and on a year and a count that are
    not integers. *)
Lemma loadTopicData_accepts_invalid :
  (valid_dataset dataset_unordered = false
   /\ strictly_increasing (number_of <$> items (field "years" dataset_unordered))
      = false
   /\ field "categories" dataset_unordered
      = TObj [("A", TArr [TNum (-1); TNum 5])]
   /\ loads dataset_unordered)
  /\ (valid_dataset dataset_no_years = false
      /\ field "years" dataset_no_years = TArr []
      /\ loads dataset_no_years)
  /\ (valid_dataset dataset_fractions = false
      /\ field "years" dataset_fractions = TArr [TDec 20205 1]
      /\ field "categories" dataset_fractions = TObj [("A", TArr [TDec 5 1])]
      /\ loads dataset_fractions).
Proof.
  assert (forall t v st',
            App.loadTopicData (App.Response true 200 "OK" (Some t)) state_init
            = (Ret v, st') ->
            v <> VNull -> data (AppState st') = v ->
            error (AppState st') = None ->
            readback 3 (lookup_of (heap_of st')) v = Some t -> loads t) as Hloads.
  { intros t v st' Hrun Hv Hdata Herr Hread. exists v, st'.
    split; [done|]. split; [done|]. split; [done|]. split; [done|].
    by exists 3. }
  split; [|split].
  - split; [by vm_compute|]. split; [by vm_compute|]. split; [by vm_compute|].
    eapply Hloads; [by vm_compute|done|by vm_compute..].
  - split; [by vm_compute|]. split; [by vm_compute|].
    eapply Hloads; [by vm_compute|done|by vm_compute..].
  - split; [by vm_compute|]. split; [by vm_compute|]. split; [by vm_compute|].
    eapply Hloads; [by vm_compute|done|by vm_compute..].
Qed.

(** C5 at [categories] that is an array: the structure check lets it
    through, the load succeeds and populates [AppState.data]. *)
Theorem loadTopicData_accepts_array_categories :
  json_value dataset_categories_array = true
  /\ field "categories" dataset_categories_array = TArr [TArr [TNum 7]]
  /\ exists v st',
       App.loadTopicData
         (App.Response true 200 "OK" (Some dataset_categories_array)) state_init
       = (Ret v, st')
       /\ v <> VNull
       /\ data (AppState st') = v
       /\ error (AppState st') = None
       /\ readback 4 (lookup_of (heap_of st')) v = Some dataset_categories_array.
Proof.
  split; [by vm_compute|]. split; [by vm_compute|].
  eexists _, _. split; [by vm_compute|].
  split; [done|]. split; [by vm_compute|]. split; by vm_compute.
Qed.

(** What C5 says does hold when [years] or [categories] is absent or falsy,
    or [years] is not an array, on an input other than [null]. *)
Lemma loadTopicData_schema_error st status text t :
  json_value t = true -> t <> TNull ->
  t_truthy (field "years" t) = false
  \/ t_truthy (field "categories" t) = false
  \/ is_array (field "years" t) = false ->
  exists st',
    App.loadTopicData (App.Response true status text (Some t)) st
    = (Ret VNull, st')
    /\ error (AppState st')
       = Some (Exn KError "Invalid data format: missing required fields")
    /\ data (AppState st') = data (AppState st).
Proof.
  intros Hjson Hnull Hbad.
  destruct (loadTopicData_run st status text t Hjson) as (o & st' & Hrun & _ & Hres).
  rewrite (validate_not_null _ Hnull) in Hres.
  assert (negb (t_truthy (field "years" t))
          || negb (t_truthy (field "categories" t))
          || negb (is_array (field "years" t)) = true) as Hcond.
  { destruct Hbad as [-> | [-> | ->]]; cbn [negb orb];
      by rewrite ?orb_true_r. }
  rewrite Hcond in Hres. destruct Hres as (-> & Happ & _).
  exists st'. split; [done|]. by rewrite Happ.
Qed.

End Loader.

(** * Resizing *)

Section Resize.

Lemma resize_event_run st :
  one_listener st ->
  exists st' d',
    App.resize_event st = (Ret tt, st')
    /\ resizeListeners st' = [d'] /\ timeout d' = Some (nextTimer st)
    /\ timers st' = [(nextTimer st, 0)]
    /\ heap_of st' = heap_of st /\ AppState st' = AppState st
    /\ effects st' = effects st /\ chartElement st' = chartElement st.
Proof.
  intros (d & Hd & Htimers).
  assert (filter (fun p : nat * nat => Some (fst p) <> timeout d) (timers st) = [])
    as Hclear.
  { destruct Htimers as [->|(t & Ht & ->)]; [done|].
    rewrite filter_cons, decide_False; [done|]. intros Hne. by apply Hne. }
  unfold App.resize_event, App.executedFunction, get_state, mbind, M_bind.
  rewrite Hd. cbn [length seq foldM mbind M_bind lookup list_lookup].
  unfold mbind, M_bind. cbn [lookup list_lookup].
  unfold App.clearTimeout, App.setTimeout, App.set_timeout_var, modify,
    set_timing. cbn.
  rewrite Hd. cbn. rewrite Hd, Hclear. cbn.
  eexists _, _. split; [reflexivity|]. cbn. by repeat split.
Qed.

Lemma resize_event_one_listener st st' :
  one_listener st -> App.resize_event st = (Ret tt, st') -> one_listener st'.
Proof.
  intros Hone Hrun.
  destruct (resize_event_run st Hone) as (st'' & d' & Hrun' & Hd' & Ht & Htimers & _).
  rewrite Hrun in Hrun'. injection Hrun' as <-.
  exists d'. split; [done|]. right. by exists (nextTimer st).
Qed.

Lemma timer_fires_run st d t :
  resizeListeners st = [d] -> timeout d = Some t -> timers st = [(t, 0)] ->
  exists st',
    App.timer_fires t st = (Ret tt, st')
    /\ effects st'
       = effects st ++ (if truthy (chartInstance (AppState st))
                        then [PlotlyResize "evolution-chart"] else [])
    /\ timers st' = [] /\ resizeListeners st' = [d]
    /\ heap_of st' = heap_of st /\ AppState st' = AppState st
    /\ chartElement st' = chartElement st.
Proof.
  intros Hd Ht Htimers.
  unfold App.timer_fires, get_state, mbind, M_bind. rewrite Htimers.
  cbn [list_find fst]. rewrite decide_True by done. cbn [fmap option_fmap option_map].
  unfold App.clearTimeout, modify, set_timing, mbind, M_bind. cbn.
  rewrite Htimers, filter_cons, decide_False by (intros Hne; by apply Hne).
  cbn. unfold App.later, get_state, mbind, M_bind. cbn. rewrite Hd. cbn.
  unfold App.clearTimeout, modify, set_timing, mbind, M_bind. cbn.
  unfold App.resize_handler, get_state, mbind, M_bind. cbn.
  destruct (truthy (chartInstance (AppState st))).
  - eexists. split; [reflexivity|]. cbn. by repeat split.
  - eexists. split; [reflexivity|]. cbn. rewrite app_nil_r. by repeat split.
Qed.

Lemma burst_run k st :
  one_listener st ->
  exists st' d' t,
    times (S k) App.resize_event st = (Ret tt, st')
    /\ resizeListeners st' = [d'] /\ timeout d' = Some t
    /\ timers st' = [(t, 0)]
    /\ heap_of st' = heap_of st /\ AppState st' = AppState st
    /\ effects st' = effects st /\ chartElement st' = chartElement st.
Proof.
  revert st. induction k as [|k IH]; intros st Hone.
  - destruct (resize_event_run st Hone)
      as (st' & d' & Hrun & Hd & Ht & Htimers & Hrest).
    exists st', d', (nextTimer st). split; [|done].
    cbn [times]. by rewrite (bind_run _ _ _ _ _ Hrun).
  - destruct (resize_event_run st Hone)
      as (st1 & d1 & Hrun & Hd & Ht & Htimers & Hh & Ha & He & Hc).
    destruct (IH st1) as (st' & d' & t & Hrun' & Hd' & Ht' & Htimers' & Hh' & Ha'
                          & He' & Hc').
    { by eapply resize_event_one_listener. }
    exists st', d', t. split.
    { change (times (S (S k)) App.resize_event)
        with (App.resize_event;; times (S k) App.resize_event).
      by rewrite (bind_run _ _ _ _ _ Hrun). }
    repeat split; congruence.
Qed.

(** C7 (amended).  A burst of resize events leaves one pending call of the
    debounced listener.  When its delay elapses, the listener asks the
    rendering library to resize the chart, [Plotly.Plots.resize], if a chart
    instance exists, and does nothing otherwise; the heap and [AppState] are
    as before the burst: no series or annotation is built, and
    [Plotly.newPlot] is not called. *)
Theorem resize_burst st k :
  one_listener st ->
  exists st1 t st2,
    times (S k) App.resize_event st = (Ret tt, st1)
    /\ timers st1 = [(t, 0)]
    /\ effects st1 = effects st /\ heap_of st1 = heap_of st
    /\ App.timer_fires t st1 = (Ret tt, st2)
    /\ effects st2
       = effects st ++ (if truthy (chartInstance (AppState st))
                        then [PlotlyResize "evolution-chart"] else [])
    /\ heap_of st2 = heap_of st /\ AppState st2 = AppState st
    /\ timers st2 = [].
Proof.
  intros Hone.
  destruct (burst_run k st Hone)
    as (st1 & d1 & t & Hrun & Hd & Ht & Htimers & Hh & Ha & He & Hc).
  destruct (timer_fires_run st1 d1 t Hd Ht Htimers)
    as (st2 & Hrun2 & He2 & Ht2 & _ & Hh2 & Ha2 & _).
  exists st1, t, st2. split; [done|]. split; [done|]. split; [done|].
  split; [done|]. split; [done|]. rewrite He2, He, Ha, Hh2, Hh, Ha2, Ha.
  by repeat split.
Qed.

Lemma page_started_one_listener : one_listener page_started.
Proof.
  exists (App.debounce 250). split; [by vm_compute|]. left. by vm_compute.
Defined.

Lemma resize_burst_witness :
  one_listener page_started
  /\ exists st1 t st2,
       times 3 App.resize_event page_started = (Ret tt, st1)
       /\ timers st1 = [(t, 0)]
       /\ App.timer_fires t st1 = (Ret tt, st2)
       /\ effects st2 = effects page_started ++ [PlotlyResize "evolution-chart"]
       /\ heap_of st2 = heap_of page_started.
Proof.
  split; [exact page_started_one_listener|].
  destruct (resize_burst page_started 2 page_started_one_listener)
    as (st1 & t & st2 & Hrun & Htimers & _ & _ & Hfire & Heff & Hheap & _).
  exists st1, t, st2. split; [exact Hrun|]. split; [exact Htimers|].
  split; [exact Hfire|]. split; [exact Heff|exact Hheap].
Defined.

(** C7 as stated fails: after a resize of the started page the only call to
    the library is [Plotly.Plots.resize] and the heap is unchanged, whereas
    rebuilding and rendering again allocates new series and calls
    [Plotly.newPlot]. *)
Lemma resize_does_not_rebuild :
  truthy (chartInstance (AppState page_started)) = true
  /\ exists st1 st2 traces layout,
       (App.resize_event;; App.timer_fires 0) page_started = (Ret tt, st1)
       /\ effects st1 = effects page_started ++ [PlotlyResize "evolution-chart"]
       /\ heap_of st1 = heap_of page_started
       /\ rebuild_and_rerender (App.Resolves (VNative "div#evolution-chart"))
            page_started = (Ret tt, st2)
       /\ effects st2
          = effects page_started
            ++ [PlotlyNewPlot "evolution-chart" traces layout]
       /\ length (heap_of page_started) < length (heap_of st2)
       /\ effects st1 <> effects st2.
Proof.
  split; [by vm_compute|]. eexists _, _, _, _.
  split; [by vm_compute|]. split; [by vm_compute|]. split; [by vm_compute|].
  split; [by vm_compute|]. split; [by vm_compute|]. split.
  - vm_compute. lia.
  - by vm_compute.
Qed.

End Resize.


(** * The loader: every path *)

Section Transport.

(** [loadTopicData] on a response whose status is not a success: the body
    is not parsed; the error [HTTP <status>: <statusText>] is recorded in
    [AppState.error], logged and displayed, [AppState.data] stays as it was,
    and the result is [null]. *)
Theorem loadTopicData_http_error st status statusText body :
  exists st',
    App.loadTopicData (App.Response false status statusText body) st
    = (Ret VNull, st')
    /\ AppState st'
       = failed (Exn KError ("HTTP " +:+ pretty status +:+ ": " +:+ statusText))
           (AppState st)
    /\ chartElement st'
       = shows (RError ("HTTP " +:+ pretty status +:+ ": " +:+ statusText)) st
    /\ effects st'
       = effects st
         ++ [ConsoleError "[TopicEvolution] Error in loadTopicData:"
               (Exn KError ("HTTP " +:+ pretty status +:+ ": " +:+ statusText))]
    /\ heap_of st' = heap_of st
    /\ timing st' = timing st.
Proof.
  eexists. split; [reflexivity|]. cbn. unfold shows.
  by destruct (chartElement st).
Qed.

(** [loadTopicData] when [fetch] rejects with [e], and when the body of a
    successful response is not JSON: the rejection reason, in the second case
    a [SyntaxError], is recorded, logged and its message displayed; the
    result is [null] and [AppState.data] stays as it was. *)
Theorem loadTopicData_no_response st response :
  (exists e, response = App.NetworkError e)
  \/ (exists status statusText,
        response = App.Response true status statusText None) ->
  exists st' e,
    App.loadTopicData response st = (Ret VNull, st')
    /\ match response with
       | App.NetworkError e' => e = e'
       | _ => ekind e = KSyntaxError
       end
    /\ AppState st' = failed e (AppState st)
    /\ chartElement st' = shows (RError (message e)) st
    /\ effects st'
       = effects st ++ [ConsoleError "[TopicEvolution] Error in loadTopicData:" e]
    /\ heap_of st' = heap_of st
    /\ timing st' = timing st.
Proof.
  intros [[e ->]|(status & statusText & ->)].
  - eexists _, e. split; [reflexivity|]. cbn. unfold shows. by destruct (chartElement st).
  - eexists _, (Exn KSyntaxError _). split; [reflexivity|]. cbn.
    unfold shows. by destruct (chartElement st).
Qed.

Lemma loadTopicData_no_response_witness :
  ((exists e, App.NetworkError (Exn KTypeError "Failed to fetch")
              = App.NetworkError e)
   \/ (exists status statusText,
         App.NetworkError (Exn KTypeError "Failed to fetch")
         = App.Response true status statusText None))
  /\ exists st' e,
       App.loadTopicData
         (App.NetworkError (Exn KTypeError "Failed to fetch")) state_init
       = (Ret VNull, st')
       /\ e = Exn KTypeError "Failed to fetch"
       /\ error (AppState st') = Some e
       /\ chartElement st' = Some (RError "Failed to fetch").
Proof.
  split; [left; by eexists|].
  destruct (loadTopicData_no_response state_init
              (App.NetworkError (Exn KTypeError "Failed to fetch"))
              (or_introl (ex_intro _ _ eq_refl)))
    as (st' & e & Hrun & He & Happ & Hel & _).
  exists st', e. split; [exact Hrun|]. split; [exact He|].
  split; [by rewrite Happ|]. by rewrite Hel, He.
Defined.

End Transport.

(** * The loader, state by state *)

Section Report.

Lemma loading_grows st s s' : loading st s -> grows [] s s' -> loading st s'.
Proof.
  intros [Hl Ht] Hg. split; [by eapply during_load_grows|].
  destruct Hg as [_ _ Hw]. unfold world in Hw. injection Hw as _ _ _ Hls Hts Hn.
  unfold timing in *. by rewrite Hls, Hts, Hn.
Qed.

Lemma load_failure_outcome st s e t :
  loading st s -> validate t = Some e ->
  load_outcome st t (Ret VNull) (fail_state e s).
Proof.
  intros [(Hcells & Happ & Heff & Hel) Ht] Hval. split; [done|].
  split; [done|]. rewrite Hval. split; [done|]. unfold fail_state, shows. cbn.
  rewrite Happ, Heff, Hel. split; [done|]. split; [|done].
  by destruct (chartElement st).
Qed.

(** [Object.keys(data.categories).length] *)
Lemma wp_category_count_exact lk st v t (Q : val -> state -> Prop) :
  sub lk (lookup_of (heap_of st)) ->
  reads_in lk v t -> json_value t = true -> t <> TNull ->
  t_truthy (field "categories" t) = true ->
  (forall st', grows [] st st' ->
     Q (VNum (Z.of_nat (length (t_entries (field "categories" t))))) st') ->
  wp (c ← get v "categories"; k ← Object_keys c; get k "length") st Q.
Proof.
  intros Hsub Hv Hjson Hnull Htruthy HQ.
  destruct (get_json_ret _ _ _ _ "categories" (or_intror eq_refl) Hsub Hv Hjson
              Hnull) as (c & Hc & Hcr).
  apply wp_bind. eapply wp_run; [exact Hc|].
  destruct (own_entries_run _ _ _ _ Hsub Hcr (json_value_field _ _ Hjson Htruthy)
              Htruthy) as (kvs & Hrun & Hkvs).
  apply wp_bind. unfold Object_keys. apply wp_bind.
  eapply wp_run; [exact Hrun|]. apply wp_alloc. intros st' Hg Hl _.
  eapply wp_run; [by apply array_length_run|].
  rewrite length_fmap, (Forall2_length _ _ _ Hkvs). by apply HQ.
Qed.

Lemma loadTopicData_report st status text t :
  json_value t = true ->
  wpo (App.loadTopicData (App.Response true status text (Some t))) st
    (load_outcome st t).
Proof.
  intros Hjson. unfold App.loadTopicData. apply wpo_try_catch.
  match goal with |- wpo _ _ ?Q => set (Qb := Q) end.
  assert (forall s e, loading st s -> validate t = Some e ->
            Qb (Throw e) s) as Hthrow.
  { intros s e Hs He. unfold Qb, wpo. rewrite catch_run.
    by apply load_failure_outcome. }
  apply wpo_bind. apply wpo_modify.
  match goal with |- wpo _ ?s _ => set (s1 := s) end.
  assert (loading st s1) as Hs1.
  { split; [|done]. split; [done|]. by repeat split. }
  cbn [negb]. apply wpo_bind, wpo_ret. cbn [App.response_json].
  eapply wpo_bind_wp; [apply wp_inject|]. intros data s2 [Hg2 Hdata].
  assert (loading st s2) as Hs2 by (by eapply loading_grows).
  assert (t = TNull \/ t <> TNull) as [->|Hnull]
    by (destruct t; auto; by right).
  { apply reads_in_prim in Hdata as ->.
    eapply wpo_bind_throw; [reflexivity|]. by apply Hthrow. }
  eapply wpo_bind_run; [by eapply schema_check_run; [apply sub_refl|..]|].
  rewrite (validate_not_null _ Hnull) in Hthrow.
  destruct (negb (t_truthy (field "years" t))
            || negb (t_truthy (field "categories" t))
            || negb (is_array (field "years" t))) eqn:Hinvalid.
  { eapply wpo_bind_throw; [reflexivity|]. by apply Hthrow. }
  apply orb_false_elim in Hinvalid as [[Hy Hc]%orb_false_elim Harr].
  apply negb_false_iff in Hy, Hc, Harr.
  apply wpo_bind, wpo_ret.
  eapply wpo_bind_run; [by eapply years_length_run; [apply sub_refl|..]|].
  set (lk2 := lookup_of (heap_of s2)).
  eapply (wpo_bind_wp _ _ _ (fun v s3 =>
            exists lE pairs, v = VRef lE /\ grows [] s2 s3
              /\ heap_of s3 !! lE = Some (CArr pairs)
              /\ Forall2 (pair_at lk2 (heap_of s3)) pairs
                   (t_entries (field "categories" t)))).
  { destruct (get_json_ret lk2 s2 data t "categories" (or_intror eq_refl)
                (sub_refl _) Hdata Hjson Hnull) as (c & Hcrun & Hcr).
    apply wp_bind. eapply wp_run; [exact Hcrun|].
    eapply wp_Object_entries_json;
      [apply sub_refl|exact Hcr|by apply json_value_field|exact Hc|].
    intros s3 lE pairs Hg3 HlE Hpairs. by exists lE, pairs. }
  intros entries s3 (lE & pairs & -> & Hg3 & HlE & Hpairs).
  assert (loading st s3) as Hs3 by (by eapply loading_grows).
  assert (sub lk2 (lookup_of (heap_of s3))) as Hsub3 by (by apply grows_sub).
  assert (for_of (VRef lE)
            (App.check_entry
               (VNum (Z.of_nat (length (items (field "years" t)))))) s3
          = match first_inconsistent (length (items (field "years" t)))
                    (t_entries (field "categories" t)) with
            | Some k =>
                (Throw (Exn KError ("Data inconsistency in category: " +:+ k)),
                 s3)
            | None => (Ret tt, s3)
            end) as Hloop.
  { rewrite (for_of_run _ _ _ _ HlE). by apply (check_loop_run lk2). }
  destruct (first_inconsistent (length (items (field "years" t)))
              (t_entries (field "categories" t))) as [k|] eqn:Hfirst.
  { eapply wpo_bind_throw; [exact Hloop|]. by apply Hthrow. }
  eapply wpo_bind_run; [exact Hloop|].
  apply wpo_bind, wpo_modify.
  match goal with |- wpo _ ?s _ => set (s4 := s) end.
  eapply (wpo_wp _ _ (fun v sF =>
            v = data
            /\ exists stats s7,
                 grows [] s4 s7
                 /\ sF = set_effects
                           (effects s7
                            ++ [ConsoleLog
                                  "[TopicEvolution] Data loaded successfully:"
                                  [stats]]) s7
                 /\ reads (heap_of s7) stats (stats_tree t))).
  { assert (forall s, grows [] s4 s -> sub lk2 (lookup_of (heap_of s))) as Hsub.
    { intros s Hg. eapply sub_trans; [exact Hsub3|]. by apply (grows_sub s4). }
    apply wp_bind.
    eapply wp_run; [by eapply (years_length_run lk2); [exact Hsub3|..]|].
    apply wp_bind.
    eapply (wp_category_count_exact lk2); [exact Hsub3|exact Hdata|done..|].
    intros s5 Hg5. apply wp_bind.
    eapply wp_run; [by eapply (years_length_run lk2); [apply Hsub|..]|].
    apply wp_bind.
    eapply (wp_category_count_exact lk2); [by apply Hsub|exact Hdata|done..|].
    intros s6 Hg6. apply wp_bind, wp_ret.
    apply wp_bind, wp_alloc. intros s7 Hg7 Hstats _.
    apply wp_bind. apply wp_run with (a := tt)
      (st' := set_effects
                (effects s7
                 ++ [ConsoleLog "[TopicEvolution] Data loaded successfully:"
                       [VRef (length (heap_of s6))]]) s7); [done|].
    apply wp_ret. split; [done|]. exists (VRef (length (heap_of s6))), s7.
    split; [eapply grows_trans; [exact Hg5|]; by eapply grows_trans|].
    split; [done|]. eapply reads_in_obj; [exact Hstats|].
    repeat constructor; by exists 0. }
  intros v sF (-> & stats & s7 & Hg47 & -> & Hstats). unfold Qb, load_outcome.
  destruct Hs3 as [(Hcells3 & Happ3 & Heff3 & Hel3) Ht3].
  assert (world s7 = world s4) as Hw by (by destruct Hg47).
  unfold world in Hw. injection Hw as Ha7 Hel7 Heff7 Hls7 Hts7 Hn7.
  cbn [heap_of set_effects]. split.
  { intros l c Hl. eapply grows_cells; [exact Hg47| |apply not_elem_of_nil].
    by apply Hcells3. }
  split.
  { unfold timing in *. cbn. by rewrite Hls7, Hts7, Hn7. }
  rewrite (validate_not_null _ Hnull), Hy, Hc, Harr. cbn [negb orb].
  rewrite Hfirst. exists data, stats. split; [done|]. split.
  { eapply grows_reads; [exact Hg47|]. change (reads (heap_of s3) data t).
    eapply grows_reads; [exact Hg3|]. exact Hdata. }
  cbn. rewrite Ha7, Hel7, Heff7. unfold s4, loaded, shows. cbn.
  rewrite Happ3, Hel3, Heff3. by repeat split.
Qed.

Lemma loadTopicData_report_run st status text t :
  json_value t = true ->
  exists o st',
    App.loadTopicData (App.Response true status text (Some t)) st = (o, st')
    /\ load_outcome st t o st'.
Proof.
  intros Hjson. pose proof (loadTopicData_report st status text t Hjson) as H.
  unfold wpo in H.
  destruct (App.loadTopicData (App.Response true status text (Some t)) st)
    as [o st'] eqn:Hrun.
  by exists o, st'.
Qed.

End Report.

(** * [createChartLayout] computes [layout_tree] *)

Section Layout.

Variables (st0 : state) (data : val) (d : tree).
Hypothesis Hdata : reads (heap_of st0) data d.
Hypothesis Hd : is_dataset d = true.

Lemma wp_new_object st ps ms (Q : val -> state -> Prop) :
  Forall2 (same_keys (reads (heap_of st))) ps ms ->
  (forall st' p,
     grows [] st st' -> reads (heap_of st') (VRef p) (TObj ms) ->
     Q (VRef p) st') ->
  wp (new_object ps) st Q.
Proof.
  intros Hps HQ. unfold new_object. apply wp_alloc. intros st' Hg Hc _.
  apply HQ; [done|]. eapply reads_in_obj; [exact Hc|].
  eapply Forall2_impl; [exact Hps|]. intros p m [Hk Hr]. split; [done|].
  by eapply grows_reads.
Qed.

Lemma mapM_toString zs st :
  mapM App.toString_method (VNum <$> zs) st
  = (Ret ((fun z => VStr (pretty z)) <$> zs), st).
Proof.
  induction zs as [|z zs IH]; [done|].
  rewrite !fmap_cons. cbn [mapM App.toString_method]. unfold mbind, M_bind.
  cbn [mret M_ret]. unfold mbind, M_bind in IH. by rewrite IH.
Qed.

(** [data.years.map(year => year.toString())] *)
Lemma wp_ticktext st years (Q : val -> state -> Prop) :
  reads (heap_of st) years (field "years" d) ->
  (forall st' r,
     grows [] st st' ->
     reads (heap_of st') r (TArr (tick_label <$> items (field "years" d))) ->
     Q r st') ->
  wp (Array_map App.toString_method years) st Q.
Proof using Hd.
  intros Hyears HQ.
  destruct (is_dataset_inv _ Hd) as (ms & cs & _ & _ & Hnum & _).
  unfold Array_map. apply wp_bind.
  eapply (wp_number_array st); [apply sub_refl|exact Hyears|exact Hnum|].
  intros l -> Hl. cbn [snd]. apply wp_bind.
  eapply wp_run; [apply mapM_toString|].
  apply wp_alloc. intros st' Hg' Hc _. apply HQ; [done|].
  eapply reads_in_arr; [exact Hc|].
  rewrite <- list_fmap_compose. apply Forall2_fmap.
  apply Forall2_same_length_lookup. split; [done|].
  intros i x y Hx Hy. assert (x = y) as -> by congruence. by exists 0.
Qed.

Ltac forward HG Hg :=
  repeat match goal with
  | H : reads (heap_of ?s) _ _ |- _ =>
      lazymatch type of Hg with
      | grows [] s _ => apply (grows_reads _ _ _ _ Hg) in H
      end
  end;
  let HG' := fresh in
  pose proof (grows_trans _ _ _ _ HG Hg) as HG'; clear HG Hg; rename HG' into HG.

Ltac members_read :=
  repeat (lazymatch goal with
          | |- Forall2 _ ((?k, _) :: _) _ =>
              eapply (List.Forall2_cons _ (k, _))
          end;
          [split; [reflexivity|first [by exists 0|eassumption]]|]);
  apply List.Forall2_nil.

Ltac object HG H :=
  apply wp_bind; eapply wp_new_object;
  [members_read
  |let s := fresh "s" in
   let p := fresh "p" in
   let Hg := fresh "Hg" in
   intros s p Hg H; forward HG Hg].

Lemma createChartLayout_spec :
  wp (App.createChartLayout data) st0 (fun r st' =>
    grows [] st0 st' /\ reads (heap_of st') r (layout_tree d)).
Proof using Hdata Hd.
  pose proof Hdata as Hdat. pose proof (grows_refl [] st0) as HG.
  unfold App.createChartLayout.
  object HG Htitle_font. object HG Htitle.
  object HG Hx_font. object HG Hx_title.
  apply wp_bind.
  match goal with |- wp _ ?s _ =>
    apply (wp_get_field s data d Hdat Hd s); [apply sub_refl|done|]
  end.
  intros tickvals Htickvals.
  change (reads (heap_of s2) tickvals (field "years" d)) in Htickvals.
  apply wp_bind.
  match goal with |- wp _ ?s _ =>
    apply (wp_get_field s data d Hdat Hd s); [apply sub_refl|done|]
  end.
  intros years Hyears.
  change (reads (heap_of s2) years (field "years" d)) in Hyears.
  apply wp_bind. apply wp_ticktext; [exact Hyears|].
  intros s' ticktext Hg Hticktext. forward HG Hg.
  object HG Hx_tickfont. object HG Hxaxis.
  object HG Hy_font. object HG Hy_title. object HG Hy_tickfont.
  object HG Hyaxis. object HG Hhover_font. object HG Hhoverlabel.
  object HG Hlegend_font. object HG Hlegend. object HG Hmargin.
  apply wp_bind. eapply wp_mono.
  { match goal with |- wp _ ?s _ =>
      apply (createDynamicAnnotations_spec s data d Hdat Hd)
    end. }
  intros annotations s'' [Hg Hannotations].
  change (reads (heap_of s'') annotations (TArr (annotations_of d)))
    in Hannotations.
  forward HG Hg.
  eapply wp_new_object; [members_read|].
  intros sF pF Hg Hlayout. split; [by eapply grows_trans|exact Hlayout].
Qed.

End Layout.

(** * What a load leaves behind *)

Section Settled.

Lemma reads_not_null h v t : reads h v t -> t <> TNull -> v <> VNull.
Proof. intros [n Hn] Ht ->. destruct n; simpl in Hn; congruence. Qed.

Lemma validate_TNull t : validate t = None -> t <> TNull.
Proof. by intros H ->. Qed.

(** A failed load, whatever made it fail. *)
Lemma loadTopicData_failure_run st response e :
  world_json response = true -> load_error response = Some e ->
  exists st',
    App.loadTopicData response st = (Ret VNull, st')
    /\ (forall l c, heap_of st !! l = Some c -> heap_of st' !! l = Some c)
    /\ world st'
       = (failed e (AppState st), shows (RError (message e)) st,
          effects st ++ [ConsoleError "[TopicEvolution] Error in loadTopicData:" e],
          resizeListeners st, timers st, nextTimer st).
Proof.
  intros Hjson He. destruct response as [e'|[|] status text [t|]];
    cbn [load_error] in He; try injection He as <-;
    try (eexists; split; [reflexivity|]; split; [done|];
         unfold world, shows; cbn; by destruct (chartElement st)).
  destruct (loadTopicData_report_run st status text t Hjson)
    as (o & st' & Hrun & Hcells & Ht & Hres).
  rewrite He in Hres. destruct Hres as (-> & Happ & Hel & Heff).
  exists st'. split; [done|]. split; [done|]. unfold world.
  unfold timing in Ht. injection Ht as -> -> ->. by rewrite Happ, Hel, Heff.
Qed.

(** A successful load. *)
Lemma loadTopicData_success_run st status text t :
  json_value t = true -> validate t = None ->
  exists v stats st',
    App.loadTopicData (App.Response true status text (Some t)) st = (Ret v, st')
    /\ (forall l c, heap_of st !! l = Some c -> heap_of st' !! l = Some c)
    /\ reads (heap_of st') v t
    /\ reads (heap_of st') stats (stats_tree t)
    /\ world st'
       = (loaded v (AppState st), shows RLoading st,
          effects st
          ++ [ConsoleLog "[TopicEvolution] Data loaded successfully:" [stats]],
          resizeListeners st, timers st, nextTimer st).
Proof.
  intros Hjson Hval.
  destruct (loadTopicData_report_run st status text t Hjson)
    as (o & st' & Hrun & Hcells & Ht & Hres).
  rewrite Hval in Hres.
  destruct Hres as (v & stats & -> & Hv & Happ & Hel & Heff & Hstats).
  exists v, stats, st'. split; [done|]. split; [done|]. split; [done|].
  split; [done|]. unfold world. unfold timing in Ht. injection Ht as -> -> ->.
  by rewrite Happ, Hel, Heff.
Qed.

(** Whatever the response, and whatever JSON it carries, [loadTopicData]
    returns normally: it does not throw.  Afterwards [AppState.isLoading] is
    false; the result is [null] exactly when [AppState.error] is set, and
    then [AppState.data] is as before; otherwise the result is what
    [AppState.data] holds.  Nothing that was on the heap is written, and no
    listener or timer is touched. *)
Theorem loadTopicData_settles st response :
  world_json response = true ->
  exists v st',
    App.loadTopicData response st = (Ret v, st')
    /\ isLoading (AppState st') = false
    /\ (v = VNull <-> error (AppState st') <> None)
    /\ (v = VNull -> data (AppState st') = data (AppState st))
    /\ (v <> VNull -> data (AppState st') = v)
    /\ chartInstance (AppState st') = chartInstance (AppState st)
    /\ (forall l c, heap_of st !! l = Some c -> heap_of st' !! l = Some c)
    /\ timing st' = timing st.
Proof.
  intros Hjson. destruct (load_error response) as [e|] eqn:He.
  - destruct (loadTopicData_failure_run st response e Hjson He)
      as (st' & Hrun & Hcells & Hw).
    unfold world in Hw. injection Hw as Happ _ _ Hls Hts Hn.
    exists VNull, st'. rewrite Happ. unfold timing. rewrite Hls, Hts, Hn.
    repeat split; try done.
  - destruct response as [e'|[|] status text [t|]]; try done.
    cbn [load_error world_json] in *.
    destruct (loadTopicData_success_run st status text t Hjson He)
      as (v & stats & st' & Hrun & Hcells & Hv & _ & Hw).
    unfold world in Hw. injection Hw as Happ _ _ Hls Hts Hn.
    pose proof (reads_not_null _ _ _ Hv (validate_TNull _ He)) as Hnn.
    exists v, st'. rewrite Happ. unfold timing. rewrite Hls, Hts, Hn.
    repeat split; try done.
Qed.

Lemma loadTopicData_settles_witness :
  world_json (App.Response true 200 "OK" (Some dataset_short_category)) = true
  /\ exists v st',
       App.loadTopicData
         (App.Response true 200 "OK" (Some dataset_short_category)) state_init
       = (Ret v, st')
       /\ isLoading (AppState st') = false
       /\ (v = VNull <-> error (AppState st') <> None).
Proof.
  split; [reflexivity|].
  destruct (loadTopicData_settles state_init
              (App.Response true 200 "OK" (Some dataset_short_category))
              eq_refl)
    as (v & st' & Hrun & Hl & Hiff & _).
  exists v, st'. split; [exact Hrun|]. split; [exact Hl|exact Hiff].
Defined.

(** A load whose checks pass logs one line, with the number of years, the
    number of categories and their product; it returns the parsed value and
    stores it in [AppState.data]; the chart element still shows the loading
    placeholder. *)
Theorem loadTopicData_success_report st status text t :
  json_value t = true -> validate t = None ->
  exists v stats st',
    App.loadTopicData (App.Response true status text (Some t)) st = (Ret v, st')
    /\ reads (heap_of st') v t
    /\ AppState st' = loaded v (AppState st)
    /\ effects st'
       = effects st
         ++ [ConsoleLog "[TopicEvolution] Data loaded successfully:" [stats]]
    /\ reads (heap_of st') stats
         (TObj [("years", TNum (Z.of_nat (length (items (field "years" t)))));
                ("categories",
                 TNum (Z.of_nat (length (t_entries (field "categories" t)))));
                ("totalDataPoints",
                 TNum (Z.of_nat (length (items (field "years" t)))
                       * Z.of_nat (length (t_entries (field "categories" t)))))])
    /\ chartElement st' = shows RLoading st.
Proof.
  intros Hjson Hval.
  destruct (loadTopicData_success_run st status text t Hjson Hval)
    as (v & stats & st' & Hrun & _ & Hv & Hstats & Hw).
  unfold world in Hw. injection Hw as Happ Hel Heff _ _ _.
  by exists v, stats, st'.
Qed.

Lemma loadTopicData_success_report_witness :
  json_value dataset_scenario = true
  /\ validate dataset_scenario = None
  /\ exists v stats st',
       App.loadTopicData (App.Response true 200 "OK" (Some dataset_scenario))
         state_init = (Ret v, st')
       /\ effects st'
          = [ConsoleLog "[TopicEvolution] Data loaded successfully:" [stats]]
       /\ reads (heap_of st') stats
            (TObj [("years", TNum 2); ("categories", TNum 2);
                   ("totalDataPoints", TNum 4)])
       /\ chartElement st' = Some RLoading.
Proof.
  split; [reflexivity|]. split; [reflexivity|].
  destruct (loadTopicData_success_report state_init 200 "OK" dataset_scenario
              eq_refl eq_refl)
    as (v & stats & st' & Hrun & _ & _ & Heff & Hstats & Hel).
  exists v, stats, st'. split; [exact Hrun|]. split; [exact Heff|].
  split; [exact Hstats|exact Hel].
Defined.

Lemma loadTopicData_schema_error_witness :
  json_value dataset_years_object = true
  /\ dataset_years_object <> TNull
  /\ is_array (field "years" dataset_years_object) = false
  /\ exists st',
       App.loadTopicData
         (App.Response true 200 "OK" (Some dataset_years_object)) state_init
       = (Ret VNull, st')
       /\ error (AppState st')
          = Some (Exn KError "Invalid data format: missing required fields")
       /\ data (AppState st') = VNull.
Proof.
  split; [reflexivity|]. split; [discriminate|]. split; [reflexivity|].
  destruct (loadTopicData_schema_error state_init 200 "OK" dataset_years_object
              eq_refl ltac:(discriminate) (or_intror (or_intror eq_refl)))
    as (st' & Hrun & Herr & Hdata).
  exists st'. split; [exact Hrun|]. split; [exact Herr|exact Hdata].
Defined.

End Settled.

(** * The layout *)

Section Axis.

Lemma createChartLayout_run st data d n :
  readback n (lookup_of (heap_of st)) data = Some d ->
  is_dataset d = true ->
  exists r st',
    App.createChartLayout data st = (Ret r, st')
    /\ grows [] st st'
    /\ reads (heap_of st') r (layout_tree d).
Proof.
  intros Hdata Hd.
  assert (reads (heap_of st) data d) as Hreads by (by exists n).
  destruct (wp_inv _ _ _ (createChartLayout_spec st data d Hreads Hd))
    as (r & st' & Hrun & Hg & Hr).
  by exists r, st'.
Qed.

(** On every dataset whose years are exact, [createChartLayout] returns a
    layout whose x axis has the dataset's years as tick values and, as tick
    texts, their decimal numerals: one text per year, in the order of the
    years. *)
Theorem createChartLayout_ticks st data d n :
  readback n (lookup_of (heap_of st)) data = Some d ->
  is_dataset d = true ->
  exact_years d = true ->
  exists r st' layout,
    App.createChartLayout data st = (Ret r, st')
    /\ reads (heap_of st') r layout
    /\ field2 "xaxis" "tickmode" layout = TStr "array"
    /\ field2 "xaxis" "tickvals" layout = field "years" d
    /\ field2 "xaxis" "ticktext" layout
       = TArr ((fun year => TStr (pretty (number_of year)))
                 <$> items (field "years" d)).
Proof.
  intros Hdata Hd _.
  destruct (createChartLayout_run _ _ _ _ Hdata Hd) as (r & st' & Hrun & _ & Hr).
  by exists r, st', (layout_tree d).
Qed.

Lemma createChartLayout_ticks_witness :
  readback 3 (lookup_of (heap_of (snd (parsed dataset_scenario))))
    (fst (parsed dataset_scenario)) = Some dataset_scenario
  /\ is_dataset dataset_scenario = true
  /\ exact_years dataset_scenario = true
  /\ exists r st' layout,
       App.createChartLayout (fst (parsed dataset_scenario))
         (snd (parsed dataset_scenario)) = (Ret r, st')
       /\ reads (heap_of st') r layout
       /\ field2 "xaxis" "tickvals" layout = TArr [TNum 2016; TNum 2017]
       /\ field2 "xaxis" "ticktext" layout = TArr [TStr "2016"; TStr "2017"].
Proof.
  split; [reflexivity|]. split; [reflexivity|]. split; [reflexivity|].
  destruct (createChartLayout_ticks (snd (parsed dataset_scenario))
              (fst (parsed dataset_scenario)) dataset_scenario 3 eq_refl eq_refl
              eq_refl)
    as (r & st' & layout & Hrun & Hr & _ & Hvals & Htext).
  exists r, st', layout. split; [exact Hrun|]. split; [exact Hr|].
  split; [exact Hvals|exact Htext].
Defined.

(** The [annotations] of the layout are those that
    [createDynamicAnnotations] returns on the same dataset. *)
Theorem createChartLayout_annotations st data d n :
  readback n (lookup_of (heap_of st)) data = Some d ->
  is_dataset d = true ->
  exists r st' layout a sta annotations,
    App.createChartLayout data st = (Ret r, st')
    /\ reads (heap_of st') r layout
    /\ App.createDynamicAnnotations data st = (Ret a, sta)
    /\ reads (heap_of sta) a annotations
    /\ field "annotations" layout = annotations.
Proof.
  intros Hdata Hd.
  destruct (createChartLayout_run _ _ _ _ Hdata Hd) as (r & st' & Hrun & _ & Hr).
  destruct (createDynamicAnnotations_run _ _ _ _ Hdata Hd)
    as (a & sta & Hruna & _ & Ha).
  by exists r, st', (layout_tree d), a, sta, (TArr (annotations_of d)).
Qed.

Lemma createChartLayout_annotations_witness :
  readback 3 (lookup_of (heap_of (snd (parsed dataset_annotated))))
    (fst (parsed dataset_annotated)) = Some dataset_annotated
  /\ is_dataset dataset_annotated = true
  /\ exists r st' layout a sta annotations,
       App.createChartLayout (fst (parsed dataset_annotated))
         (snd (parsed dataset_annotated)) = (Ret r, st')
       /\ reads (heap_of st') r layout
       /\ App.createDynamicAnnotations (fst (parsed dataset_annotated))
            (snd (parsed dataset_annotated)) = (Ret a, sta)
       /\ reads (heap_of sta) a annotations
       /\ field "annotations" layout = annotations.
Proof.
  split; [reflexivity|]. split; [reflexivity|].
  exact (createChartLayout_annotations (snd (parsed dataset_annotated))
           (fst (parsed dataset_annotated)) dataset_annotated 3 eq_refl eq_refl).
Defined.

(** [createChartLayout] writes to nothing that exists: the dataset reads as
    before, every cell that was on the heap is unchanged, and the console,
    the chart element, [AppState], the listeners and the timers are as
    before. *)
Theorem createChartLayout_frame st data d n :
  readback n (lookup_of (heap_of st)) data = Some d ->
  is_dataset d = true ->
  exists r st',
    App.createChartLayout data st = (Ret r, st')
    /\ (forall l c, heap_of st !! l = Some c -> heap_of st' !! l = Some c)
    /\ readback n (lookup_of (heap_of st')) data = Some d
    /\ world st' = world st.
Proof.
  intros Hdata Hd.
  destruct (createChartLayout_run _ _ _ _ Hdata Hd) as (r & st' & Hrun & Hg & _).
  exists r, st'. split; [done|]. split.
  { intros l c Hl. eapply grows_cells; [exact Hg|exact Hl|apply not_elem_of_nil]. }
  split; [by eapply grows_readback|by destruct Hg].
Qed.

Lemma createChartLayout_frame_witness :
  readback 3 (lookup_of (heap_of (snd (parsed dataset_scenario))))
    (fst (parsed dataset_scenario)) = Some dataset_scenario
  /\ is_dataset dataset_scenario = true
  /\ exists r st',
       App.createChartLayout (fst (parsed dataset_scenario))
         (snd (parsed dataset_scenario)) = (Ret r, st')
       /\ readback 3 (lookup_of (heap_of st')) (fst (parsed dataset_scenario))
          = Some dataset_scenario
       /\ effects st' = [].
Proof.
  split; [reflexivity|]. split; [reflexivity|].
  destruct (createChartLayout_frame (snd (parsed dataset_scenario))
              (fst (parsed dataset_scenario)) dataset_scenario 3 eq_refl eq_refl)
    as (r & st' & Hrun & _ & Hread & Hw).
  exists r, st'. split; [exact Hrun|]. split; [exact Hread|].
  unfold world in Hw. by injection Hw.
Defined.

End Axis.

(** * Rendering *)

Section Rendering.

(** What [renderChart] leaves behind on a dataset, for either answer of the
    charting library. *)
Lemma renderChart_run st plotly data d :
  reads (heap_of st) data d -> is_dataset d = true ->
  exists traces layout st',
    App.renderChart plotly data st = (Ret tt, st')
    /\ (forall l c, heap_of st !! l = Some c -> heap_of st' !! l = Some c)
    /\ reads (heap_of st') data d
    /\ reads (heap_of st') traces (TArr (traces_of d))
    /\ reads (heap_of st') layout (layout_tree d)
    /\ world st'
       = match plotly with
         | App.Resolves v =>
             (with_chart v (AppState st), shows (RChart traces layout) st,
              effects st
              ++ [PlotlyNewPlot "evolution-chart" traces layout;
                  ConsoleLog "[TopicEvolution] Chart rendered successfully" []],
              resizeListeners st ++ [App.debounce 250], timers st,
              nextTimer st)
         | App.Rejects e =>
             (AppState st,
              shows (RError "Failed to render chart visualization") st,
              effects st
              ++ [PlotlyNewPlot "evolution-chart" traces layout;
                  ConsoleError "[TopicEvolution] Error in renderChart:" e],
              resizeListeners st, timers st, nextTimer st)
         end.
Proof.
  intros Hdata Hd.
  destruct (wp_inv _ _ _ (createChartTraces_spec st data d Hdata Hd))
    as (traces & s1 & Hrun1 & Hg1 & Htraces).
  pose proof (grows_reads _ _ _ _ Hg1 Hdata) as Hdata1.
  destruct (wp_inv _ _ _ (createChartLayout_spec s1 data d Hdata1 Hd))
    as (layout & s2 & Hrun2 & Hg2 & Hlayout).
  pose proof (grows_trans _ _ _ _ Hg1 Hg2) as Hg.
  assert (world s2 = world st) as Hw by (by destruct Hg).
  unfold world in Hw. injection Hw as Ha Hel Heff Hls Hts Hn.
  exists traces, layout.
  destruct plotly as [v|e]; eexists.
  all: split;
    [unfold App.renderChart, try_catch;
     rewrite (bind_run _ _ _ _ _ Hrun1), (bind_run _ _ _ _ _ Hrun2);
     reflexivity|].
  all: cbn [heap_of set_chartElement set_effects set_AppState set_timing].
  all: split; [intros l c Hl; eapply grows_cells;
                 [exact Hg|exact Hl|apply not_elem_of_nil]|].
  all: split; [exact (grows_reads _ _ _ _ Hg Hdata)|].
  all: split; [exact (grows_reads _ _ _ _ Hg2 Htraces)|]; split; [done|].
  all: unfold world, shows, with_chart; cbn; rewrite Ha, Hel, Heff, Hls, Hts, Hn.
  all: rewrite <- app_assoc; by destruct (chartElement st).
Qed.

(** When building the series throws, [renderChart] catches it. *)
Lemma renderChart_caught st plotly data e s1 :
  App.createChartTraces data st = (Throw e, s1) ->
  App.renderChart plotly data st
  = (Ret tt,
     set_chartElement
       (shows (RError "Failed to render chart visualization") s1)
       (set_effects
          (effects s1 ++ [ConsoleError "[TopicEvolution] Error in renderChart:" e])
          s1)).
Proof.
  intros Hrun. unfold App.renderChart, try_catch.
  by rewrite (bind_throw _ _ _ _ _ Hrun).
Qed.

(** [createChartTraces] on an object without [categories], or whose
    [categories] is [null]. *)
Lemma createChartTraces_throws st l ps :
  heap_of st !! l = Some (CObj ps) ->
  assoc "categories" ps = None \/ assoc "categories" ps = Some VNull ->
  App.createChartTraces (VRef l) st
  = (Throw (Exn KTypeError "Cannot convert undefined or null to object"),
     set_heap (heap_of st ++ [CArr []]) st).
Proof.
  intros Hl Hc. unfold App.createChartTraces, new_array, alloc, mbind, M_bind.
  unfold get, deref, mbind, M_bind. cbn [heap_of set_heap].
  rewrite (lookup_app_l_Some _ _ _ _ Hl). cbn [mret M_ret].
  by destruct Hc as [-> | ->].
Qed.

End Rendering.

(** * Start of the page *)

Section Start.

Lemma initializeApp_enter network plotly st :
  App.initializeApp network plotly st
  = try_catch
      (data ← App.loadTopicData network;
       (if negb (truthy data) then Error "Failed to load required data"
        else mret tt);;
       App.renderChart plotly data;;
       console_log "[TopicEvolution] Application initialized successfully" [])
      (fun error =>
         App.logError "initializeApp" error;;
         App.showErrorState "Application failed to initialize")
      (set_effects
         (effects st
          ++ [ConsoleLog "[TopicEvolution] Initializing application..." []])
         st).
Proof. reflexivity. Qed.

(** A start whose load fails. *)
Lemma initializeApp_failure_run st response plotly e :
  world_json response = true -> load_error response = Some e ->
  exists st',
    App.initializeApp response plotly st = (Ret tt, st')
    /\ (forall l c, heap_of st !! l = Some c -> heap_of st' !! l = Some c)
    /\ world st'
       = (failed e (AppState st),
          shows (RError "Application failed to initialize") st,
          effects st
          ++ [ConsoleLog "[TopicEvolution] Initializing application..." [];
              ConsoleError "[TopicEvolution] Error in loadTopicData:" e;
              ConsoleError "[TopicEvolution] Error in initializeApp:"
                (Exn KError "Failed to load required data")],
          resizeListeners st, timers st, nextTimer st).
Proof.
  intros Hjson He. rewrite initializeApp_enter.
  match goal with |- context [try_catch _ _ ?s] => set (s0 := s) end.
  destruct (loadTopicData_failure_run s0 response e Hjson He)
    as (s1 & Hrun & Hcells & Hw).
  unfold world in Hw. injection Hw as Ha Hel Heff Hls Hts Hn.
  eexists. unfold try_catch. rewrite (bind_run _ _ _ _ _ Hrun).
  split; [reflexivity|]. split; [exact Hcells|].
  unfold world, shows. cbn. rewrite Ha, Hel, Heff, Hls, Hts, Hn.
  unfold shows, s0. cbn. rewrite <- !app_assoc.
  by destruct (chartElement st).
Qed.

(** A start whose load succeeds, for either answer of the charting
    library. *)
Lemma initializeApp_loaded_run st status text t plotly :
  json_value t = true -> validate t = None -> is_dataset t = true ->
  exists v stats traces layout st',
    App.initializeApp (App.Response true status text (Some t)) plotly st
    = (Ret tt, st')
    /\ (forall l c, heap_of st !! l = Some c -> heap_of st' !! l = Some c)
    /\ reads (heap_of st') v t
    /\ reads (heap_of st') stats (stats_tree t)
    /\ reads (heap_of st') traces (TArr (traces_of t))
    /\ reads (heap_of st') layout (layout_tree t)
    /\ world st'
       = match plotly with
         | App.Resolves c =>
             (with_chart c (loaded v (AppState st)),
              shows (RChart traces layout) st,
              effects st
              ++ [ConsoleLog "[TopicEvolution] Initializing application..." [];
                  ConsoleLog "[TopicEvolution] Data loaded successfully:" [stats];
                  PlotlyNewPlot "evolution-chart" traces layout;
                  ConsoleLog "[TopicEvolution] Chart rendered successfully" [];
                  ConsoleLog
                    "[TopicEvolution] Application initialized successfully" []],
              resizeListeners st ++ [App.debounce 250], timers st,
              nextTimer st)
         | App.Rejects e =>
             (loaded v (AppState st),
              shows (RError "Failed to render chart visualization") st,
              effects st
              ++ [ConsoleLog "[TopicEvolution] Initializing application..." [];
                  ConsoleLog "[TopicEvolution] Data loaded successfully:" [stats];
                  PlotlyNewPlot "evolution-chart" traces layout;
                  ConsoleError "[TopicEvolution] Error in renderChart:" e;
                  ConsoleLog
                    "[TopicEvolution] Application initialized successfully" []],
              resizeListeners st, timers st, nextTimer st)
         end.
Proof.
  intros Hjson Hval Hd. rewrite initializeApp_enter.
  match goal with |- context [try_catch _ _ ?s] => set (s0 := s) end.
  destruct (loadTopicData_success_run s0 status text t Hjson Hval)
    as (v & stats & s1 & Hrun1 & Hcells1 & Hv & Hstats & Hw1).
  destruct (renderChart_run s1 plotly v t Hv Hd)
    as (traces & layout & s2 & Hrun2 & Hcells2 & Hv2 & Htraces & Hlayout & Hw2).
  assert (exists l, v = VRef l) as [l ->].
  { destruct (is_dataset_inv _ Hd) as (ms & cs & -> & _).
    exact (reads_in_prim _ _ _ Hv). }
  assert (reads (heap_of s2) stats (stats_tree t)) as Hstats2.
  { eapply reads_in_sub; [|exact Hstats]. intros p c. apply Hcells2. }
  unfold world in Hw1. injection Hw1 as Ha1 Hel1 Heff1 Hls1 Hts1 Hn1.
  exists (VRef l), stats, traces, layout. eexists.
  unfold try_catch. rewrite (bind_run _ _ _ _ _ Hrun1). cbn [truthy negb].
  rewrite (bind_run _ _ _ tt s1 eq_refl), (bind_run _ _ _ _ _ Hrun2).
  split; [reflexivity|]. cbn [heap_of set_effects]. split.
  { intros p c Hp. by apply Hcells2, Hcells1. }
  do 4 (split; [done|]).
  unfold world in *. cbn. unfold shows in *.
  destruct plotly as [c|e]; injection Hw2 as Ha2 Hel2 Heff2 Hls2 Hts2 Hn2;
    rewrite Ha2, Hel2, Heff2, Hls2, Hts2, Hn2, Ha1, Hel1, Heff1, Hls1, Hts1, Hn1;
    unfold s0; cbn; rewrite <- !app_assoc; by destruct (chartElement st).
Qed.

End Start.

(** * The page, from rendering to resizing *)

Section Page.

(** [renderChart] on a dataset whose years and totals are exact, when
    [Plotly.newPlot] resolves with [v]: the library is called once, with the
    series and the layout of the dataset; the chart replaces what the
    element showed; [v] becomes [AppState.chartInstance]; one debounced
    resize listener is added to those already registered, none is
    removed. *)
Theorem renderChart_success st data d n v :
  readback n (lookup_of (heap_of st)) data = Some d ->
  is_dataset d = true ->
  exact_years d = true -> exact_totals d = true ->
  exists traces layout st',
    App.renderChart (App.Resolves v) data st = (Ret tt, st')
    /\ reads (heap_of st') traces (TArr (traces_of d))
    /\ reads (heap_of st') layout (layout_tree d)
    /\ effects st'
       = effects st
         ++ [PlotlyNewPlot "evolution-chart" traces layout;
             ConsoleLog "[TopicEvolution] Chart rendered successfully" []]
    /\ chartElement st' = shows (RChart traces layout) st
    /\ AppState st' = with_chart v (AppState st)
    /\ resizeListeners st' = resizeListeners st ++ [App.debounce 250]
    /\ timers st' = timers st.
Proof.
  intros Hdata Hd _ _.
  assert (reads (heap_of st) data d) as Hreads by (by exists n).
  destruct (renderChart_run st (App.Resolves v) data d Hreads Hd)
    as (traces & layout & st' & Hrun & _ & _ & Htraces & Hlayout & Hw).
  unfold world in Hw. injection Hw as Ha Hel Heff Hls Hts _.
  by exists traces, layout, st'.
Qed.

Lemma renderChart_success_witness :
  readback 3 (lookup_of (heap_of (snd (parsed dataset_scenario))))
    (fst (parsed dataset_scenario)) = Some dataset_scenario
  /\ is_dataset dataset_scenario = true
  /\ exact_years dataset_scenario = true
  /\ exact_totals dataset_scenario = true
  /\ exists traces layout st',
       App.renderChart (App.Resolves (VNative "div#evolution-chart"))
         (fst (parsed dataset_scenario)) (snd (parsed dataset_scenario))
       = (Ret tt, st')
       /\ effects st'
          = [PlotlyNewPlot "evolution-chart" traces layout;
             ConsoleLog "[TopicEvolution] Chart rendered successfully" []]
       /\ chartElement st' = Some (RChart traces layout)
       /\ chartInstance (AppState st') = VNative "div#evolution-chart"
       /\ resizeListeners st' = [App.debounce 250].
Proof.
  split; [reflexivity|]. split; [reflexivity|]. split; [reflexivity|].
  split; [reflexivity|].
  destruct (renderChart_success (snd (parsed dataset_scenario))
              (fst (parsed dataset_scenario)) dataset_scenario 3
              (VNative "div#evolution-chart") eq_refl eq_refl eq_refl eq_refl)
    as (traces & layout & st' & Hrun & _ & _ & Heff & Hel & Ha & Hls & _).
  exists traces, layout, st'. split; [exact Hrun|]. split; [exact Heff|].
  split; [exact Hel|]. split; [by rewrite Ha|exact Hls].
Defined.

(** [renderChart] on a dataset, when [Plotly.newPlot] rejects with [e]: the
    rejection does not leave [renderChart]; it is logged, the element shows
    the fixed text, [AppState] is untouched, in particular [chartInstance]
    and [error], and no resize listener is registered. *)
Theorem renderChart_rejected st data d n e :
  readback n (lookup_of (heap_of st)) data = Some d ->
  is_dataset d = true ->
  exists traces layout st',
    App.renderChart (App.Rejects e) data st = (Ret tt, st')
    /\ effects st'
       = effects st
         ++ [PlotlyNewPlot "evolution-chart" traces layout;
             ConsoleError "[TopicEvolution] Error in renderChart:" e]
    /\ chartElement st'
       = shows (RError "Failed to render chart visualization") st
    /\ AppState st' = AppState st
    /\ resizeListeners st' = resizeListeners st
    /\ timers st' = timers st.
Proof.
  intros Hdata Hd.
  assert (reads (heap_of st) data d) as Hreads by (by exists n).
  destruct (renderChart_run st (App.Rejects e) data d Hreads Hd)
    as (traces & layout & st' & Hrun & _ & _ & _ & _ & Hw).
  unfold world in Hw. injection Hw as Ha Hel Heff Hls Hts _.
  by exists traces, layout, st'.
Qed.

Lemma renderChart_rejected_witness :
  readback 3 (lookup_of (heap_of (snd (parsed dataset_scenario))))
    (fst (parsed dataset_scenario)) = Some dataset_scenario
  /\ is_dataset dataset_scenario = true
  /\ exists traces layout st',
       App.renderChart (App.Rejects (Exn KError "No DOM element"))
         (fst (parsed dataset_scenario)) (snd (parsed dataset_scenario))
       = (Ret tt, st')
       /\ effects st'
          = [PlotlyNewPlot "evolution-chart" traces layout;
             ConsoleError "[TopicEvolution] Error in renderChart:"
               (Exn KError "No DOM element")]
       /\ chartElement st'
          = Some (RError "Failed to render chart visualization")
       /\ resizeListeners st' = [].
Proof.
  split; [reflexivity|]. split; [reflexivity|].
  destruct (renderChart_rejected (snd (parsed dataset_scenario))
              (fst (parsed dataset_scenario)) dataset_scenario 3
              (Exn KError "No DOM element") eq_refl eq_refl)
    as (traces & layout & st' & Hrun & Heff & Hel & _ & Hls & _).
  exists traces, layout, st'. split; [exact Hrun|]. split; [exact Heff|].
  split; [exact Hel|exact Hls].
Defined.

(** [renderChart] on an object that has no [categories], or whose
    [categories] is [null]: building the series throws a [TypeError], which
    [renderChart] catches; it is logged, the element shows the fixed text,
    and [Plotly.newPlot] is not called, whatever the library would answer. *)
Theorem renderChart_no_categories st plotly l ps :
  heap_of st !! l = Some (CObj ps) ->
  assoc "categories" ps = None \/ assoc "categories" ps = Some VNull ->
  exists e st',
    App.renderChart plotly (VRef l) st = (Ret tt, st')
    /\ ekind e = KTypeError
    /\ effects st'
       = effects st ++ [ConsoleError "[TopicEvolution] Error in renderChart:" e]
    /\ chartElement st'
       = shows (RError "Failed to render chart visualization") st
    /\ AppState st' = AppState st
    /\ timing st' = timing st.
Proof.
  intros Hl Hc. eexists (Exn KTypeError _), _.
  rewrite (renderChart_caught _ _ _ _ _ (createChartTraces_throws _ _ _ Hl Hc)).
  split; [reflexivity|]. by repeat split.
Qed.

Lemma renderChart_no_categories_witness :
  heap_of state_no_categories !! 1 = Some (CObj [("years", VRef 0)])
  /\ (assoc "categories" [("years", VRef 0)] = None
      \/ assoc "categories" [("years", VRef 0)] = Some VNull)
  /\ exists e st',
       App.renderChart (App.Resolves (VNative "div#evolution-chart")) (VRef 1)
         state_no_categories = (Ret tt, st')
       /\ ekind e = KTypeError
       /\ effects st' = [ConsoleError "[TopicEvolution] Error in renderChart:" e]
       /\ chartElement st'
          = Some (RError "Failed to render chart visualization").
Proof.
  split; [reflexivity|]. split; [by left|].
  destruct (renderChart_no_categories state_no_categories
              (App.Resolves (VNative "div#evolution-chart")) 1
              [("years", VRef 0)] eq_refl (or_introl eq_refl))
    as (e & st' & Hrun & He & Heff & Hel & _).
  exists e, st'. split; [exact Hrun|]. split; [exact He|].
  split; [exact Heff|exact Hel].
Defined.

(** A start whose load fails, for whatever reason: [initializeApp] returns
    normally; the load error and then [Failed to load required data] are
    logged; the element ends with the text [Application failed to
    initialize], which replaces the message of the load error; nothing is
    rendered and no listener is registered.  The load error is the
    rejection of [fetch], the [HTTP] error, a [SyntaxError] when the body is
    not JSON, a [TypeError] when it is [null], and else the error of the
    check that fails. *)
Theorem initializeApp_load_failure st response plotly :
  world_json response = true ->
  (forall status text t,
     response = App.Response true status text (Some t) -> validate t <> None) ->
  exists e st',
    load_fails response e
    /\ App.initializeApp response plotly st = (Ret tt, st')
    /\ effects st'
       = effects st
         ++ [ConsoleLog "[TopicEvolution] Initializing application..." [];
             ConsoleError "[TopicEvolution] Error in loadTopicData:" e;
             ConsoleError "[TopicEvolution] Error in initializeApp:"
               (Exn KError "Failed to load required data")]
    /\ chartElement st' = shows (RError "Application failed to initialize") st
    /\ AppState st' = failed e (AppState st)
    /\ timing st' = timing st.
Proof.
  intros Hjson Hfails.
  destruct (load_error response) as [e|] eqn:He.
  2:{ destruct response as [e'|[|] status text [t|]]; try done.
      by destruct (Hfails status text t eq_refl). }
  destruct (initializeApp_failure_run st response plotly e Hjson He)
    as (st' & Hrun & _ & Hw).
  unfold world in Hw. injection Hw as Ha Hel Heff Hls Hts Hn.
  exists e, st'. split.
  { destruct response as [e'|[|] status text [t|]]; cbn in He |- *;
      try (by injection He as <-).
    destruct t; try done. by injection He as <-. }
  unfold timing. by rewrite Hls, Hts, Hn.
Qed.

Lemma initializeApp_load_failure_witness :
  world_json (App.Response true 200 "OK" (Some dataset_short_category)) = true
  /\ (forall status text t,
        App.Response true 200 "OK" (Some dataset_short_category)
        = App.Response true status text (Some t) -> validate t <> None)
  /\ exists e st',
       e = Exn KError "Data inconsistency in category: Finance"
       /\ App.initializeApp
            (App.Response true 200 "OK" (Some dataset_short_category))
            (App.Resolves (VNative "div#evolution-chart")) state_init
          = (Ret tt, st')
       /\ chartElement st' = Some (RError "Application failed to initialize")
       /\ plots (effects st') = [].
Proof.
  assert (forall status text t,
            App.Response true 200 "OK" (Some dataset_short_category)
            = App.Response true status text (Some t) -> validate t <> None)
    as Hfails.
  { intros status text t [= _ _ <-]. discriminate. }
  split; [reflexivity|]. split; [exact Hfails|].
  destruct (initializeApp_load_failure state_init
              (App.Response true 200 "OK" (Some dataset_short_category))
              (App.Resolves (VNative "div#evolution-chart")) eq_refl Hfails)
    as (e & st' & He & Hrun & Heff & Hel & _).
  exists e, st'. split.
  { cbn in He. by injection He as <-. }
  split; [exact Hrun|]. split; [exact Hel|]. rewrite Heff.
  cbn in He. injection He as <-. reflexivity.
Defined.

(** A start on a dataset that passes the loader's checks and whose years
    and totals are exact, when [Plotly.newPlot] resolves with [c]: the five
    console lines and the one call to the library, in this order; the
    library receives the series and the layout of the loaded dataset;
    [AppState] holds the dataset and [c], no error, and is no longer
    loading; the element shows the chart; one resize listener is
    registered. *)
Theorem initializeApp_success st status text t c :
  json_value t = true -> validate t = None -> is_dataset t = true ->
  exact_years t = true -> exact_totals t = true ->
  exists v stats traces layout st',
    App.initializeApp (App.Response true status text (Some t)) (App.Resolves c)
      st = (Ret tt, st')
    /\ reads (heap_of st') v t
    /\ reads (heap_of st') traces (TArr (traces_of t))
    /\ reads (heap_of st') layout (layout_tree t)
    /\ effects st'
       = effects st
         ++ [ConsoleLog "[TopicEvolution] Initializing application..." [];
             ConsoleLog "[TopicEvolution] Data loaded successfully:" [stats];
             PlotlyNewPlot "evolution-chart" traces layout;
             ConsoleLog "[TopicEvolution] Chart rendered successfully" [];
             ConsoleLog "[TopicEvolution] Application initialized successfully"
               []]
    /\ AppState st'
       = {| data := v; isLoading := false; error := None; chartInstance := c |}
    /\ chartElement st' = shows (RChart traces layout) st
    /\ resizeListeners st' = resizeListeners st ++ [App.debounce 250]
    /\ timers st' = timers st.
Proof.
  intros Hjson Hval Hd _ _.
  destruct (initializeApp_loaded_run st status text t (App.Resolves c)
              Hjson Hval Hd)
    as (v & stats & traces & layout & st' & Hrun & _ & Hv & _ & Htraces
        & Hlayout & Hw).
  unfold world in Hw. injection Hw as Ha Hel Heff Hls Hts _.
  by exists v, stats, traces, layout, st'.
Qed.

Lemma initializeApp_success_witness :
  json_value dataset_scenario = true
  /\ validate dataset_scenario = None
  /\ is_dataset dataset_scenario = true
  /\ exact_years dataset_scenario = true
  /\ exact_totals dataset_scenario = true
  /\ exists v traces layout st',
       App.initializeApp (App.Response true 200 "OK" (Some dataset_scenario))
         (App.Resolves (VNative "div#evolution-chart")) state_init
       = (Ret tt, st')
       /\ reads (heap_of st') v dataset_scenario
       /\ AppState st'
          = {| data := v; isLoading := false; error := None;
               chartInstance := VNative "div#evolution-chart" |}
       /\ chartElement st' = Some (RChart traces layout)
       /\ plots (effects st') = [PlotlyNewPlot "evolution-chart" traces layout]
       /\ resizeListeners st' = [App.debounce 250].
Proof.
  split; [reflexivity|]. split; [reflexivity|]. split; [reflexivity|].
  split; [reflexivity|]. split; [reflexivity|].
  destruct (initializeApp_success state_init 200 "OK" dataset_scenario
              (VNative "div#evolution-chart") eq_refl eq_refl eq_refl eq_refl
              eq_refl)
    as (v & stats & traces & layout & st' & Hrun & Hv & _ & _ & Heff & Ha
        & Hel & Hls & _).
  exists v, traces, layout, st'. split; [exact Hrun|]. split; [exact Hv|].
  split; [exact Ha|]. split; [exact Hel|]. split; [by rewrite Heff|exact Hls].
Defined.

(** A start on a dataset that passes the loader's checks, when
    [Plotly.newPlot] rejects with [e]: the rejection stays inside
    [renderChart], so [initializeApp] still logs that the application was
    initialized successfully; the element shows the rendering error,
    [AppState.error] stays [null], [AppState.chartInstance] is as before, and
    no resize listener is registered. *)
Theorem initializeApp_render_failure st status text t e :
  json_value t = true -> validate t = None -> is_dataset t = true ->
  exists v stats traces layout st',
    App.initializeApp (App.Response true status text (Some t)) (App.Rejects e)
      st = (Ret tt, st')
    /\ effects st'
       = effects st
         ++ [ConsoleLog "[TopicEvolution] Initializing application..." [];
             ConsoleLog "[TopicEvolution] Data loaded successfully:" [stats];
             PlotlyNewPlot "evolution-chart" traces layout;
             ConsoleError "[TopicEvolution] Error in renderChart:" e;
             ConsoleLog "[TopicEvolution] Application initialized successfully"
               []]
    /\ AppState st'
       = {| data := v; isLoading := false; error := None;
            chartInstance := chartInstance (AppState st) |}
    /\ chartElement st'
       = shows (RError "Failed to render chart visualization") st
    /\ timing st' = timing st.
Proof.
  intros Hjson Hval Hd.
  destruct (initializeApp_loaded_run st status text t (App.Rejects e)
              Hjson Hval Hd)
    as (v & stats & traces & layout & st' & Hrun & _ & _ & _ & _ & _ & Hw).
  unfold world in Hw. injection Hw as Ha Hel Heff Hls Hts Hn.
  exists v, stats, traces, layout, st'. unfold timing.
  by rewrite Hls, Hts, Hn.
Qed.

Lemma initializeApp_render_failure_witness :
  json_value dataset_scenario = true
  /\ validate dataset_scenario = None
  /\ is_dataset dataset_scenario = true
  /\ exists st',
       App.initializeApp (App.Response true 200 "OK" (Some dataset_scenario))
         (App.Rejects (Exn KError "No DOM element")) state_init
       = (Ret tt, st')
       /\ error (AppState st') = None
       /\ chartInstance (AppState st') = VNull
       /\ chartElement st'
          = Some (RError "Failed to render chart visualization")
       /\ last (effects st')
          = Some (ConsoleLog
                    "[TopicEvolution] Application initialized successfully" []).
Proof.
  split; [reflexivity|]. split; [reflexivity|]. split; [reflexivity|].
  destruct (initializeApp_render_failure state_init 200 "OK" dataset_scenario
              (Exn KError "No DOM element") eq_refl eq_refl eq_refl)
    as (v & stats & traces & layout & st' & Hrun & Heff & Ha & Hel & _).
  exists st'. split; [exact Hrun|]. rewrite Ha, Heff. by repeat split.
Defined.

(** After a successful start on a page without resize listeners, a burst of
    resize events of any length and then the elapse of the pending timer
    call [Plotly.Plots.resize] once when the chart handle [c] is truthy, and
    call nothing when it is not. *)
Theorem initializeApp_then_resize st status text t c k :
  json_value t = true -> validate t = None -> is_dataset t = true ->
  resizeListeners st = [] -> timers st = [] ->
  exists st' st1 timer st2,
    App.initializeApp (App.Response true status text (Some t)) (App.Resolves c)
      st = (Ret tt, st')
    /\ times (S k) App.resize_event st' = (Ret tt, st1)
    /\ timers st1 = [(timer, 0)]
    /\ effects st1 = effects st'
    /\ App.timer_fires timer st1 = (Ret tt, st2)
    /\ effects st2
       = effects st'
         ++ (if truthy c then [PlotlyResize "evolution-chart"] else [])
    /\ timers st2 = [].
Proof.
  intros Hjson Hval Hd Hls0 Hts0.
  destruct (initializeApp_loaded_run st status text t (App.Resolves c)
              Hjson Hval Hd)
    as (v & stats & traces & layout & st' & Hrun & _ & _ & _ & _ & _ & Hw).
  unfold world in Hw. injection Hw as Ha _ _ Hls Hts _.
  assert (one_listener st') as Hone.
  { exists (App.debounce 250). rewrite Hls, Hls0, Hts, Hts0. by split; [|left]. }
  destruct (burst_run k st' Hone)
    as (st1 & d1 & timer & Hburst & Hd1 & Ht1 & Htimers & _ & Ha1 & He1 & _).
  destruct (timer_fires_run st1 d1 timer Hd1 Ht1 Htimers)
    as (st2 & Hfire & He2 & Ht2 & _).
  exists st', st1, timer, st2. rewrite He2, He1, Ha1, Ha.
  by repeat split.
Qed.

Lemma initializeApp_then_resize_witness :
  json_value dataset_scenario = true
  /\ validate dataset_scenario = None
  /\ is_dataset dataset_scenario = true
  /\ resizeListeners state_init = []
  /\ timers state_init = []
  /\ exists st' st1 timer st2,
       App.initializeApp (App.Response true 200 "OK" (Some dataset_scenario))
         (App.Resolves (VNative "div#evolution-chart")) state_init
       = (Ret tt, st')
       /\ times 4 App.resize_event st' = (Ret tt, st1)
       /\ timers st1 = [(timer, 0)]
       /\ App.timer_fires timer st1 = (Ret tt, st2)
       /\ effects st2 = effects st' ++ [PlotlyResize "evolution-chart"].
Proof.
  split; [reflexivity|]. split; [reflexivity|]. split; [reflexivity|].
  split; [reflexivity|]. split; [reflexivity|].
  destruct (initializeApp_then_resize state_init 200 "OK" dataset_scenario
              (VNative "div#evolution-chart") 3 eq_refl eq_refl eq_refl
              eq_refl eq_refl)
    as (st' & st1 & timer & st2 & Hrun & Hburst & Htimers & _ & Hfire & Heff & _).
  exists st', st1, timer, st2. split; [exact Hrun|]. split; [exact Hburst|].
  split; [exact Htimers|]. split; [exact Hfire|exact Heff].
Defined.

End Page.

(** * The debounced listener *)

Section Debounce.

(** A resize event that arrives while a call is pending replaces it: the
    timer that was pending is cancelled, so its elapse does nothing, and
    one new timer is pending instead. *)
Theorem debounce_supersedes st d t :
  resizeListeners st = [d] -> timeout d = Some t -> timers st = [(t, 0)] ->
  t < nextTimer st ->
  exists st',
    App.resize_event st = (Ret tt, st')
    /\ timers st' = [(nextTimer st, 0)]
    /\ effects st' = effects st
    /\ App.timer_fires t st' = (Ret tt, st').
Proof.
  intros Hd Ht Htimers Hfresh.
  assert (one_listener st) as Hone.
  { exists d. split; [done|]. right. by exists t. }
  destruct (resize_event_run st Hone)
    as (st' & d' & Hrun & _ & _ & Htimers' & _ & _ & Heff & _).
  exists st'. split; [done|]. split; [done|]. split; [done|].
  unfold App.timer_fires, get_state, mbind, M_bind. rewrite Htimers'.
  cbn [list_find fst]. rewrite decide_False by lia. done.
Qed.

Lemma debounce_supersedes_witness :
  resizeListeners page_resized = [{| wait := 250; timeout := Some 0 |}]
  /\ timeout {| wait := 250; timeout := Some 0 |} = Some 0
  /\ timers page_resized = [(0, 0)]
  /\ 0 < nextTimer page_resized
  /\ exists st',
       App.resize_event page_resized = (Ret tt, st')
       /\ timers st' = [(1, 0)]
       /\ App.timer_fires 0 st' = (Ret tt, st').
Proof.
  split; [reflexivity|]. split; [reflexivity|]. split; [reflexivity|].
  split; [vm_compute; lia|].
  destruct (debounce_supersedes page_resized
              {| wait := 250; timeout := Some 0 |} 0 eq_refl eq_refl eq_refl
              ltac:(vm_compute; lia))
    as (st' & Hrun & Htimers & _ & Hfire).
  exists st'. split; [exact Hrun|]. split; [exact Htimers|exact Hfire].
Defined.

(** The listener can be used again after it has run: two bursts of resize
    events, each followed by the elapse of its timer, call the handler
    twice, once per burst. *)
Theorem debounce_rearms st j k :
  one_listener st ->
  exists st1 t1 st2 st3 t2 st4,
    times (S j) App.resize_event st = (Ret tt, st1)
    /\ timers st1 = [(t1, 0)]
    /\ App.timer_fires t1 st1 = (Ret tt, st2)
    /\ times (S k) App.resize_event st2 = (Ret tt, st3)
    /\ timers st3 = [(t2, 0)]
    /\ App.timer_fires t2 st3 = (Ret tt, st4)
    /\ effects st4
       = effects st
         ++ (if truthy (chartInstance (AppState st))
             then [PlotlyResize "evolution-chart"; PlotlyResize "evolution-chart"]
             else [])
    /\ timers st4 = [].
Proof.
  intros Hone.
  destruct (burst_run j st Hone)
    as (st1 & d1 & t1 & Hb1 & Hd1 & Ht1 & Htimers1 & _ & Ha1 & He1 & _).
  destruct (timer_fires_run st1 d1 t1 Hd1 Ht1 Htimers1)
    as (st2 & Hf1 & He2 & Hts2 & Hd2 & _ & Ha2 & _).
  assert (one_listener st2) as Hone2.
  { exists d1. split; [done|]. by left. }
  destruct (burst_run k st2 Hone2)
    as (st3 & d3 & t2 & Hb2 & Hd3 & Ht3 & Htimers3 & _ & Ha3 & He3 & _).
  destruct (timer_fires_run st3 d3 t2 Hd3 Ht3 Htimers3)
    as (st4 & Hf2 & He4 & Hts4 & _).
  exists st1, t1, st2, st3, t2, st4. do 6 (split; [done|]). split; [|done].
  rewrite He4, He3, He2, He1, Ha3, Ha2, Ha1.
  destruct (truthy (chartInstance (AppState st))).
  - by rewrite <- app_assoc.
  - by rewrite !app_nil_r.
Qed.

Lemma debounce_rearms_witness :
  one_listener page_started
  /\ exists st1 t1 st2 st3 t2 st4,
       times 3 App.resize_event page_started = (Ret tt, st1)
       /\ timers st1 = [(t1, 0)]
       /\ App.timer_fires t1 st1 = (Ret tt, st2)
       /\ times 2 App.resize_event st2 = (Ret tt, st3)
       /\ timers st3 = [(t2, 0)]
       /\ App.timer_fires t2 st3 = (Ret tt, st4)
       /\ effects st4
          = effects page_started
            ++ [PlotlyResize "evolution-chart"; PlotlyResize "evolution-chart"].
Proof.
  assert (one_listener page_started) as Hone.
  { exists (App.debounce 250). split; [reflexivity|]. left. reflexivity. }
  split; [exact Hone|].
  destruct (debounce_rearms page_started 2 1 Hone)
    as (st1 & t1 & st2 & st3 & t2 & st4 & H1 & H2 & H3 & H4 & H5 & H6 & H7 & _).
  exists st1, t1, st2, st3, t2, st4. split; [exact H1|]. split; [exact H2|].
  split; [exact H3|]. split; [exact H4|]. split; [exact H5|].
  split; [exact H6|exact H7].
Defined.

End Debounce.

(** * The builders at the edges *)

Section Edges.

(** On an object that has no [categories], or whose [categories] is
    [null], both builders throw a [TypeError]; each has allocated its empty
    result array and nothing else, and has written to nothing that
    existed. *)
Theorem builders_throw_without_categories st l ps :
  heap_of st !! l = Some (CObj ps) ->
  assoc "categories" ps = None \/ assoc "categories" ps = Some VNull ->
  (exists e,
     App.createChartTraces (VRef l) st
     = (Throw e, set_heap (heap_of st ++ [CArr []]) st)
     /\ ekind e = KTypeError)
  /\ (exists e,
        App.createDynamicAnnotations (VRef l) st
        = (Throw e, set_heap (heap_of st ++ [CArr []]) st)
        /\ ekind e = KTypeError).
Proof.
  intros Hl Hc. split.
  - eexists (Exn KTypeError _). split; [|done].
    unfold App.createChartTraces, new_array, alloc, mbind, M_bind.
    unfold get, deref, mbind, M_bind. cbn [heap_of set_heap].
    rewrite (lookup_app_l_Some _ _ _ _ Hl). cbn [mret M_ret].
    by destruct Hc as [-> | ->].
  - unfold App.createDynamicAnnotations, App.annotate, App.getCategoryValue,
      new_array, alloc, mbind, M_bind.
    unfold get, deref, mbind, M_bind. cbn [heap_of set_heap].
    rewrite (lookup_app_l_Some _ _ _ _ Hl). cbn [mret M_ret].
    destruct Hc as [-> | ->]; by eexists (Exn KTypeError _).
Qed.

Lemma builders_throw_without_categories_witness :
  heap_of state_no_categories !! 1 = Some (CObj [("years", VRef 0)])
  /\ (assoc "categories" [("years", VRef 0)] = None
      \/ assoc "categories" [("years", VRef 0)] = Some VNull)
  /\ exists e st',
       App.createDynamicAnnotations (VRef 1) state_no_categories
       = (Throw e, st')
       /\ ekind e = KTypeError
       /\ length (heap_of st') = 3.
Proof.
  split; [reflexivity|]. split; [by left|].
  destruct (builders_throw_without_categories state_no_categories 1
              [("years", VRef 0)] eq_refl (or_introl eq_refl))
    as [_ (e & Hrun & He)].
  exists e, (set_heap (heap_of state_no_categories ++ [CArr []])
               state_no_categories).
  split; [exact Hrun|]. split; [exact He|reflexivity].
Defined.

(** A dataset without categories is no error: the series are the empty
    array, there is no annotation, and [renderChart] draws them, an empty
    chart, instead of showing an error. *)
Theorem renderChart_empty st data d n v :
  readback n (lookup_of (heap_of st)) data = Some d ->
  is_dataset d = true ->
  field "categories" d = TObj [] ->
  exists traces layout st',
    App.renderChart (App.Resolves v) data st = (Ret tt, st')
    /\ reads (heap_of st') traces (TArr [])
    /\ (exists tl, reads (heap_of st') layout tl
                   /\ field "annotations" tl = TArr [])
    /\ effects st'
       = effects st
         ++ [PlotlyNewPlot "evolution-chart" traces layout;
             ConsoleLog "[TopicEvolution] Chart rendered successfully" []]
    /\ chartElement st' = shows (RChart traces layout) st.
Proof.
  intros Hdata Hd Hempty.
  assert (reads (heap_of st) data d) as Hreads by (by exists n).
  destruct (renderChart_run st (App.Resolves v) data d Hreads Hd)
    as (traces & layout & st' & Hrun & _ & _ & Htraces & Hlayout & Hw).
  unfold world in Hw. injection Hw as _ Hel Heff _ _ _.
  exists traces, layout, st'. split; [done|].
  assert (traces_of d = []) as Ht.
  { unfold traces_of, sorted_categories, categories_of. by rewrite Hempty. }
  assert (annotations_of d = []) as Han.
  { unfold annotations_of, triggers, annotation_for, count_at.
    by rewrite Hempty. }
  rewrite Ht in Htraces. split; [done|]. split; [|done].
  exists (layout_tree d). split; [done|].
  change (field "annotations" (layout_tree d)) with (TArr (annotations_of d)).
  by rewrite Han.
Qed.

Lemma renderChart_empty_witness :
  readback 3 (lookup_of (heap_of (snd (parsed dataset_empty))))
    (fst (parsed dataset_empty)) = Some dataset_empty
  /\ is_dataset dataset_empty = true
  /\ field "categories" dataset_empty = TObj []
  /\ exists traces layout st',
       App.renderChart (App.Resolves (VNative "div#evolution-chart"))
         (fst (parsed dataset_empty)) (snd (parsed dataset_empty))
       = (Ret tt, st')
       /\ reads (heap_of st') traces (TArr [])
       /\ chartElement st' = Some (RChart traces layout).
Proof.
  split; [reflexivity|]. split; [reflexivity|]. split; [reflexivity|].
  destruct (renderChart_empty (snd (parsed dataset_empty))
              (fst (parsed dataset_empty)) dataset_empty 3
              (VNative "div#evolution-chart") eq_refl eq_refl eq_refl)
    as (traces & layout & st' & Hrun & Htraces & _ & _ & Hel).
  exists traces, layout, st'. split; [exact Hrun|]. split; [exact Htraces|].
  exact Hel.
Defined.


End Edges.

(** * The series share the dataset's arrays *)

Section Sharing.

Lemma wlp_wp {A} (m : M A) st Q : wp m st Q -> wlp m st Q.
Proof. unfold wp, wlp. by destruct (m st) as [[a|e|] st']. Qed.

Lemma wlp_bind {A B} (m : M A) (k : A -> M B) st Q :
  wlp m st (fun a st' => wlp (k a) st' Q) -> wlp (m ≫= k) st Q.
Proof. unfold wlp, mbind, M_bind. by destruct (m st) as [[a|e|] st']. Qed.

Lemma wlp_bind_wp {A B} (m : M A) (k : A -> M B) st Q :
  wp m st (fun a st' => wlp (k a) st' Q) -> wlp (m ≫= k) st Q.
Proof. intros H. by apply wlp_bind, wlp_wp. Qed.

Lemma wlp_bind_any {A B} (m : M A) (k : A -> M B) st Q :
  (forall a st', wlp (k a) st' Q) -> wlp (m ≫= k) st Q.
Proof.
  intros H. unfold wlp, mbind, M_bind.
  destruct (m st) as [[a|e|] st']; [apply H|done..].
Qed.

Lemma wlp_ret {A} (a : A) st (Q : A -> state -> Prop) : Q a st -> wlp (mret a) st Q.
Proof. done. Qed.

Lemma wlp_mono {A} (m : M A) st (Q Q' : A -> state -> Prop) :
  wlp m st Q -> (forall a st', Q a st' -> Q' a st') -> wlp m st Q'.
Proof.
  unfold wlp. destruct (m st) as [[a|e|] st']; [|done..]. intros H HQ.
  by apply HQ.
Qed.

Lemma wlp_inv {A} (m : M A) st a st' (Q : A -> state -> Prop) :
  wlp m st Q -> m st = (Ret a, st') -> Q a st'.
Proof. unfold wlp. intros H Hrun. by rewrite Hrun in H. Qed.

Lemma wlp_reads_only {A} (m : M A) st (Q : A -> state -> Prop) :
  reads_only m -> (forall a, Q a st) -> wlp m st Q.
Proof.
  intros Hm HQ. unfold wlp. specialize (Hm st).
  destruct (m st) as [[a|e|] st']; [|done..]. simpl in Hm. subst st'. apply HQ.
Qed.

Lemma wlp_and_reads_only {A} (m : M A) st (P : A -> Prop) :
  reads_only m -> wlp m st (fun a _ => P a) ->
  wlp m st (fun a st' => st' = st /\ P a).
Proof.
  intros Hm. unfold wlp. specialize (Hm st).
  destruct (m st) as [[a|e|] st']; [|done..]. simpl in Hm. by subst st'.
Qed.

(** *** Operations that only read *)

Lemma reads_only_bind {A B} (m : M A) (k : A -> M B) :
  reads_only m -> (forall a, reads_only (k a)) -> reads_only (m ≫= k).
Proof.
  intros Hm Hk st. unfold mbind, M_bind. specialize (Hm st).
  destruct (m st) as [[a|e|] st']; simpl in *; subst st'; [apply Hk|done..].
Qed.

Lemma reads_only_deref l : reads_only (deref l).
Proof. intros st. unfold deref. by destruct (heap_of st !! l). Qed.

Lemma reads_only_get v name : reads_only (get v name).
Proof.
  destruct v as [| | | | |s|l| ]; try (by intros st).
  - intros st. unfold get. by destruct (String.eqb name "length").
  - apply reads_only_bind; [apply reads_only_deref|].
    intros [ps|vs] st; [done|]. by destruct (String.eqb name "length").
Qed.

Lemma reads_only_get_idx v i : reads_only (get_idx v i).
Proof.
  destruct v as [| | | | | |l| ]; try apply reads_only_get.
  apply reads_only_bind; [apply reads_only_deref|].
  intros [ps|vs]; [apply reads_only_get|by intros st].
Qed.

Lemma reads_only_get_v v k : reads_only (get_v v k).
Proof.
  destruct k; try apply reads_only_get; try (by intros st).
  apply reads_only_get_idx.
Qed.

Lemma reads_only_array_receiver v name : reads_only (array_receiver v name).
Proof.
  destruct v as [| |b|n|m e|s|l| ]; try (by intros st).
  - intros st. unfold array_receiver. cbn.
    by destruct (truthy (inherited KBoolean name)).
  - intros st. unfold array_receiver. cbn.
    by destruct (truthy (inherited KNumber name)).
  - intros st. unfold array_receiver. cbn.
    by destruct (truthy (inherited KNumber name)).
  - intros st. unfold array_receiver. cbn.
    by destruct (truthy (inherited KString name)).
  - apply reads_only_bind; [apply reads_only_deref|]. by intros [ps|vs] st.
Qed.

Lemma reads_only_js_add a b : reads_only (js_add a b).
Proof. by destruct a, b; intros st. Qed.

Lemma reads_only_js_sub a b : reads_only (js_sub a b).
Proof. by destruct a, b; intros st. Qed.

Lemma reads_only_positive_number v : reads_only (positive_number v).
Proof. by destruct v; intros st. Qed.

Lemma reads_only_foldM {S A} (f : S -> A -> M S) s l :
  (forall s x, reads_only (f s x)) -> reads_only (foldM f s l).
Proof.
  intros Hf. revert s. induction l as [|x l IH]; intros s; [by intros st|].
  cbn [foldM]. apply reads_only_bind; [apply Hf|]. intros s'. apply IH.
Qed.

Lemma reads_only_reduce_sum init v :
  reads_only (Array_reduce (fun sum val => js_add sum val) init v).
Proof.
  apply reads_only_bind; [apply reads_only_array_receiver|]. intros r.
  apply reads_only_foldM. intros s x. apply reads_only_js_add.
Qed.

Lemma reads_only_by_total_desc a b : reads_only (App.by_total_desc a b).
Proof.
  apply reads_only_bind; [apply reads_only_get|]. intros bt.
  apply reads_only_bind; [apply reads_only_get|]. intros at_.
  apply reads_only_js_sub.
Qed.

Lemma reads_only_insertM cmp x l :
  (forall a b, reads_only (cmp a b)) -> reads_only (insertM cmp x l).
Proof.
  intros Hcmp. induction l as [|y l IH]; [by intros st|].
  cbn [insertM]. apply reads_only_bind; [apply Hcmp|]. intros c.
  apply reads_only_bind; [apply reads_only_positive_number|]. intros [|].
  - apply reads_only_bind; [apply IH|]. by intros r st.
  - by intros st.
Qed.

Lemma reads_only_sortM cmp l :
  (forall a b, reads_only (cmp a b)) -> reads_only (sortM cmp l).
Proof.
  intros Hcmp. induction l as [|x l IH]; [by intros st|].
  cbn [sortM]. apply reads_only_bind; [apply IH|]. intros s.
  by apply reads_only_insertM.
Qed.

(** *** The sort returns elements of its input *)

Lemma insertM_elem cmp x l st :
  wlp (insertM cmp x l) st (fun l' _ => forall y, y ∈ l' -> y ∈ x :: l).
Proof.
  revert st. induction l as [|z l IH]; intros st; [by apply wlp_ret|].
  cbn [insertM]. apply wlp_bind_any. intros c s1.
  apply wlp_bind_any. intros [|] s2.
  - apply wlp_bind. eapply wlp_mono; [apply IH|]. intros r s3 Hr.
    apply wlp_ret. intros y [->|Hy%Hr]%elem_of_cons.
    + right. by left.
    + apply elem_of_cons in Hy as [->|Hy]; [by left|]. right. by right.
  - by apply wlp_ret.
Qed.

Lemma sortM_elem cmp l st :
  wlp (sortM cmp l) st (fun l' _ => forall y, y ∈ l' -> y ∈ l).
Proof.
  revert st. induction l as [|x l IH]; intros st; [by apply wlp_ret|].
  cbn [sortM]. apply wlp_bind. eapply wlp_mono; [apply IH|]. intros s s1 Hs.
  eapply wlp_mono; [apply insertM_elem|]. intros l' s2 Hl' y Hy.
  apply Hl' in Hy. apply elem_of_cons in Hy as [->|Hy]; [by left|].
  right. by apply Hs.
Qed.

(** *** Loops, partially *)

Lemma wlp_mapM {A B} (f : A -> M B) (I : list B -> state -> Prop) l st :
  I [] st ->
  (forall ys x s, x ∈ l -> I ys s ->
     wlp (f x) s (fun y s' => I (ys ++ [y]) s')) ->
  wlp (mapM f l) st I.
Proof.
  intros HI Hf.
  assert (forall rest ys s, (forall x, x ∈ rest -> x ∈ l) -> I ys s ->
            wlp (mapM f rest) s (fun ys' s' => I (ys ++ ys') s')) as Hgen.
  { induction rest as [|x rest IH]; intros ys s Hin Hys.
    - apply wlp_ret. by rewrite app_nil_r.
    - cbn [mapM]. apply wlp_bind. eapply wlp_mono.
      { apply (Hf ys x s); [apply Hin; by left|done]. }
      intros y s1 Hy. apply wlp_bind. eapply wlp_mono.
      { apply (IH (ys ++ [y]) s1); [|done]. intros x' Hx'. apply Hin.
        by right. }
      intros ys' s2 Hys'. apply wlp_ret.
      replace (ys ++ y :: ys') with ((ys ++ [y]) ++ ys');
        [done|by rewrite <- app_assoc]. }
  apply (Hgen l [] st); done.
Qed.

Lemma wlp_foldM {S A} (f : S -> A -> M S) (I : S -> state -> Prop) l s st :
  I s st ->
  (forall s1 x st1, x ∈ l -> I s1 st1 -> wlp (f s1 x) st1 I) ->
  wlp (foldM f s l) st I.
Proof.
  intros HI Hf.
  assert (forall rest s0 st0, (forall x, x ∈ rest -> x ∈ l) -> I s0 st0 ->
            wlp (foldM f s0 rest) st0 I) as Hgen.
  { induction rest as [|x rest IH]; intros s0 st0 Hin H0; [by apply wlp_ret|].
    cbn [foldM]. apply wlp_bind. eapply wlp_mono.
    { apply (Hf s0 x st0); [apply Hin; by left|done]. }
    intros s1 st1 H1. apply IH; [|done]. intros x' Hx'. apply Hin. by right. }
  by apply (Hgen l s st).
Qed.

Lemma item_of_keep cs s s' X lo hi hi' it :
  grows X s s' -> hi <= hi' -> (forall l, l ∈ X -> lo <= l -> hi <= l) ->
  item_of cs (heap_of s) lo hi it -> item_of cs (heap_of s') lo hi' it.
Proof.
  intros Hg Hhi HX (q & name & x & tot & -> & Hq & Hc & Hin).
  exists q, name, x, tot. split; [done|]. split; [lia|]. split; [|done].
  eapply grows_cells; [exact Hg|exact Hc|]. intros HqX.
  specialize (HX _ HqX). lia.
Qed.

Lemma shares_keep years cs s s' X tr :
  grows X s s' -> (forall p, tr = VRef p -> p ∉ X) ->
  shares years cs (heap_of s) tr -> shares years cs (heap_of s') tr.
Proof.
  intros Hg HX (p & props & name & y & -> & Hp & Hx & Hn & Hy & Hin).
  exists p, props, name, y. split; [done|]. split; [|done].
  eapply grows_cells; [exact Hg|exact Hp|]. by apply HX.
Qed.

(** If [createChartTraces] returns, every series it returns shares its
    arrays with the dataset. *)
Lemma createChartTraces_shares st l ps years lc cs :
  heap_of st !! l = Some (CObj ps) ->
  assoc "years" ps = Some years ->
  assoc "categories" ps = Some (VRef lc) ->
  heap_of st !! lc = Some (CObj cs) ->
  wlp (App.createChartTraces (VRef l)) st (fun r st' =>
    exists lt trs,
      r = VRef lt /\ heap_of st' !! lt = Some (CArr trs)
      /\ Forall (shares years cs (heap_of st')) trs).
Proof.
  intros Hl Hyears Hcat Hlc.
  assert (forall s s' p c, grows [] s s' -> heap_of s !! p = Some c ->
            heap_of s' !! p = Some c) as Hkeep.
  { intros s s' p c Hg Hp. eapply grows_cells; [exact Hg|exact Hp|].
    apply not_elem_of_nil. }
  unfold App.createChartTraces, new_array.
  apply wlp_bind_wp, wp_alloc. intros s1 Hg1 Hlt Hlen1.
  set (lt := length (heap_of st)) in *.
  assert (l < lt /\ lc < lt) as [Hl_lt Hlc_lt].
  { split; [apply lookup_lt_Some in Hl|apply lookup_lt_Some in Hlc]; done. }
  apply wlp_bind_wp.
  eapply wp_get_own; [exact (Hkeep _ _ _ _ Hg1 Hl)|exact Hcat|].
  (* Object.entries *)
  apply wlp_bind_wp. unfold Object_entries, own_entries.
  apply wp_bind, wp_bind. eapply wp_deref; [exact (Hkeep _ _ _ _ Hg1 Hlc)|].
  apply wp_ret, wp_bind. eapply wp_mono.
  { apply (wp_mapM _ (grows [])
             (fun (kv e : string * val) _ => kv = e)
             (fun e pr s =>
                exists p, pr = VRef p
                          /\ heap_of s !! p = Some (CArr [VStr (fst e); snd e]))
             _ (own_enumerable cs)).
    - apply grows_refl.
    - apply grows_trans.
    - done.
    - intros e pr sa sb (p & -> & Hp) Hg. exists p. split; [done|].
      exact (Hkeep _ _ _ _ Hg Hp).
    - intros kv e sa -> _. apply wp_alloc. intros sb Hg Hp _.
      split; [done|]. by eexists.
    - apply Forall2_same_length_lookup. split; [done|].
      intros i x y Hx Hy. congruence. }
  intros pairs s2 [Hg2 Hpairs]. apply wp_alloc. intros s3 Hg3 HlE Hlen3.
  assert (Forall (fun pr => exists p name x,
                    pr = VRef p
                    /\ heap_of s3 !! p = Some (CArr [VStr name; x])
                    /\ (name, x) ∈ cs) pairs) as Hprs.
  { apply Forall_forall. intros pr Hpr.
    apply list_elem_of_lookup in Hpr as [i Hi].
    destruct (Forall2_lookup_r _ _ _ _ _ Hpairs Hi) as ([name x] & He & p & -> & Hp).
    exists p, name, x. split; [done|]. split; [exact (Hkeep _ _ _ _ Hg3 Hp)|].
    apply list_elem_of_lookup_2 in He.
    by rewrite own_enumerable_perm in He. }
  assert (grows [] st s3) as Hg03.
  { eapply grows_trans; [exact Hg1|]. by eapply grows_trans. }
  set (lo := length (heap_of s3)).
  assert (lt < lo) as Hlo.
  { unfold lo. destruct Hg2 as [? _ _], Hg3 as [? _ _]. lia. }
  (* map *)
  apply wlp_bind. unfold Array_map. apply wlp_bind_wp.
  eapply wp_array_receiver; [exact HlE|]. cbn [snd].
  apply wlp_bind. eapply wlp_mono.
  { apply (wlp_mapM _ (fun its s =>
             grows [] s3 s
             /\ Forall (item_of cs (heap_of s) lo (length (heap_of s))) its)).
    - split; [apply grows_refl|constructor].
    - intros its pr s Hpr [Hg Hits].
      rewrite Forall_forall in Hprs.
      destruct (Hprs _ Hpr) as (p & name & x & -> & Hp & Hin).
      unfold App.with_total. apply wlp_bind_wp.
      eapply wp_destructure_pair; [exact (Hkeep _ _ _ _ Hg Hp)|]. cbn [fst snd].
      apply wlp_bind. apply wlp_reads_only; [apply reads_only_reduce_sum|].
      intros tot. apply wlp_wp. unfold new_object. apply wp_alloc.
      intros s' Hg' Hq Hlen'. split; [by eapply grows_trans|].
      apply Forall_app. split.
      + eapply Forall_impl; [exact Hits|]. intros it Hit.
        apply (item_of_keep cs s s' [] lo (length (heap_of s)) _ it Hg');
          [lia| |exact Hit].
        by intros ? ?%not_elem_of_nil.
      + constructor; [|constructor].
        exists (length (heap_of s)), name, x, tot. split; [done|].
        split; [|done]. destruct Hg as [? _ _]. unfold lo. lia. }
  intros its s4 [Hg4 Hits]. apply wlp_wp, wp_alloc. intros s5 Hg5 HlA Hlen5.
  set (lA := length (heap_of s4)) in *.
  assert (lo <= lA) as HloA by (destruct Hg4 as [? _ _]; unfold lo, lA; lia).
  (* sort *)
  apply wlp_bind. unfold Array_sort. apply wlp_bind_wp.
  eapply wp_array_receiver; [exact HlA|]. cbn [fst snd].
  apply wlp_bind. eapply wlp_mono.
  { apply wlp_and_reads_only;
      [apply reads_only_sortM, reads_only_by_total_desc|apply sortM_elem]. }
  intros sorted ? [-> Hsorted]. apply wlp_bind_wp, wp_store; [lia|].
  intros s6 Hg6 Hc6 Hlen6. apply wlp_ret.
  assert (Forall (item_of cs (heap_of s6) lo lA) sorted) as Hitems.
  { apply Forall_forall. intros it Hit%Hsorted.
    rewrite Forall_forall in Hits.
    apply (item_of_keep cs s4 s6 [lA] lo lA lA it); [|done| |by apply Hits].
    - eapply grows_trans; [by apply grows_nil|exact Hg6].
    - intros p ->%list_elem_of_singleton _. done. }
  assert (heap_of s6 !! lt = Some (CArr [])) as Hlt6.
  { eapply grows_cells; [exact Hg6| |intros ->%list_elem_of_singleton; lia].
    apply (Hkeep s4); [done|]. apply (Hkeep s3); [done|].
    apply (Hkeep s1); [by eapply grows_trans|done]. }
  assert (heap_of s6 !! l = Some (CObj ps)) as Hl6.
  { eapply grows_cells; [exact Hg6| |intros ->%list_elem_of_singleton; lia].
    apply (Hkeep s4); [done|]. apply (Hkeep s3); [done|].
    by apply (Hkeep st). }
  (* forEach *)
  apply wlp_bind. unfold Array_forEach. apply wlp_bind_wp.
  eapply wp_array_receiver; [exact Hc6|]. cbn [snd].
  eapply wlp_mono.
  { apply (wlp_foldM _ (fun _ s =>
             grows [lt] s6 s
             /\ exists trs,
                  heap_of s !! lt = Some (CArr trs)
                  /\ Forall (fun tr => shares years cs (heap_of s) tr
                                       /\ tr <> VRef lt) trs)).
    - split; [apply grows_refl|]. exists []. split; [done|constructor].
    - intros c item s Hitem (Hg & trs & Htrs & Hshare).
      rewrite Forall_forall in Hitems.
      pose proof (item_of_keep cs s6 s [lt] lo lA lA item Hg (le_n _)) as Hit.
      destruct Hit as (q & name & x & tot & -> & Hq & Hcell & Hin).
      { intros p ->%list_elem_of_singleton. lia. }
      { by apply Hitems. }
      assert (heap_of s !! l = Some (CObj ps)) as Hls.
      { eapply grows_cells; [exact Hg|exact Hl6|].
        intros ->%list_elem_of_singleton. lia. }
      unfold App.push_trace.
      apply wlp_bind_wp. eapply wp_get_own; [exact Hcell|done|].
      apply wlp_bind_wp. eapply wp_get_own; [exact Hcell|done|].
      apply wlp_bind. apply wlp_reads_only; [apply reads_only_get|].
      intros markers.
      apply wlp_bind. apply wlp_reads_only.
      { destruct (truthy markers); [apply reads_only_get_v|by intros ?]. }
      intros found.
      apply wlp_bind. apply wlp_reads_only.
      { destruct (truthy found); [|by intros ?].
        apply reads_only_bind; [apply reads_only_get|]. intros m.
        apply reads_only_get_v. }
      intros symbol.
      apply wlp_bind_wp. eapply wp_get_own; [exact Hls|exact Hyears|].
      apply wlp_bind_wp. unfold App.new_trace, new_object.
      apply wp_bind, wp_alloc. intros sa Hga _ Hlena.
      apply wp_bind, wp_alloc. intros sb Hgb _ Hlenb.
      apply wp_bind, wp_alloc. intros sc Hgc _ Hlenc.
      apply wp_alloc. intros sd Hgd Htrace Hlend.
      assert (grows [] s sd) as Hgsd.
      { eapply grows_trans; [exact Hga|]. eapply grows_trans; [exact Hgb|].
        by eapply grows_trans. }
      assert (lt < length (heap_of s)) as Hlts by (by apply lookup_lt_Some in Htrs).
      apply wlp_bind_wp. unfold Array_push. apply wp_bind.
      eapply wp_array_receiver; [exact (Hkeep _ _ _ _ Hgsd Htrs)|].
      cbn [fst snd]. apply wp_bind, wp_store.
      { destruct Hgsd as [? _ _]. lia. }
      intros se Hge Hce Hlene. apply wp_ret. apply wlp_ret.
      assert (grows [lt] s se) as Hgse.
      { eapply grows_trans; [by apply grows_nil|exact Hge]. }
      split; [by eapply grows_trans|].
      eexists. split; [exact Hce|]. apply Forall_app. split.
      + eapply Forall_impl; [exact Hshare|]. intros tr [Htr Hne].
        split; [|done]. eapply shares_keep; [exact Hgse| |exact Htr].
        intros p -> ->%list_elem_of_singleton. done.
      + constructor; [|constructor]. split.
        * eexists (length (heap_of sc)), _, name, x. split; [done|]. split.
          { eapply grows_cells; [exact Hge|exact Htrace|].
            intros Heq%list_elem_of_singleton. lia. }
          by repeat split.
        * intros [= Heq]. lia. }
  intros c s7 (Hg7 & trs & Htrs & Hshare). apply wlp_ret.
  exists lt, trs. split; [done|]. split; [done|].
  eapply Forall_impl; [exact Hshare|]. by intros tr [Htr _].
Qed.

End Sharing.

(** * Series and dataset on one heap *)

Section Shared.

(** On every dataset, each series that [createChartTraces] returns holds, as
    [x], the dataset's own [years] array and, as [y], the very array that
    its category has in [data.categories]: the arrays are shared with the
    dataset, not copied. *)
Theorem createChartTraces_shares_arrays st data d n :
  readback n (lookup_of (heap_of st)) data = Some d ->
  is_dataset d = true ->
  exists l ps years lc cs lt trs st',
    data = VRef l
    /\ heap_of st !! l = Some (CObj ps)
    /\ assoc "years" ps = Some years
    /\ assoc "categories" ps = Some (VRef lc)
    /\ heap_of st !! lc = Some (CObj cs)
    /\ App.createChartTraces data st = (Ret (VRef lt), st')
    /\ heap_of st' !! lt = Some (CArr trs)
    /\ Forall (shares years cs (heap_of st')) trs.
Proof.
  intros Hdata Hd.
  assert (reads_in (lookup_of (heap_of st)) data d) as Hreads by (by exists n).
  destruct (createChartTraces_run _ _ _ _ Hdata Hd) as (r & st' & Hrun & _ & _).
  destruct (is_dataset_inv _ Hd) as (ms & cst & -> & Hcat & Hnum & _).
  destruct (reads_in_prim _ _ _ Hreads) as [l ->].
  destruct (reads_in_obj_same_keys _ _ _ Hreads) as (ps & Hl & Hps).
  pose proof (assoc_same_keys _ _ _ "categories" Hps) as Hc.
  pose proof (assoc_same_keys _ _ _ "years" Hps) as Hy.
  rewrite Hcat in Hc. unfold field in Hnum. cbn [members] in Hnum.
  destruct (assoc "categories" ps) as [c|] eqn:Hcps; [|done].
  destruct (assoc "years" ps) as [years|] eqn:Hyps;
    [|by destruct (assoc "years" ms)].
  destruct (reads_in_prim _ _ _ Hc) as [lc ->].
  destruct (reads_in_obj_same_keys _ _ _ Hc) as (cs & Hlc & _).
  pose proof (createChartTraces_shares st l ps years lc cs Hl Hyps Hcps Hlc)
    as Hshares.
  destruct (wlp_inv _ _ _ _ _ Hshares Hrun) as (lt & trs & -> & Hlt & Htrs).
  by exists l, ps, years, lc, cs, lt, trs, st'.
Qed.

Lemma createChartTraces_shares_arrays_witness :
  readback 3 (lookup_of (heap_of (snd (parsed dataset_scenario))))
    (fst (parsed dataset_scenario)) = Some dataset_scenario
  /\ is_dataset dataset_scenario = true
  /\ exists l ps years lc cs lt trs st',
       fst (parsed dataset_scenario) = VRef l
       /\ heap_of (snd (parsed dataset_scenario)) !! l = Some (CObj ps)
       /\ assoc "years" ps = Some years
       /\ assoc "categories" ps = Some (VRef lc)
       /\ heap_of (snd (parsed dataset_scenario)) !! lc = Some (CObj cs)
       /\ App.createChartTraces (fst (parsed dataset_scenario))
            (snd (parsed dataset_scenario)) = (Ret (VRef lt), st')
       /\ heap_of st' !! lt = Some (CArr trs)
       /\ Forall (shares years cs (heap_of st')) trs.
Proof.
  split; [reflexivity|]. split; [reflexivity|].
  exact (createChartTraces_shares_arrays (snd (parsed dataset_scenario))
           (fst (parsed dataset_scenario)) dataset_scenario 3 eq_refl eq_refl).
Defined.

End Shared.

(** * Two listeners *)

Section Listeners.

Lemma executedFunction_run i d s :
  resizeListeners s !! i = Some d ->
  App.executedFunction i s
  = (Ret tt,
     set_timing
       (alter (fun d => {| wait := wait d; timeout := Some (nextTimer s) |}) i
          (resizeListeners s))
       (filter (fun p => Some (fst p) <> timeout d) (timers s)
        ++ [(nextTimer s, i)])
       (S (nextTimer s)) s).
Proof.
  intros Hd. unfold App.executedFunction, get_state, mbind, M_bind.
  by rewrite Hd.
Qed.

Lemma timer_fires_first t i rest d s :
  timers s = (t, i) :: rest ->
  resizeListeners s !! i = Some d -> timeout d = Some t ->
  Forall (fun p => fst p <> t) rest ->
  App.timer_fires t s
  = (Ret tt,
     set_effects
       (effects s ++ (if truthy (chartInstance (AppState s))
                      then [PlotlyResize "evolution-chart"] else []))
       (set_timing (resizeListeners s) rest (nextTimer s) s)).
Proof.
  intros Hts Hd Ht Hrest.
  assert (filter (fun p : nat * nat => Some (fst p) <> Some t) rest = rest)
    as Hf2.
  { clear Hts. induction Hrest as [|p rest Hp _ IH]; [done|].
    rewrite filter_cons, decide_True by (intros [= H]; by apply Hp).
    by rewrite IH. }
  assert (filter (fun p : nat * nat => Some (fst p) <> Some t) ((t, i) :: rest)
          = rest) as Hf1.
  { by rewrite filter_cons, decide_False by (intros H; by apply H). }
  unfold App.timer_fires, get_state, mbind, M_bind. rewrite Hts.
  cbn [list_find fst]. rewrite decide_True by done.
  cbn [fmap option_fmap option_map].
  unfold App.clearTimeout, modify, set_timing, mbind, M_bind. cbn.
  rewrite Hts, Hf1. unfold App.later, get_state, mbind, M_bind. cbn.
  rewrite Hd. unfold App.clearTimeout, modify, set_timing, mbind, M_bind. cbn.
  rewrite Ht, Hf2. unfold App.resize_handler, get_state, mbind, M_bind. cbn.
  destruct (truthy (chartInstance (AppState s))); [done|].
  unfold set_effects. cbn. by rewrite app_nil_r.
Qed.

(** Every call of [debounce] makes a closure with a timer of its own: with
    two debounced listeners registered, as after a second [renderChart],
    one resize event arms one timer per listener, neither cancels the
    other's, and their elapse calls the resize handler twice. *)
Theorem debounce_independent st :
  resizeListeners st = [App.debounce 250; App.debounce 250] ->
  timers st = [] ->
  exists st1 st2 st3,
    App.resize_event st = (Ret tt, st1)
    /\ timers st1 = [(nextTimer st, 0); (S (nextTimer st), 1)]
    /\ App.timer_fires (nextTimer st) st1 = (Ret tt, st2)
    /\ timers st2 = [(S (nextTimer st), 1)]
    /\ App.timer_fires (S (nextTimer st)) st2 = (Ret tt, st3)
    /\ timers st3 = []
    /\ effects st3
       = effects st
         ++ (if truthy (chartInstance (AppState st))
             then [PlotlyResize "evolution-chart"; PlotlyResize "evolution-chart"]
             else []).
Proof.
  intros Hls Hts. set (n := nextTimer st).
  pose (s1 := set_timing
                [{| wait := 250; timeout := Some n |}; App.debounce 250]
                [(n, 0)] (S n) st).
  pose (s2 := set_timing
                [{| wait := 250; timeout := Some n |};
                 {| wait := 250; timeout := Some (S n) |}]
                [(n, 0); (S n, 1)] (S (S n)) st).
  assert (App.executedFunction 0 st = (Ret tt, s1)) as H0.
  { rewrite (executedFunction_run 0 (App.debounce 250)) by (by rewrite Hls).
    by rewrite Hls, Hts. }
  assert (App.executedFunction 1 s1 = (Ret tt, s2)) as H1.
  { rewrite (executedFunction_run 1 (App.debounce 250)) by done.
    unfold s1, s2, set_timing. cbn. by rewrite decide_True by done. }
  assert (App.resize_event st = (Ret tt, s2)) as Hev.
  { unfold App.resize_event, get_state, mbind, M_bind. rewrite Hls.
    cbn [length seq foldM]. unfold mbind, M_bind. by rewrite H0, H1. }
  pose proof (timer_fires_first n 0 [(S n, 1)]
                {| wait := 250; timeout := Some n |} s2 eq_refl eq_refl eq_refl)
    as Hf1.
  pose proof (fun s H => timer_fires_first (S n) 1 []
                {| wait := 250; timeout := Some (S n) |} s H) as Hf2.
  eexists s2, _, _. split; [exact Hev|]. split; [done|].
  split; [apply Hf1; repeat constructor; cbn; lia|]. split; [done|].
  split; [apply Hf2; done|]. split; [done|]. cbn.
  destruct (truthy (chartInstance (AppState st))); [|by rewrite !app_nil_r].
  by rewrite <- app_assoc.
Qed.

Lemma debounce_independent_witness :
  resizeListeners page_rendered_twice = [App.debounce 250; App.debounce 250]
  /\ timers page_rendered_twice = []
  /\ exists st1 st2 st3,
       App.resize_event page_rendered_twice = (Ret tt, st1)
       /\ timers st1 = [(0, 0); (1, 1)]
       /\ App.timer_fires 0 st1 = (Ret tt, st2)
       /\ App.timer_fires 1 st2 = (Ret tt, st3)
       /\ effects st3
          = effects page_rendered_twice
            ++ [PlotlyResize "evolution-chart"; PlotlyResize "evolution-chart"].
Proof.
  split; [reflexivity|]. split; [reflexivity|].
  destruct (debounce_independent page_rendered_twice eq_refl eq_refl)
    as (st1 & st2 & st3 & Hev & Hts & Hf1 & _ & Hf2 & _ & Heff).
  exists st1, st2, st3. split; [exact Hev|]. split; [exact Hts|].
  split; [exact Hf1|]. split; [exact Hf2|exact Heff].
Defined.

End Listeners.
